(** * BuildingBrilliance contracts: staking token and ValueNFT

  A shallow embedding of [contracts/BuildingBrillianceToken.sol], which
  holds two contracts: [BuildingBrillianceToken] (ERC20 with staking and a
  reward pool) and [ValueNFT] (ERC721 with a computed value and a
  marketplace).

  Conventions of the embedding:
  - a [uint256] is a [Z]; Solidity 0.8 checked arithmetic is written out:
    an operation whose result leaves [0, 2^256) fails with [Panic];
  - an [address] is a [Z], the zero address is [0];
  - a [mapping] is a [gmap] read with the storage default;
  - a function that can revert returns a [result]; a reverted call leaves
    the storage of the transaction's start ([transact]);
  - [msg.sender], [block.timestamp], [address(this)] and [msg.value] are
    passed in an [env] record; for ValueNFT, whose calls reach other
    accounts, the record also says how those accounts respond. *)

From Stdlib Require Import ZArith Lia.
From stdpp Require Import gmap strings.

Local Open Scope Z_scope.

(** ** Solidity primitives *)

Module Sol.

Definition address := Z.

Definition MAX_UINT256 : Z := 2 ^ 256 - 1.

Definition is_uint256 (x : Z) : bool := (0 <=? x) && (x <=? MAX_UINT256).

(** [Revert reason] is a failed [require]; [Panic] is a Solidity panic:
    0x11 and 0x12 of checked arithmetic, 0x41 of an allocation that is too
    large; [OutOfGas] is a call whose gas does not pay for the memory it
    asks for. *)
Inductive error :=
| Revert (reason : string)
| Panic
| OutOfGas.

Inductive result (A : Type) :=
| Ok (a : A)
| Err (e : error).
Arguments Ok {A} a.
Arguments Err {A} e.

Definition bind {A B} (f : A -> result B) (m : result A) : result B :=
  match m with
  | Ok a => f a
  | Err e => Err e
  end.

#[export] Instance result_ret : MRet result := fun A a => Ok a.
#[export] Instance result_bind : MBind result := fun A B f m => bind f m.

Definition require (cond : bool) (reason : string) : result unit :=
  if cond then Ok tt else Err (Revert reason).

Definition add (a b : Z) : result Z :=
  if a + b <=? MAX_UINT256 then Ok (a + b) else Err Panic.

Definition sub (a b : Z) : result Z :=
  if b <=? a then Ok (a - b) else Err Panic.

Definition mul (a b : Z) : result Z :=
  if a * b <=? MAX_UINT256 then Ok (a * b) else Err Panic.

Definition div (a b : Z) : result Z :=
  if b =? 0 then Err Panic else Ok (a / b).

Definition pow (a b : Z) : result Z :=
  if a ^ b <=? MAX_UINT256 then Ok (a ^ b) else Err Panic.

Definition days (n : Z) : Z := n * 86400.

Definition ether : Z := 10 ^ 18.

(** msg.sender, block.timestamp, address(this), msg.value *)
Record env := mkEnv {
  msg_sender : address;
  block_timestamp : Z;
  this : address;
  msg_value : Z
}.

End Sol.

Import Sol.

(** ** contract BuildingBrillianceToken *)

Module Token.

Inductive Role :=
| DEFAULT_ADMIN_ROLE
| MINTER_ROLE
| PAUSER_ROLE
| REWARDS_ROLE.

Definition MAX_SUPPLY : Z := 1000000000 * 10 ^ 18.
Definition INITIAL_SUPPLY : Z := 100000000 * 10 ^ 18.
Definition SECONDS_PER_YEAR : Z := days 365.

Record Stake := mkStake {
  amount : Z;
  timestamp : Z;
  rewardDebt : Z;
  lockPeriod : Z
}.

Definition noStake : Stake := mkStake 0 0 0 0.

(** Storage. [balances], [supply] and [paused] are the inherited ERC20 and
    Pausable storage; [members] is AccessControl's role table. Allowances
    are left out: no function of the contract reads them. *)
Record state := mkState {
  balances : gmap address Z;
  supply : Z;
  paused : bool;
  members : Role -> gset address;
  stakes : gmap address Stake;
  rewards : gmap address Z;
  totalStaked : Z;
  rewardRate : Z;
  rewardPool : Z;
  lastRewardDistribution : Z
}.

Definition balanceOf (s : state) (a : address) : Z := default 0 (balances s !! a).
Definition stakeOf (s : state) (a : address) : Stake := default noStake (stakes s !! a).
Definition rewardOf (s : state) (a : address) : Z := default 0 (rewards s !! a).
Definition hasRole (s : state) (r : Role) (a : address) : bool :=
  bool_decide (a ∈ members s r).

Definition set_balance (a : address) (v : Z) (s : state) : state :=
  mkState (<[a := v]> (balances s)) (supply s) (paused s) (members s) (stakes s)
          (rewards s) (totalStaked s) (rewardRate s) (rewardPool s)
          (lastRewardDistribution s).

Definition set_supply (v : Z) (s : state) : state :=
  mkState (balances s) v (paused s) (members s) (stakes s)
          (rewards s) (totalStaked s) (rewardRate s) (rewardPool s)
          (lastRewardDistribution s).

Definition set_paused (b : bool) (s : state) : state :=
  mkState (balances s) (supply s) b (members s) (stakes s)
          (rewards s) (totalStaked s) (rewardRate s) (rewardPool s)
          (lastRewardDistribution s).

Definition set_stake (a : address) (st : Stake) (s : state) : state :=
  mkState (balances s) (supply s) (paused s) (members s) (<[a := st]> (stakes s))
          (rewards s) (totalStaked s) (rewardRate s) (rewardPool s)
          (lastRewardDistribution s).

Definition set_reward (a : address) (v : Z) (s : state) : state :=
  mkState (balances s) (supply s) (paused s) (members s) (stakes s)
          (<[a := v]> (rewards s)) (totalStaked s) (rewardRate s) (rewardPool s)
          (lastRewardDistribution s).

Definition set_totalStaked (v : Z) (s : state) : state :=
  mkState (balances s) (supply s) (paused s) (members s) (stakes s)
          (rewards s) v (rewardRate s) (rewardPool s)
          (lastRewardDistribution s).

Definition set_rewardRate (v : Z) (s : state) : state :=
  mkState (balances s) (supply s) (paused s) (members s) (stakes s)
          (rewards s) (totalStaked s) v (rewardPool s)
          (lastRewardDistribution s).

Definition set_rewardPool (v : Z) (s : state) : state :=
  mkState (balances s) (supply s) (paused s) (members s) (stakes s)
          (rewards s) (totalStaked s) (rewardRate s) v
          (lastRewardDistribution s).

Definition set_lastRewardDistribution (v : Z) (s : state) : state :=
  mkState (balances s) (supply s) (paused s) (members s) (stakes s)
          (rewards s) (totalStaked s) (rewardRate s) (rewardPool s) v.

Definition onlyRole (s : state) (r : Role) (e : env) : result unit :=
  require (hasRole s r (msg_sender e)) "AccessControl: account is missing role".

(** *** Inherited ERC20 internals (OpenZeppelin 4.x)

    [_beforeTokenTransfer] is overridden in the contract to chain to
    ERC20Pausable's hook, which rejects every token movement while the
    token is paused. *)

Definition _beforeTokenTransfer (s : state) : result unit :=
  require (negb (paused s)) "ERC20Pausable: token transfer while paused".

Definition _transfer (from to : address) (amt : Z) (s : state) : result state :=
  require (negb (from =? 0)) "ERC20: transfer from the zero address";;
  require (negb (to =? 0)) "ERC20: transfer to the zero address";;
  _beforeTokenTransfer s;;
  let fromBalance := balanceOf s from in
  require (amt <=? fromBalance) "ERC20: transfer amount exceeds balance";;
  let s1 := set_balance from (fromBalance - amt) s in
  mret (set_balance to (balanceOf s1 to + amt) s1).

Definition _mint (account : address) (amt : Z) (s : state) : result state :=
  require (negb (account =? 0)) "ERC20: mint to the zero address";;
  _beforeTokenTransfer s;;
  sup ← add (supply s) amt;
  let s1 := set_supply sup s in
  mret (set_balance account (balanceOf s1 account + amt) s1).

Definition _burn (account : address) (amt : Z) (s : state) : result state :=
  require (negb (account =? 0)) "ERC20: burn from the zero address";;
  _beforeTokenTransfer s;;
  let accountBalance := balanceOf s account in
  require (amt <=? accountBalance) "ERC20: burn amount exceeds balance";;
  let s1 := set_balance account (accountBalance - amt) s in
  mret (set_supply (supply s1 - amt) s1).

(** *** constructor *)

Definition granted (admin minter rewardsManager : address) (r : Role)
  : gset address :=
  match r with
  | DEFAULT_ADMIN_ROLE => {[ admin ]}
  | MINTER_ROLE => {[ minter ]}
  | PAUSER_ROLE => {[ admin ]}
  | REWARDS_ROLE => {[ rewardsManager ]}
  end.

Definition constructor (admin minter rewardsManager : address) (e : env)
  : result state :=
  let s0 := mkState ∅ 0 false (granted admin minter rewardsManager) ∅ ∅ 0 100 0 0 in
  s1 ← _mint admin INITIAL_SUPPLY s0;
  mret (set_lastRewardDistribution (block_timestamp e) s1).

(** *** mint, pause, unpause *)

Definition mint (to : address) (amt : Z) (e : env) (s : state) : result state :=
  onlyRole s MINTER_ROLE e;;
  total ← add (supply s) amt;
  require (total <=? MAX_SUPPLY) "Exceeds max supply";;
  _mint to amt s.

Definition pause (e : env) (s : state) : result state :=
  onlyRole s PAUSER_ROLE e;;
  require (negb (paused s)) "Pausable: paused";;
  mret (set_paused true s).

Definition unpause (e : env) (s : state) : result state :=
  onlyRole s PAUSER_ROLE e;;
  require (paused s) "Pausable: not paused";;
  mret (set_paused false s).

(** *** Staking *)

Definition accrued (st : Stake) (rate now : Z) : result Z :=
  timeStaked ← sub now (timestamp st);
  x ← mul (amount st) rate;
  y ← mul x timeStaked;
  d ← mul SECONDS_PER_YEAR 10000;
  div y d.

Definition _updateRewards (user : address) (e : env) (s : state) : result state :=
  let userStake := stakeOf s user in
  if 0 <? amount userStake then
    reward ← accrued userStake (rewardRate s) (block_timestamp e);
    r ← add (rewardOf s user) reward;
    let s1 := set_reward user r s in
    mret (set_stake user
            (mkStake (amount userStake) (block_timestamp e)
                     (rewardDebt userStake) (lockPeriod userStake)) s1)
  else mret s.

Definition _claimRewards (e : env) (s : state) : result state :=
  let reward := rewardOf s (msg_sender e) in
  if 0 <? reward then
    let s1 := set_reward (msg_sender e) 0 s in
    require (reward <=? rewardPool s1) "Insufficient reward pool";;
    p ← sub (rewardPool s1) reward;
    let s2 := set_rewardPool p s1 in
    _transfer (this e) (msg_sender e) reward s2
  else mret s.

Definition stake (amt lock : Z) (e : env) (s : state) : result state :=
  require (0 <? amt) "Amount must be greater than 0";;
  require (days 30 <=? lock) "Minimum lock period is 30 days";;
  require (lock <=? days 365) "Maximum lock period is 365 days";;
  require (amt <=? balanceOf s (msg_sender e)) "Insufficient balance";;
  s1 ← _updateRewards (msg_sender e) e s;
  s2 ← _transfer (msg_sender e) (this e) amt s1;
  let userStake := stakeOf s2 (msg_sender e) in
  a ← add (amount userStake) amt;
  let s3 := set_stake (msg_sender e)
              (mkStake a (block_timestamp e) (rewardDebt userStake) lock) s2 in
  t ← add (totalStaked s3) amt;
  mret (set_totalStaked t s3).

Definition unstake (amt : Z) (e : env) (s : state) : result state :=
  let userStake := stakeOf s (msg_sender e) in
  require (amt <=? amount userStake) "Insufficient staked amount";;
  unlock ← add (timestamp userStake) (lockPeriod userStake);
  require (unlock <=? block_timestamp e) "Lock period not expired";;
  s1 ← _updateRewards (msg_sender e) e s;
  s2 ← _claimRewards e s1;
  let userStake := stakeOf s2 (msg_sender e) in
  a ← sub (amount userStake) amt;
  let s3 := set_stake (msg_sender e)
              (mkStake a (timestamp userStake) (rewardDebt userStake)
                       (lockPeriod userStake)) s2 in
  t ← sub (totalStaked s3) amt;
  _transfer (this e) (msg_sender e) amt (set_totalStaked t s3).

Definition claimRewards (e : env) (s : state) : result state :=
  s1 ← _updateRewards (msg_sender e) e s;
  _claimRewards e s1.

Definition distributeRewards (amt : Z) (e : env) (s : state) : result state :=
  onlyRole s REWARDS_ROLE e;;
  require (amt <=? balanceOf s (msg_sender e)) "Insufficient balance";;
  s1 ← _transfer (msg_sender e) (this e) amt s;
  p ← add (rewardPool s1) amt;
  mret (set_lastRewardDistribution (block_timestamp e) (set_rewardPool p s1)).

Definition updateRewardRate (newRate : Z) (e : env) (s : state) : result state :=
  onlyRole s DEFAULT_ADMIN_ROLE e;;
  require (newRate <=? 2000) "Reward rate cannot exceed 20%";;
  mret (set_rewardRate newRate s).

(** *** Views *)

Definition pendingRewards (user : address) (e : env) (s : state) : result Z :=
  let userStake := stakeOf s user in
  if amount userStake =? 0 then mret (rewardOf s user)
  else
    pendingReward ← accrued userStake (rewardRate s) (block_timestamp e);
    add (rewardOf s user) pendingReward.

Record StakeInfo := mkStakeInfo {
  info_amount : Z;
  info_timestamp : Z;
  info_lockPeriod : Z;
  info_unlockTime : Z;
  info_canUnstake : bool
}.

Definition getStakeInfo (user : address) (e : env) (s : state) : result StakeInfo :=
  let userStake := stakeOf s user in
  unlockTime ← add (timestamp userStake) (lockPeriod userStake);
  mret (mkStakeInfo (amount userStake) (timestamp userStake) (lockPeriod userStake)
                    unlockTime (unlockTime <=? block_timestamp e)).

Definition getStakingAPR (lock : Z) (s : state) : result Z :=
  let baseAPR := rewardRate s in
  if days 365 <=? lock then add baseAPR 500
  else if days 180 <=? lock then add baseAPR 300
  else if days 90 <=? lock then add baseAPR 100
  else mret baseAPR.

(** *** emergencyWithdraw *)

Definition whenPaused (s : state) : result unit :=
  require (paused s) "Pausable: not paused".

Definition emergencyWithdraw (e : env) (s : state) : result state :=
  onlyRole s DEFAULT_ADMIN_ROLE e;;
  whenPaused s;;
  let balance := balanceOf s (this e) in
  if 0 <? balance then _transfer (this e) (msg_sender e) balance s
  else mret s.

(** *** Inherited public entry points that move tokens *)

Definition transfer (to : address) (amt : Z) (e : env) (s : state) : result state :=
  _transfer (msg_sender e) to amt s.

Definition burn (amt : Z) (e : env) (s : state) : result state :=
  _burn (msg_sender e) amt s.

(** *** Transactions

    The external calls of the contract, one constructor per entry point.
    [step] dispatches a call; [transact] is the effect of the transaction
    on storage: a reverted call leaves it as it was. Of the inherited entry
    points, [transfer] and [burn] stand for those that move tokens;
    allowances and role administration are left out, they touch neither
    the staking ledger nor the pool. *)

Inductive call :=
| Mint (to : address) (amt : Z)
| Pause
| Unpause
| StakeTokens (amt lock : Z)
| Unstake (amt : Z)
| ClaimRewards
| DistributeRewards (amt : Z)
| UpdateRewardRate (newRate : Z)
| EmergencyWithdraw
| Transfer (to : address) (amt : Z)
| Burn (amt : Z).

Definition step (c : call) (e : env) (s : state) : result state :=
  match c with
  | Mint to amt => mint to amt e s
  | Pause => pause e s
  | Unpause => unpause e s
  | StakeTokens amt lock => stake amt lock e s
  | Unstake amt => unstake amt e s
  | ClaimRewards => claimRewards e s
  | DistributeRewards amt => distributeRewards amt e s
  | UpdateRewardRate newRate => updateRewardRate newRate e s
  | EmergencyWithdraw => emergencyWithdraw e s
  | Transfer to amt => transfer to amt e s
  | Burn amt => burn amt e s
  end.

Definition transact (c : call) (e : env) (s : state) : state :=
  match step c e s with
  | Ok s' => s'
  | Err _ => s
  end.

(** Arguments are ABI-decoded [uint256] values. *)
Definition well_typed (c : call) : bool :=
  match c with
  | Mint _ amt | Unstake amt | DistributeRewards amt | Transfer _ amt | Burn amt =>
      is_uint256 amt
  | StakeTokens amt lock => is_uint256 amt && is_uint256 lock
  | UpdateRewardRate newRate => is_uint256 newRate
  | Pause | Unpause | ClaimRewards | EmergencyWithdraw => true
  end.

(** A block environment for the contract at [self], not earlier than [t]. *)
Definition valid_env (self : address) (t : Z) (e : env) : Prop :=
  this e = self /\ msg_sender e <> 0 /\
  0 <= t <= block_timestamp e /\ block_timestamp e <= MAX_UINT256.

(** [reachable self t s]: storage [s] is reached at block time [t] by the
    deployment followed by any sequence of successful calls. *)
Inductive reachable (self : address) : Z -> state -> Prop :=
| reachable_deploy admin minter rewardsManager e s :
    valid_env self 0 e ->
    constructor admin minter rewardsManager e = Ok s ->
    reachable self (block_timestamp e) s
| reachable_step t s c e s' :
    reachable self t s ->
    well_typed c = true ->
    valid_env self t e ->
    step c e s = Ok s' ->
    reachable self (block_timestamp e) s'.

(** Sum of [stake.amount] over all accounts. *)
Definition sumStaked (m : gmap address Stake) : Z :=
  map_fold (fun _ st acc => amount st + acc) 0 m.

(** The unlock time that [unstake] compares the block time with. *)
Definition unlockTime (s : state) (user : address) : Z :=
  timestamp (stakeOf s user) + lockPeriod (stakeOf s user).

(** The calls that settle the caller's reward. *)
Definition settles (c : call) : bool :=
  match c with
  | StakeTokens _ _ | Unstake _ | ClaimRewards => true
  | _ => false
  end.

(** The accrual of the specification, in exact integer arithmetic:
    [amount * rewardRateBps * (now - checkpoint) / (secondsPerYear * 10000)]. *)
Definition accrual (s : state) (user : address) (now : Z) : Z :=
  amount (stakeOf s user) * rewardRate s * (now - timestamp (stakeOf s user))
  / (SECONDS_PER_YEAR * 10000).

(** The staking invariant. *)
Record invariant (s : state) : Prop := mkInvariant {
  inv_total : totalStaked s = sumStaked (stakes s);
  inv_total_nonneg : 0 <= totalStaked s;
  inv_pool : 0 <= rewardPool s;
  inv_rate : 0 <= rewardRate s;
  inv_amounts : forall a, 0 <= amount (stakeOf s a);
  inv_rewards : forall a, 0 <= rewardOf s a
}.

(** Two storages that differ at most in token balances, supply, the pause
    flag and the time of the last distribution. *)
Definition same_staking (s s' : state) : Prop :=
  stakes s' = stakes s /\ rewards s' = rewards s /\
  totalStaked s' = totalStaked s /\ rewardRate s' = rewardRate s /\
  rewardPool s' = rewardPool s.

End Token.

(** ** BuildingBrillianceToken: notions used to state further properties *)

Module TokenSpec.
Import Token.

(** The tokens held by the contract cover the staked principal and the
    reward pool. *)
Definition backed (self : address) (s : state) : Prop :=
  totalStaked s + rewardPool s <= balanceOf s self.

(** The role an entry point demands of its caller, if any. *)
Definition role_of (c : call) : option Role :=
  match c with
  | Mint _ _ => Some MINTER_ROLE
  | Pause | Unpause => Some PAUSER_ROLE
  | DistributeRewards _ => Some REWARDS_ROLE
  | UpdateRewardRate _ | EmergencyWithdraw => Some DEFAULT_ADMIN_ROLE
  | StakeTokens _ _ | Unstake _ | ClaimRewards | Transfer _ _ | Burn _ => None
  end.

(** The entry points that move tokens, and [pause] itself: each of them
    runs into the pause hook of the token or into [whenNotPaused]. *)
Definition needs_unpaused (c : call) : bool :=
  match c with
  | Mint _ _ | Pause | StakeTokens _ _ | Unstake _ | DistributeRewards _
  | Transfer _ _ | Burn _ => true
  | Unpause | ClaimRewards | UpdateRewardRate _ | EmergencyWithdraw => false
  end.

(** What a movement of [amt] from [from] to [to] changes in the balance
    of [a]. *)
Definition moved (from to : address) (amt : Z) (a : address) : Z :=
  (if decide (a = to) then amt else 0) - (if decide (a = from) then amt else 0).

End TokenSpec.

(** ** contract ValueNFT *)

Module NFT.

Inductive Role :=
| DEFAULT_ADMIN_ROLE
| MINTER_ROLE
| ORACLE_ROLE
| MARKETPLACE_ROLE.

(** *** The environment of a call

    A call of ValueNFT reaches accounts outside the contract: [buyNFT]
    pays the seller and the fee recipient in ether, and a mint hands the
    token to a receiver. How those accounts respond, and how much memory
    the gas of the call pays for, is part of the call's environment:
    - [accepts_ether a]: a transfer of ether to [a] with the 2300 gas
      stipend goes through ([a] has no code, or a payable receive or
      fallback function that runs within the stipend);
    - [on_receive a]: what [_checkOnERC721Received] finds at [a];
    - [memory_limit]: the longest [uint256] array the call can allocate
      before it runs out of gas.
    The four values of [Sol.env] are read through the coercion [base]. *)

(** [Accepts]: the account has no code, or its [onERC721Received] returns
    the selector. [Refuses]: it returns another value, or reverts without
    data. [RevertsWith err]: it reverts with data of its own. The callback
    is modelled by its outcome: a receiver that calls back into the
    contract before it returns is outside the model. *)
Inductive receipt :=
| Accepts
| Refuses
| RevertsWith (err : error).

Record env := mkEnv {
  base :> Sol.env;
  accepts_ether : address -> bool;
  on_receive : address -> receipt;
  memory_limit : Z
}.

Definition BASE_VALUE : Z := 1 * ether.
Definition MAX_MULTIPLIER : Z := 10000.
Definition VALUE_DECAY_RATE : Z := 9950.

Record ValueData := mkValueData {
  contentId : string;
  creator : address;
  initialValue : Z;
  currentValue : Z;
  impactScore : Z;
  engagementScore : Z;
  qualityScore : Z;
  viewCount : Z;
  actionCount : Z;
  mintTimestamp : Z;
  lastValueUpdate : Z;
  isListed : bool;
  listPrice : Z
}.

Definition noValueData : ValueData :=
  mkValueData "" 0 0 0 0 0 0 0 0 0 0 false 0.

(** Storage. [owners] and [tokenURIs] are the inherited ERC721 and
    ERC721URIStorage storage, [members] is AccessControl's role table.
    ERC721's per-holder counts and approvals are left out: no function of
    the contract reads them. [funds] holds the native-currency balances
    that [buyNFT] moves; the contract's own balance is [funds] at
    [address(this)]. *)
Record state := mkState {
  owners : gmap Z address;
  tokenURIs : gmap Z string;
  members : Role -> gset address;
  _tokenIdCounter : Z;
  valueData : gmap Z ValueData;
  contentToToken : gmap string Z;
  creatorTokens : gmap address (list Z);
  tokenListings : gmap Z address;
  marketplaceFee : Z;
  feeRecipient : address;
  funds : gmap address Z
}.

Definition _ownerOf (s : state) (tokenId : Z) : address :=
  default 0 (owners s !! tokenId).
Definition valueDataOf (s : state) (tokenId : Z) : ValueData :=
  default noValueData (valueData s !! tokenId).
Definition tokenOfContent (s : state) (cid : string) : Z :=
  default 0 (contentToToken s !! cid).
Definition tokensOfCreator (s : state) (a : address) : list Z :=
  default [] (creatorTokens s !! a).
Definition listerOf (s : state) (tokenId : Z) : address :=
  default 0 (tokenListings s !! tokenId).
Definition fundsOf (s : state) (a : address) : Z :=
  default 0 (funds s !! a).
Definition hasRole (s : state) (r : Role) (a : address) : bool :=
  bool_decide (a ∈ members s r).

Definition with_owners (f : gmap Z address -> gmap Z address) (s : state) : state :=
  mkState (f (owners s)) (tokenURIs s) (members s) (_tokenIdCounter s) (valueData s)
          (contentToToken s) (creatorTokens s) (tokenListings s) (marketplaceFee s)
          (feeRecipient s) (funds s).

Definition with_tokenURIs (f : gmap Z string -> gmap Z string) (s : state) : state :=
  mkState (owners s) (f (tokenURIs s)) (members s) (_tokenIdCounter s) (valueData s)
          (contentToToken s) (creatorTokens s) (tokenListings s) (marketplaceFee s)
          (feeRecipient s) (funds s).

Definition set_tokenIdCounter (v : Z) (s : state) : state :=
  mkState (owners s) (tokenURIs s) (members s) v (valueData s)
          (contentToToken s) (creatorTokens s) (tokenListings s) (marketplaceFee s)
          (feeRecipient s) (funds s).

Definition with_valueData (f : gmap Z ValueData -> gmap Z ValueData) (s : state)
  : state :=
  mkState (owners s) (tokenURIs s) (members s) (_tokenIdCounter s) (f (valueData s))
          (contentToToken s) (creatorTokens s) (tokenListings s) (marketplaceFee s)
          (feeRecipient s) (funds s).

Definition with_contentToToken (f : gmap string Z -> gmap string Z) (s : state)
  : state :=
  mkState (owners s) (tokenURIs s) (members s) (_tokenIdCounter s) (valueData s)
          (f (contentToToken s)) (creatorTokens s) (tokenListings s) (marketplaceFee s)
          (feeRecipient s) (funds s).

Definition with_creatorTokens
  (f : gmap address (list Z) -> gmap address (list Z)) (s : state) : state :=
  mkState (owners s) (tokenURIs s) (members s) (_tokenIdCounter s) (valueData s)
          (contentToToken s) (f (creatorTokens s)) (tokenListings s) (marketplaceFee s)
          (feeRecipient s) (funds s).

Definition with_tokenListings (f : gmap Z address -> gmap Z address) (s : state)
  : state :=
  mkState (owners s) (tokenURIs s) (members s) (_tokenIdCounter s) (valueData s)
          (contentToToken s) (creatorTokens s) (f (tokenListings s)) (marketplaceFee s)
          (feeRecipient s) (funds s).

Definition set_marketplaceFee (v : Z) (s : state) : state :=
  mkState (owners s) (tokenURIs s) (members s) (_tokenIdCounter s) (valueData s)
          (contentToToken s) (creatorTokens s) (tokenListings s) v
          (feeRecipient s) (funds s).

Definition set_feeRecipient (a : address) (s : state) : state :=
  mkState (owners s) (tokenURIs s) (members s) (_tokenIdCounter s) (valueData s)
          (contentToToken s) (creatorTokens s) (tokenListings s) (marketplaceFee s)
          a (funds s).

Definition with_funds (f : gmap address Z -> gmap address Z) (s : state) : state :=
  mkState (owners s) (tokenURIs s) (members s) (_tokenIdCounter s) (valueData s)
          (contentToToken s) (creatorTokens s) (tokenListings s) (marketplaceFee s)
          (feeRecipient s) (f (funds s)).

Definition set_valueData (tokenId : Z) (d : ValueData) : state -> state :=
  with_valueData <[tokenId := d]>.

(** [data.impactScore = ..; ..; data.actionCount = ..] *)
Definition set_metrics (impact engagement quality views actions : Z) (d : ValueData)
  : ValueData :=
  mkValueData (contentId d) (creator d) (initialValue d) (currentValue d)
              impact engagement quality views actions
              (mintTimestamp d) (lastValueUpdate d) (isListed d) (listPrice d).

(** [data.currentValue = ..; data.lastValueUpdate = ..] *)
Definition set_value (value updated : Z) (d : ValueData) : ValueData :=
  mkValueData (contentId d) (creator d) (initialValue d) value
              (impactScore d) (engagementScore d) (qualityScore d)
              (viewCount d) (actionCount d)
              (mintTimestamp d) updated (isListed d) (listPrice d).

(** [valueData[tokenId].isListed = ..; valueData[tokenId].listPrice = ..] *)
Definition set_listing (listed : bool) (price : Z) (d : ValueData) : ValueData :=
  mkValueData (contentId d) (creator d) (initialValue d) (currentValue d)
              (impactScore d) (engagementScore d) (qualityScore d)
              (viewCount d) (actionCount d)
              (mintTimestamp d) (lastValueUpdate d) listed price.

Definition onlyRole (s : state) (r : Role) (e : env) : result unit :=
  require (hasRole s r (msg_sender e)) "AccessControl: account is missing role".

(** *** Inherited ERC721 internals (OpenZeppelin 4.x) *)

Definition _exists (s : state) (tokenId : Z) : bool :=
  negb (_ownerOf s tokenId =? 0).

Definition ownerOf (s : state) (tokenId : Z) : result address :=
  let owner := _ownerOf s tokenId in
  require (negb (owner =? 0)) "ERC721: invalid token ID";;
  mret owner.

Definition _mint (to : address) (tokenId : Z) (s : state) : result state :=
  require (negb (to =? 0)) "ERC721: mint to the zero address";;
  require (negb (_exists s tokenId)) "ERC721: token already minted";;
  mret (with_owners <[tokenId := to]> s).

(** The call to [onERC721Received] of the recipient: a wrong return value
    and a revert without data both end in the fixed message, a revert with
    data is passed on. *)
Definition _checkOnERC721Received (to : address) (e : env) : result unit :=
  match on_receive e to with
  | Accepts => mret tt
  | Refuses => Err (Revert "ERC721: transfer to non ERC721Receiver implementer")
  | RevertsWith err => Err err
  end.

Definition _safeMint (to : address) (tokenId : Z) (e : env) (s : state)
  : result state :=
  s1 ← _mint to tokenId s;
  _checkOnERC721Received to e;;
  mret s1.

Definition _setTokenURI (tokenId : Z) (uri : string) (s : state) : result state :=
  require (_exists s tokenId) "ERC721URIStorage: URI set of nonexistent token";;
  mret (with_tokenURIs <[tokenId := uri]> s).

Definition _transfer (from to : address) (tokenId : Z) (s : state) : result state :=
  owner ← ownerOf s tokenId;
  require (owner =? from) "ERC721: transfer from incorrect owner";;
  require (negb (to =? 0)) "ERC721: transfer to the zero address";;
  mret (with_owners <[tokenId := to]> s).

(** The contract's [_burn] override: ERC721URIStorage's [_burn], then the
    clean-up of the value data. *)
Definition _burn (tokenId : Z) (s : state) : result state :=
  ownerOf s tokenId;;
  let s1 := with_tokenURIs (delete tokenId) (with_owners (delete tokenId) s) in
  let cid := contentId (valueDataOf s1 tokenId) in
  let s2 := with_valueData (delete tokenId) s1 in
  let s3 := with_contentToToken (delete cid) s2 in
  mret (if negb (listerOf s3 tokenId =? 0)
        then with_tokenListings (delete tokenId) s3
        else s3).

(** *** Native currency *)

(** A payable call first moves [msg.value] from the caller to the
    contract; a caller who cannot pay it cannot make the call. *)
Definition receive_value (e : env) (s : state) : result state :=
  let balance := fundsOf s (msg_sender e) in
  require (msg_value e <=? balance) "insufficient funds for value";;
  let s1 := with_funds <[msg_sender e := balance - msg_value e]> s in
  mret (with_funds <[this e := fundsOf s1 (this e) + msg_value e]> s1).

(** [payable(to).transfer(amt)]. It fails when the contract does not hold
    [amt] and when the recipient does not take the payment; ValueNFT has no
    receive or fallback function, so a payment to the contract itself never
    goes through. The call then reverts with the recipient's revert data
    (none for an account without such a function); the reason text is a
    label of the model. *)
Definition send (to : address) (amt : Z) (e : env) (s : state) : result state :=
  let balance := fundsOf s (this e) in
  require (amt <=? balance) "transfer failed";;
  require (negb (to =? this e) && accepts_ether e to) "transfer failed";;
  let s1 := with_funds <[this e := balance - amt]> s in
  mret (with_funds <[to := fundsOf s1 to + amt]> s1).

(** *** constructor *)

Definition granted (admin minter oracle : address) (r : Role) : gset address :=
  match r with
  | DEFAULT_ADMIN_ROLE => {[ admin ]}
  | MINTER_ROLE => {[ minter ]}
  | ORACLE_ROLE => {[ oracle ]}
  | MARKETPLACE_ROLE => {[ admin ]}
  end.

Definition constructor (admin minter oracle _feeRecipient : address)
  (chain_funds : gmap address Z) : state :=
  mkState ∅ ∅ (granted admin minter oracle) 0 ∅ ∅ ∅ ∅ 250 _feeRecipient chain_funds.

(** *** mintValueNFT *)

Definition mintValueNFT (to : address) (cid tokenURI : string) (initial : Z)
  (e : env) (s : state) : result (state * Z) :=
  onlyRole s MINTER_ROLE e;;
  require (tokenOfContent s cid =? 0) "Content already tokenized";;
  require (BASE_VALUE / 10 <=? initial) "Initial value too low";;
  let tokenId := _tokenIdCounter s in
  let s1 := set_tokenIdCounter ((tokenId + 1) mod 2 ^ 256) s in
  s2 ← _safeMint to tokenId e s1;
  s3 ← _setTokenURI tokenId tokenURI s2;
  let s4 := set_valueData tokenId
              (mkValueData cid to initial initial 5000 5000 7500 0 0
                           (block_timestamp e) (block_timestamp e) false 0) s3 in
  let s5 := with_contentToToken <[cid := tokenId]> s4 in
  let s6 := with_creatorTokens <[to := tokensOfCreator s5 to ++ [tokenId]]> s5 in
  mret (s6, tokenId).

(** *** _calculateValue *)

Definition compositeScoreOf (d : ValueData) : result Z :=
  a ← mul (impactScore d) 40;
  b ← mul (engagementScore d) 35;
  ab ← add a b;
  c ← mul (qualityScore d) 25;
  abc ← add ab c;
  div abc 100.

Definition decayMultiplierOf (d : ValueData) (now : Z) : result Z :=
  timeSinceUpdate ← sub now (lastValueUpdate d);
  decayPeriods ← div timeSinceUpdate (days 1);
  num ← pow VALUE_DECAY_RATE decayPeriods;
  den ← pow 10000 decayPeriods;
  div num den.

Definition actionMultiplierOf (d : ValueData) : result Z :=
  if 0 <? actionCount d then
    bonus ← mul (actionCount d) 100;
    m ← add 10000 bonus;
    mret (if MAX_MULTIPLIER <? m then MAX_MULTIPLIER else m)
  else mret 10000.

Definition _calculateValue (tokenId : Z) (e : env) (s : state) : result Z :=
  let data := valueDataOf s tokenId in
  compositeScore ← compositeScoreOf data;
  decayMultiplier ← decayMultiplierOf data (block_timestamp e);
  actionMultiplier ← actionMultiplierOf data;
  p1 ← mul (initialValue data) compositeScore;
  p2 ← mul p1 actionMultiplier;
  p3 ← mul p2 decayMultiplier;
  newValue ← div p3 (10000 * 10000 * 10000);
  mret (if newValue <? initialValue data / 10
        then initialValue data / 10
        else newValue).

(** *** updateValue *)

Definition updateValue (tokenId newImpact newEngagement newQuality views actions : Z)
  (e : env) (s : state) : result state :=
  onlyRole s ORACLE_ROLE e;;
  require (_exists s tokenId) "Token does not exist";;
  let s1 := set_valueData tokenId
              (set_metrics newImpact newEngagement newQuality views actions
                           (valueDataOf s tokenId)) s in
  newValue ← _calculateValue tokenId e s1;
  mret (set_valueData tokenId
          (set_value newValue (block_timestamp e) (valueDataOf s1 tokenId)) s1).

(** *** Marketplace *)

Definition listNFT (tokenId price : Z) (e : env) (s : state) : result state :=
  owner ← ownerOf s tokenId;
  require (owner =? msg_sender e) "Not token owner";;
  require (0 <? price) "Price must be greater than 0";;
  require (negb (isListed (valueDataOf s tokenId))) "Already listed";;
  let s1 := set_valueData tokenId (set_listing true price (valueDataOf s tokenId)) s in
  mret (with_tokenListings <[tokenId := msg_sender e]> s1).

Definition unlistNFT (tokenId : Z) (e : env) (s : state) : result state :=
  owner ← ownerOf s tokenId;
  require (owner =? msg_sender e) "Not token owner";;
  require (isListed (valueDataOf s tokenId)) "Not listed";;
  let s1 := set_valueData tokenId (set_listing false 0 (valueDataOf s tokenId)) s in
  mret (with_tokenListings (delete tokenId) s1).

Definition buyNFT (tokenId : Z) (e : env) (s : state) : result state :=
  s0 ← receive_value e s;
  require (isListed (valueDataOf s0 tokenId)) "NFT not listed";;
  require (msg_value e =? listPrice (valueDataOf s0 tokenId))
          "Incorrect payment amount";;
  seller ← ownerOf s0 tokenId;
  let price := msg_value e in
  x ← mul price (marketplaceFee s0);
  fee ← div x 10000;
  sellerAmount ← sub price fee;
  let s1 := set_valueData tokenId
              (set_listing false 0 (valueDataOf s0 tokenId)) s0 in
  let s2 := with_tokenListings (delete tokenId) s1 in
  s3 ← _transfer seller (msg_sender e) tokenId s2;
  s4 ← send seller sellerAmount e s3;
  send (feeRecipient s4) fee e s4.

(** *** Views *)

Definition getValueData (tokenId : Z) (s : state) : result ValueData :=
  require (_exists s tokenId) "Token does not exist";;
  mret (valueDataOf s tokenId).

Definition getCurrentValue (tokenId : Z) (e : env) (s : state) : result Z :=
  require (_exists s tokenId) "Token does not exist";;
  _calculateValue tokenId e s.

Definition getCreatorTokens (a : address) (s : state) : list Z :=
  tokensOfCreator s a.

(** *** Administration *)

Definition updateMarketplaceFee (newFee : Z) (e : env) (s : state) : result state :=
  onlyRole s DEFAULT_ADMIN_ROLE e;;
  require (newFee <=? 1000) "Fee cannot exceed 10%";;
  mret (set_marketplaceFee newFee s).

Definition updateFeeRecipient (newRecipient : address) (e : env) (s : state)
  : result state :=
  onlyRole s DEFAULT_ADMIN_ROLE e;;
  require (negb (newRecipient =? 0)) "Invalid recipient";;
  mret (set_feeRecipient newRecipient s).

(** *** Inherited public entry points, as the token's owner calls them

    [burn] and [transferFrom] also admit an account the owner has approved;
    approvals are not part of the storage modelled here, so these two
    definitions cover the calls made by the owner. What a burn or a
    transfer does once admitted is [_burn] and [_transfer] above, whoever
    the caller is. *)

Definition burn (tokenId : Z) (e : env) (s : state) : result state :=
  owner ← ownerOf s tokenId;
  require (owner =? msg_sender e) "ERC721: caller is not token owner or approved";;
  _burn tokenId s.

Definition transferFrom (from to : address) (tokenId : Z) (e : env) (s : state)
  : result state :=
  owner ← ownerOf s tokenId;
  require (owner =? msg_sender e) "ERC721: caller is not token owner or approved";;
  _transfer from to tokenId s.

(** *** Transactions

    The external calls of the contract. Of the inherited entry points
    [burn] and [transferFrom] are modelled as the token's owner calls
    them; approvals and role administration are left out, they touch no
    value record, listing or balance. *)

Inductive call :=
| MintValueNFT (to : address) (cid tokenURI : string) (initial : Z)
| UpdateValue (tokenId newImpact newEngagement newQuality views actions : Z)
| ListNFT (tokenId price : Z)
| UnlistNFT (tokenId : Z)
| BuyNFT (tokenId : Z)
| UpdateMarketplaceFee (newFee : Z)
| UpdateFeeRecipient (newRecipient : address)
| BurnNFT (tokenId : Z)
| TransferFrom (from to : address) (tokenId : Z).

(** Only [buyNFT] is payable: the others reject a call that carries value. *)
Definition nonPayable (e : env) : result unit :=
  require (msg_value e =? 0) "non-payable function".

Definition step (c : call) (e : env) (s : state) : result state :=
  match c with
  | MintValueNFT to cid tokenURI initial =>
      nonPayable e;;
      r ← mintValueNFT to cid tokenURI initial e s;
      mret (fst r)
  | UpdateValue tokenId i g q v a =>
      nonPayable e;; updateValue tokenId i g q v a e s
  | ListNFT tokenId price => nonPayable e;; listNFT tokenId price e s
  | UnlistNFT tokenId => nonPayable e;; unlistNFT tokenId e s
  | BuyNFT tokenId => buyNFT tokenId e s
  | UpdateMarketplaceFee newFee => nonPayable e;; updateMarketplaceFee newFee e s
  | UpdateFeeRecipient a => nonPayable e;; updateFeeRecipient a e s
  | BurnNFT tokenId => nonPayable e;; burn tokenId e s
  | TransferFrom from to tokenId => nonPayable e;; transferFrom from to tokenId e s
  end.

Definition transact (c : call) (e : env) (s : state) : state :=
  match step c e s with
  | Ok s' => s'
  | Err _ => s
  end.

Definition well_typed (c : call) : bool :=
  match c with
  | MintValueNFT _ _ _ initial => is_uint256 initial
  | UpdateValue tokenId i g q v a =>
      is_uint256 tokenId && is_uint256 i && is_uint256 g && is_uint256 q
      && is_uint256 v && is_uint256 a
  | ListNFT tokenId price => is_uint256 tokenId && is_uint256 price
  | UnlistNFT tokenId | BuyNFT tokenId | BurnNFT tokenId
  | TransferFrom _ _ tokenId => is_uint256 tokenId
  | UpdateMarketplaceFee newFee => is_uint256 newFee
  | UpdateFeeRecipient _ => true
  end.

Definition valid_env (self : address) (t : Z) (e : env) : Prop :=
  this e = self /\ msg_sender e <> 0 /\
  0 <= t <= block_timestamp e /\ block_timestamp e <= MAX_UINT256 /\
  0 <= msg_value e <= MAX_UINT256.

Inductive reachable (self : address) : Z -> state -> Prop :=
| reachable_deploy admin minter oracle recipient chain_funds t :
    0 <= t <= MAX_UINT256 ->
    reachable self t (constructor admin minter oracle recipient chain_funds)
| reachable_step t s c e s' :
    reachable self t s ->
    well_typed c = true ->
    valid_env self t e ->
    step c e s = Ok s' ->
    reachable self (block_timestamp e) s'.

(** The value floor of a record. *)
Definition floor_ok (d : ValueData) : Prop :=
  initialValue d / 10 <= currentValue d.

(** What a sale of [price] at fee rate [feeBps] changes in the native
    balance of [a]: the buyer pays the price, the seller receives the price
    less the fee, the fee recipient receives the fee. *)
Definition fee_of (price feeBps : Z) : Z := price * feeBps / 10000.

Definition sale_delta (buyer seller recipient : address) (price feeBps : Z)
  (a : address) : Z :=
  (if decide (a = seller) then price - fee_of price feeBps else 0)
  + (if decide (a = recipient) then fee_of price feeBps else 0)
  - (if decide (a = buyer) then price else 0).

(** Whole days between the last value update and [now]. *)
Definition decayPeriodsOf (d : ValueData) (now : Z) : Z :=
  (now - lastValueUpdate d) / days 1.

End NFT.

(** ** ValueNFT: the paginated view and notions used to state further
    properties *)

Module NFTViews.
Import NFT.

(** *** getListedNFTs

    [new uint256[](n)] is a zeroed array of [n] words in memory. Solidity
    panics (0x41) for a length above [2^64 - 1]; below that the memory has
    to be paid for, and a call whose gas does not cover an array of that
    length fails. The gas of the loops is not modelled. *)
Definition new_array (n : Z) (e : env) : result (list Z) :=
  if 2 ^ 64 - 1 <? n then Err Panic
  else if memory_limit e <? n then Err OutOfGas
  else mret (replicate (Z.to_nat n) 0).

(** The two scratch arrays of length [limit] are lists written by index;
    [count] and [skipped] are the loop's counters. The loop runs [i] over
    [0 .. totalSupply - 1] and stops early once [count] reaches [limit], so
    every write is at an index below the arrays' length. *)
Record scan := mkScan {
  count : Z;
  skipped : Z;
  tempTokenIds : list Z;
  tempPrices : list Z
}.

Fixpoint scanListed (s : state) (offset limit : Z) (indices : list Z) (st : scan)
  : scan :=
  match indices with
  | [] => st
  | i :: rest =>
      if count st <? limit then
        if _exists s i && isListed (valueDataOf s i) then
          if offset <=? skipped st then
            scanListed s offset limit rest
              (mkScan (count st + 1) (skipped st)
                 (<[Z.to_nat (count st) := i]> (tempTokenIds st))
                 (<[Z.to_nat (count st) := listPrice (valueDataOf s i)]>
                    (tempPrices st)))
          else
            scanListed s offset limit rest
              (mkScan (count st) (skipped st + 1) (tempTokenIds st) (tempPrices st))
        else scanListed s offset limit rest st
      else st
  end.

(** [for (i = 0; i < count; i++) dst[i] = src[i]], over the indices
    [0 .. count - 1]; [count] is the length of [dst] and at most that of
    [src], so every access is in range. *)
Fixpoint copy (indices : list nat) (src dst : list Z) : list Z :=
  match indices with
  | [] => dst
  | i :: rest => copy rest src (<[i := default 0 (src !! i)]> dst)
  end.

Definition getListedNFTs (offset limit : Z) (e : env) (s : state)
  : result (list Z * list Z) :=
  let totalSupply := _tokenIdCounter s in
  freshTokenIds ← new_array limit e;
  freshPrices ← new_array limit e;
  let final :=
    scanListed s offset limit (seqZ 0 totalSupply)
               (mkScan 0 0 freshTokenIds freshPrices) in
  tokenIds ← new_array (count final) e;
  prices ← new_array (count final) e;
  let indices := seq 0 (Z.to_nat (count final)) in
  mret (copy indices (tempTokenIds final) tokenIds,
        copy indices (tempPrices final) prices).

(** The listed, existing tokens in ascending order of id. *)
Definition listedIds (s : state) : list Z :=
  filter (fun i => _exists s i && isListed (valueDataOf s i) = true)
         (seqZ 0 (_tokenIdCounter s)).

(** *** Notions for the marketplace and the registry *)

(** The role an entry point demands of its caller, if any. *)
Definition role_of (c : call) : option Role :=
  match c with
  | MintValueNFT _ _ _ _ => Some MINTER_ROLE
  | UpdateValue _ _ _ _ _ _ => Some ORACLE_ROLE
  | UpdateMarketplaceFee _ | UpdateFeeRecipient _ => Some DEFAULT_ADMIN_ROLE
  | ListNFT _ _ | UnlistNFT _ | BuyNFT _ | BurnNFT _ | TransferFrom _ _ _ => None
  end.

(** The listing flag, the list price, the lister index and the existence of
    the token agree. *)
Definition listing_consistent (s : state) : Prop :=
  forall tokenId,
    if isListed (valueDataOf s tokenId)
    then 0 < listPrice (valueDataOf s tokenId) /\ listerOf s tokenId <> 0 /\
         _ownerOf s tokenId <> 0
    else listPrice (valueDataOf s tokenId) = 0 /\ listerOf s tokenId = 0.

(** What the listing flag stands for: a record flagged as listed has a
    positive price, a lister in the index and a token that exists; a record
    not flagged has price 0. *)
Definition listing_sound (s : state) : Prop :=
  forall tokenId,
    if isListed (valueDataOf s tokenId)
    then 0 < listPrice (valueDataOf s tokenId) /\ listerOf s tokenId <> 0 /\
         _ownerOf s tokenId <> 0
    else listPrice (valueDataOf s tokenId) = 0.

End NFTViews.

(** ** Concrete runs

  Small deployments on which the theorems below are instantiated. *)

Module TokenRun.
Import Token.

Definition admin : address := 1.
Definition minter : address := 2.
Definition manager : address := 3.
Definition bob : address := 4.
Definition self : address := 99.

Definition at_time (sender : address) (t : Z) : env := mkEnv sender t self 0.

(** The storage right after deployment at time 1000. *)
Definition deployed : state :=
  mkState (<[admin := INITIAL_SUPPLY]> ∅) INITIAL_SUPPLY false
          (granted admin minter manager) ∅ ∅ 0 100 0 1000.

(** The admin stakes 500 units for 30 days at time 1000. *)
Definition staked : state :=
  transact (StakeTokens 500 (days 30)) (at_time admin 1000) deployed.

(** ... and the token is then paused. *)
Definition staked_paused : state :=
  transact Pause (at_time admin 2000) staked.

Definition a_year_later : env := at_time admin (1000 + days 365).
Definition a_day_later : env := at_time admin (1000 + days 1).

End TokenRun.

Module NFTRun.
Import NFT.

Definition admin : address := 1.
Definition minter : address := 2.
Definition oracle : address := 3.
Definition treasury : address := 4.
Definition creator : address := 5.
Definition buyer : address := 6.
Definition self : address := 77.

(** A call by [sender] at time [t] that carries [value]; every account
    takes payments and tokens, and the gas pays for arrays of up to 1000
    words. *)
Definition paying (sender : address) (t value : Z) : env :=
  mkEnv (Sol.mkEnv sender t self value) (fun _ => true) (fun _ => Accepts) 1000.

Definition at_time (sender : address) (t : Z) : env := paying sender t 0.

(** A fresh deployment; the buyer owns 100 ether. *)
Definition deployed : state :=
  constructor admin minter oracle treasury (<[buyer := 100 * ether]> ∅).

(** The minter tokenizes "video-1" for the creator at 1 ether: token 0. *)
Definition minted : state :=
  transact (MintValueNFT creator "video-1" "ipfs://1" ether)
           (at_time minter 1000) deployed.

(** The same content identifier is submitted again. *)
Definition minted_again : state :=
  transact (MintValueNFT creator "video-1" "ipfs://2" ether)
           (at_time minter 1000) minted.

(** The creator lists token 0 at 2 ether; the buyer pays 2 ether. *)
Definition listed : state :=
  transact (ListNFT 0 (2 * ether)) (at_time creator 2000) minted.

Definition buying : env := paying buyer 3000 (2 * ether).

(** The same purchase when the treasury is a contract that takes no
    ether. *)
Definition buying_refused : env :=
  mkEnv (Sol.mkEnv buyer 3000 self (2 * ether))
        (fun a => negb (a =? treasury)) (fun _ => Accepts) 1000.

Definition sold : state := transact (BuyNFT 0) buying listed.

Definition days_later (n : Z) : env := at_time creator (1000 + days n).

End NFTRun.

(** A run in which the reward pool is funded: the admin hands 1000 units to
    the rewards manager, who puts 100 into the pool; the admin then stakes
    500 units for 30 days. All at time 1000. *)
Module TokenFundedRun.
Import Token TokenRun.

Definition handed : state :=
  transact (Transfer manager 1000) (at_time admin 1000) deployed.

Definition funded : state :=
  transact (DistributeRewards 100) (at_time manager 1000) handed.

Definition funded_staked : state :=
  transact (StakeTokens 500 (days 30)) (at_time admin 1000) funded.

End TokenFundedRun.

(** Further runs of the ValueNFT deployment. *)
Module NFTMoreRun.
Import NFT NFTRun.

(** The creator takes token 0 off the market again. *)
Definition unlisted : state := transact (UnlistNFT 0) (at_time creator 2500) listed.

(** The creator burns the listed token 0. *)
Definition burned : state := transact (BurnNFT 0) (at_time creator 2500) listed.

(** The oracle reports metrics for token 0 on the day of the mint. *)
Definition updated : state :=
  transact (UpdateValue 0 9000 8000 10000 1200 40) (at_time oracle 2000) minted.

(** A second piece of content, token 1, listed at 3 ether. *)
Definition two_minted : state :=
  transact (MintValueNFT creator "video-2" "ipfs://2" ether) (at_time minter 2100) listed.

(** A mint by the minter to an account that is a contract without
    [onERC721Received]. *)
Definition minting_refused : env :=
  mkEnv (Sol.mkEnv minter 2100 self 0) (fun _ => true)
        (fun a => if a =? treasury then Refuses else Accepts) 1000.

Definition two_listed : state :=
  transact (ListNFT 1 (3 * ether)) (at_time creator 2200) two_minted.

End NFTMoreRun.
(** ** Reasoning about [result] *)

Section ResultFacts.

Context {A B : Type}.

Lemma bind_inv (f : A -> result B) (m : result A) (b : B) :
  (m ≫= f) = Ok b -> exists a, m = Ok a /\ f a = Ok b.
Proof. destruct m as [a|e]; simpl; [eauto | discriminate]. Qed.

Lemma bind_Ok (f : A -> result B) (m : result A) (a : A) :
  m = Ok a -> (m ≫= f) = f a.
Proof. intros ->. reflexivity. Qed.

Lemma bind_Err (f : A -> result B) (m : result A) (e : error) :
  m = Err e -> (m ≫= f) = Err e.
Proof. intros ->. reflexivity. Qed.

End ResultFacts.

Lemma require_inv cond reason u : require cond reason = Ok u -> cond = true.
Proof. destruct cond; [reflexivity | discriminate]. Qed.

Lemma require_true cond reason : cond = true -> require cond reason = Ok tt.
Proof. intros ->. reflexivity. Qed.

Lemma require_false cond reason :
cond = false -> require cond reason = Err (Revert reason).
Proof. intros ->. reflexivity. Qed.

Lemma add_inv a b c : add a b = Ok c -> c = a + b /\ a + b <= MAX_UINT256.
Proof. unfold add. destruct (Z.leb_spec (a + b) MAX_UINT256); naive_solver. Qed.

Lemma sub_inv a b c : sub a b = Ok c -> c = a - b /\ b <= a.
Proof. unfold sub. destruct (Z.leb_spec b a); naive_solver. Qed.

Lemma mul_inv a b c : mul a b = Ok c -> c = a * b /\ a * b <= MAX_UINT256.
Proof. unfold mul. destruct (Z.leb_spec (a * b) MAX_UINT256); naive_solver. Qed.

Lemma div_inv a b c : div a b = Ok c -> c = a / b /\ b <> 0.
Proof. unfold div. destruct (Z.eqb_spec b 0); naive_solver. Qed.

Lemma pow_inv a b c : pow a b = Ok c -> c = a ^ b /\ a ^ b <= MAX_UINT256.
Proof. unfold pow. destruct (Z.leb_spec (a ^ b) MAX_UINT256); naive_solver. Qed.

Lemma add_Ok a b : a + b <= MAX_UINT256 -> add a b = Ok (a + b).
Proof. intros H. unfold add. destruct (Z.leb_spec (a + b) MAX_UINT256); [done | lia]. Qed.

Lemma sub_Ok a b : b <= a -> sub a b = Ok (a - b).
Proof. intros H. unfold sub. destruct (Z.leb_spec b a); [done | lia]. Qed.

Lemma mul_Ok a b : a * b <= MAX_UINT256 -> mul a b = Ok (a * b).
Proof. intros H. unfold mul. destruct (Z.leb_spec (a * b) MAX_UINT256); [done | lia]. Qed.

Lemma pow_Ok a b : a ^ b <= MAX_UINT256 -> pow a b = Ok (a ^ b).
Proof. intros H. unfold pow. destruct (Z.leb_spec (a ^ b) MAX_UINT256); [done | lia]. Qed.

Lemma pow_Panic a b : MAX_UINT256 < a ^ b -> pow a b = Err Panic.
Proof. intros H. unfold pow. destruct (Z.leb_spec (a ^ b) MAX_UINT256); [lia | done]. Qed.

Lemma is_uint256_spec x : is_uint256 x = true <-> 0 <= x <= MAX_UINT256.
Proof. unfold is_uint256. rewrite andb_true_iff, !Z.leb_le. tauto. Qed.

(** [run] steps a computation past the statements already evaluated. *)
Ltac run := cbn [mbind mret result_bind result_ret bind].

(** [unbind H] peels the first statement off a successful run [H]. *)
Tactic Notation "unbind" hyp(H) :=
let v := fresh "v" in
let E := fresh "E" in
apply bind_inv in H; destruct H as (v & E & H).

Tactic Notation "unbind" hyp(H) "as" ident(v) ident(E) :=
apply bind_inv in H; destruct H as (v & E & H).

(** [arith_inv] turns successful checked operations and [require]s in the
  context into linear facts. *)
Ltac arith_inv :=
repeat match goal with
| H : require _ _ = Ok _ |- _ => apply require_inv in H
| H : add _ _ = Ok _ |- _ => apply add_inv in H; destruct H as [-> H]
| H : sub _ _ = Ok _ |- _ => apply sub_inv in H; destruct H as [-> H]
| H : mul _ _ = Ok _ |- _ => apply mul_inv in H; destruct H as [-> H]
| H : div _ _ = Ok _ |- _ => apply div_inv in H; destruct H as [-> H]
| H : pow _ _ = Ok _ |- _ => apply pow_inv in H; destruct H as [-> H]
| H : (_ <=? _) = true |- _ => apply Z.leb_le in H
| H : (_ <? _) = true |- _ => apply Z.ltb_lt in H
| H : (_ <=? _) = false |- _ => apply Z.leb_gt in H
| H : (_ <? _) = false |- _ => apply Z.ltb_ge in H
| H : (_ =? _) = true |- _ => apply Z.eqb_eq in H
| H : (_ =? _) = false |- _ => apply Z.eqb_neq in H
| H : negb _ = true |- _ => apply negb_true_iff in H
| H : is_uint256 _ = true |- _ => apply is_uint256_spec in H
| H : _ && _ = true |- _ => apply andb_true_iff in H; destruct H
| H : mret _ = Ok _ |- _ => injection H as H
| H : Ok _ = Ok _ |- _ => injection H as H
end.

(** ** BuildingBrillianceToken: the staking ledger *)

Module TokenFacts.
Import Token.

Lemma stakeOf_set_stake a b st s :
  stakeOf (set_stake a st s) b = if decide (a = b) then st else stakeOf s b.
Proof.
  unfold stakeOf; simpl. rewrite lookup_insert. by case_decide.
Qed.

(** Reads of a written storage, down to lookups in the maps. *)
Ltac storage := unfold stakeOf, rewardOf, balanceOf in *; simpl in *.

(** *** The sum of the staked amounts *)

Lemma sumStaked_comm (j1 j2 : address) (z1 z2 : Stake) (y : Z) :
  amount z1 + (amount z2 + y) = amount z2 + (amount z1 + y).
Proof. lia. Qed.

Lemma sumStaked_empty : sumStaked ∅ = 0.
Proof. unfold sumStaked. by rewrite map_fold_empty. Qed.

Lemma sumStaked_insert_fresh (m : gmap address Stake) a st :
  m !! a = None -> sumStaked (<[a := st]> m) = amount st + sumStaked m.
Proof.
  intros Hfresh. unfold sumStaked.
  rewrite map_fold_insert_L; [done | | done].
  intros. apply sumStaked_comm; assumption.
Qed.

Lemma sumStaked_delete (m : gmap address Stake) a st :
  m !! a = Some st -> sumStaked m = amount st + sumStaked (delete a m).
Proof.
  intros Hin. unfold sumStaked.
  rewrite (map_fold_delete_L _ _ a st m); [done | | done].
  intros. apply sumStaked_comm; assumption.
Qed.

(** Writing one account's stake changes the sum by the change of its
    amount. *)
Lemma sumStaked_insert (m : gmap address Stake) a st :
  sumStaked (<[a := st]> m)
  = sumStaked m - amount (default noStake (m !! a)) + amount st.
Proof.
  destruct (m !! a) as [old|] eqn:Hm; simpl.
  - rewrite <- insert_delete_eq.
    rewrite sumStaked_insert_fresh by apply lookup_delete_eq.
    rewrite (sumStaked_delete m a old Hm). lia.
  - rewrite sumStaked_insert_fresh by done. lia.
Qed.

(** *** Frames of the ERC20 internals *)

Lemma same_staking_invariant s s' :
  same_staking s s' -> invariant s -> invariant s'.
Proof.
  intros (Hst & Hrw & Htot & Hrate & Hpool) [].
  split; unfold stakeOf, rewardOf in *; rewrite ?Hst, ?Hrw, ?Htot, ?Hrate, ?Hpool;
    assumption.
Qed.

Lemma _transfer_frame from to amt s s' :
  _transfer from to amt s = Ok s' -> same_staking s s'.
Proof.
  unfold _transfer, _beforeTokenTransfer. intros H.
  do 4 unbind H. injection H as <-. by repeat split.
Qed.

Lemma _mint_frame account amt s s' :
  _mint account amt s = Ok s' -> same_staking s s'.
Proof.
  unfold _mint, _beforeTokenTransfer. intros H.
  do 3 unbind H. injection H as <-. by repeat split.
Qed.

Lemma _burn_frame account amt s s' :
  _burn account amt s = Ok s' -> same_staking s s'.
Proof.
  unfold _burn, _beforeTokenTransfer. intros H.
  do 3 unbind H. injection H as <-. by repeat split.
Qed.

(** A transfer while the token is paused reverts. *)
Lemma _transfer_paused from to amt s :
  paused s = true -> from <> 0 -> to <> 0 ->
  _transfer from to amt s
  = Err (Revert "ERC20Pausable: token transfer while paused").
Proof.
  intros Hp Hf Ht. unfold _transfer, _beforeTokenTransfer.
  rewrite (require_true (negb (from =? 0))) by (apply negb_true_iff, Z.eqb_neq, Hf).
  rewrite (require_true (negb (to =? 0))) by (apply negb_true_iff, Z.eqb_neq, Ht).
  rewrite Hp. reflexivity.
Qed.

Lemma _transfer_unpaused from to amt s s' :
  _transfer from to amt s = Ok s' -> paused s = false.
Proof.
  unfold _transfer, _beforeTokenTransfer. intros H.
  do 3 unbind H. arith_inv. assumption.
Qed.

(** *** Reward accrual *)

Lemma accrued_inv st rate now r :
  accrued st rate now = Ok r ->
  r = amount st * rate * (now - timestamp st) / (SECONDS_PER_YEAR * 10000)
  /\ timestamp st <= now.
Proof.
  unfold accrued. intros H. do 4 unbind H. arith_inv. auto.
Qed.

Lemma accrued_Ok st rate now :
  timestamp st <= now ->
  amount st * rate <= MAX_UINT256 ->
  amount st * rate * (now - timestamp st) <= MAX_UINT256 ->
  accrued st rate now
  = Ok (amount st * rate * (now - timestamp st) / (SECONDS_PER_YEAR * 10000)).
Proof.
  intros Ht H1 H2. unfold accrued.
  rewrite (sub_Ok now) by done. simpl.
  rewrite mul_Ok by done. simpl.
  rewrite mul_Ok by done. reflexivity.
Qed.

Lemma accrued_nonneg st rate now r :
  0 <= amount st -> 0 <= rate -> accrued st rate now = Ok r -> 0 <= r.
Proof.
  intros Ha Hr H. apply accrued_inv in H as [-> Ht].
  apply Z.div_pos; [| done].
  apply Z.mul_nonneg_nonneg; [apply Z.mul_nonneg_nonneg |]; lia.
Qed.

(** What a successful settlement does to storage. *)
Lemma _updateRewards_inv user e s s' :
  _updateRewards user e s = Ok s' ->
  (amount (stakeOf s user) <= 0 /\ s' = s) \/
  (0 < amount (stakeOf s user) /\
   exists reward,
     accrued (stakeOf s user) (rewardRate s) (block_timestamp e) = Ok reward /\
     rewardOf s user + reward <= MAX_UINT256 /\
     s' = set_stake user
            (mkStake (amount (stakeOf s user)) (block_timestamp e)
                     (rewardDebt (stakeOf s user)) (lockPeriod (stakeOf s user)))
            (set_reward user (rewardOf s user + reward) s)).
Proof.
  unfold _updateRewards. intros H.
  destruct (Z.ltb_spec 0 (amount (stakeOf s user))) as [Hpos|Hzero].
  - right. split; [done|]. unbind H. unbind H. arith_inv. eauto.
  - left. injection H as <-. auto.
Qed.

Lemma _updateRewards_invariant user e s s' :
  invariant s -> _updateRewards user e s = Ok s' -> invariant s'.
Proof.
  intros Hinv H. apply _updateRewards_inv in H as [[_ ->]|(Hpos & r & Hr & _ & ->)];
    [done|].
  pose proof (accrued_nonneg _ _ _ _ (inv_amounts s Hinv user) (inv_rate s Hinv) Hr).
  destruct Hinv. split; simpl; try assumption.
  - rewrite sumStaked_insert. fold (stakeOf s user). simpl. lia.
  - intros a. rewrite stakeOf_set_stake.
    case_decide; simpl; [subst|]; apply inv_amounts0.
  - intros a. unfold rewardOf at 1. simpl. fold (rewardOf s user).
    rewrite lookup_insert. case_decide; simpl; [|apply inv_rewards0].
    specialize (inv_rewards0 user). lia.
Qed.

(** What a successful payout does to storage. *)
Lemma _claimRewards_inv e s s' :
  _claimRewards e s = Ok s' ->
  (rewardOf s (msg_sender e) <= 0 /\ s' = s) \/
  (0 < rewardOf s (msg_sender e) <= rewardPool s /\
   _transfer (this e) (msg_sender e) (rewardOf s (msg_sender e))
     (set_rewardPool (rewardPool s - rewardOf s (msg_sender e))
        (set_reward (msg_sender e) 0 s)) = Ok s').
Proof.
  unfold _claimRewards. intros H.
  destruct (Z.ltb_spec 0 (rewardOf s (msg_sender e))) as [Hpos|Hzero].
  - right. unbind H. unbind H. simpl in *. arith_inv. split; [lia | done].
  - left. injection H as <-. auto.
Qed.

Lemma _claimRewards_invariant e s s' :
  invariant s -> _claimRewards e s = Ok s' -> invariant s'.
Proof.
  intros Hinv H. apply _claimRewards_inv in H as [[_ ->]|(Hr & H)]; [done|].
  apply _transfer_frame in H. eapply same_staking_invariant; [exact H|].
  destruct Hinv. split; simpl; try assumption; [lia|].
  intros a. unfold rewardOf at 1. simpl. rewrite lookup_insert.
  case_decide; simpl; [lia | apply inv_rewards0].
Qed.

(** The payout never leaves the stake records changed. *)
Lemma _claimRewards_stakes e s s' :
  _claimRewards e s = Ok s' -> stakes s' = stakes s.
Proof.
  intros H. apply _claimRewards_inv in H as [[_ ->]|(_ & H)]; [done|].
  apply _transfer_frame in H as (-> & _). reflexivity.
Qed.

(** *** Preservation of the invariant by each entry point *)

Lemma stake_invariant amt lock e s s' :
  invariant s -> stake amt lock e s = Ok s' -> invariant s'.
Proof.
  intros Hinv H. unfold stake in H. do 4 unbind H.
  unbind H as s1 Hs1. unbind H as s2 Hs2.
  unbind H. unbind H. injection H as <-. arith_inv.
  apply (_updateRewards_invariant _ _ _ _ Hinv) in Hs1.
  apply _transfer_frame in Hs2.
  pose proof (same_staking_invariant _ _ Hs2 Hs1) as [].
  split; simpl; try assumption.
  - rewrite sumStaked_insert. fold (stakeOf s2 (msg_sender e)). simpl. lia.
  - lia.
  - intros a. storage. rewrite lookup_insert.
    case_decide; simpl; [|apply inv_amounts0].
    specialize (inv_amounts0 (msg_sender e)). lia.
Qed.

Lemma unstake_invariant amt e s s' :
  0 <= amt -> invariant s -> unstake amt e s = Ok s' -> invariant s'.
Proof.
  intros Hamt Hinv H. unfold unstake in H. do 3 unbind H.
  unbind H as s1 Hs1. unbind H as s2 Hs2.
  unbind H. unbind H. arith_inv.
  apply (_updateRewards_invariant _ _ _ _ Hinv) in Hs1.
  apply (_claimRewards_invariant _ _ _ Hs1) in Hs2.
  apply _transfer_frame in H. eapply same_staking_invariant; [exact H|].
  destruct Hs2. simpl in *. split; simpl; try assumption.
  - rewrite sumStaked_insert. fold (stakeOf s2 (msg_sender e)). simpl. lia.
  - lia.
  - intros a. storage. rewrite lookup_insert.
    case_decide; simpl; [lia | apply inv_amounts0].
Qed.

Lemma claimRewards_invariant e s s' :
  invariant s -> claimRewards e s = Ok s' -> invariant s'.
Proof.
  intros Hinv H. unfold claimRewards in H. unbind H.
  eauto using _updateRewards_invariant, _claimRewards_invariant.
Qed.

Lemma distributeRewards_invariant amt e s s' :
  0 <= amt -> invariant s -> distributeRewards amt e s = Ok s' -> invariant s'.
Proof.
  intros Hamt Hinv H. unfold distributeRewards in H. do 2 unbind H.
  unbind H as s1 Hs1. unbind H.
  injection H as <-. arith_inv. apply _transfer_frame in Hs1.
  pose proof (same_staking_invariant _ _ Hs1 Hinv) as [].
  split; simpl; try assumption. lia.
Qed.

Lemma constructor_invariant admin minter rewardsManager e s :
  constructor admin minter rewardsManager e = Ok s -> invariant s.
Proof.
  unfold constructor. intros H. unbind H as s1 Hs1. injection H as <-.
  apply _mint_frame in Hs1 as (Hst & Hrw & Htot & Hrate & Hpool). simpl in *.
  split; unfold stakeOf, rewardOf; simpl;
    rewrite ?Hst, ?Hrw, ?Htot, ?Hrate, ?Hpool, ?lookup_empty; simpl;
    first [apply Z.le_refl | lia | by rewrite sumStaked_empty | done].
Qed.

Lemma step_invariant c e s s' :
  well_typed c = true -> invariant s -> step c e s = Ok s' -> invariant s'.
Proof.
  intros Hwt Hinv H. destruct c; simpl in H, Hwt; arith_inv.
  - unfold mint in H. do 3 unbind H.
    eauto using same_staking_invariant, _mint_frame.
  - unfold pause in H. do 2 unbind H. injection H as <-. by destruct Hinv.
  - unfold unpause in H. do 2 unbind H. injection H as <-. by destruct Hinv.
  - eauto using stake_invariant.
  - eapply unstake_invariant; [| eassumption..]. lia.
  - eauto using claimRewards_invariant.
  - eapply distributeRewards_invariant; [| eassumption..]. lia.
  - unfold updateRewardRate in H. do 2 unbind H. injection H as <-.
    destruct Hinv. split; simpl; try assumption. lia.
  - unfold emergencyWithdraw, whenPaused in H. do 2 unbind H.
    destruct (0 <? balanceOf s (this e)).
    + eauto using same_staking_invariant, _transfer_frame.
    + by injection H as <-.
  - eauto using same_staking_invariant, _transfer_frame.
  - eauto using same_staking_invariant, _burn_frame.
Qed.

Lemma reachable_invariant self t s : reachable self t s -> invariant s.
Proof.
  induction 1; eauto using constructor_invariant, step_invariant.
Qed.

End TokenFacts.

(** ** BuildingBrillianceToken: the claims *)

Module TokenClaims.
Import Token TokenFacts TokenRun.

(** *** The concrete run is a run of the contract *)

Lemma deployed_constructed :
  constructor admin minter manager (at_time admin 1000) = Ok deployed.
Proof. vm_compute. reflexivity. Qed.

Lemma deployed_reachable : reachable self 1000 deployed.
Proof.
  apply (reachable_deploy self admin minter manager (at_time admin 1000)).
  - unfold valid_env; simpl. repeat split; vm_compute; congruence.
  - exact deployed_constructed.
Qed.

Lemma staked_step :
  step (StakeTokens 500 (days 30)) (at_time admin 1000) deployed = Ok staked.
Proof. vm_compute. reflexivity. Qed.

Lemma staked_reachable : reachable self 1000 staked.
Proof.
  apply (reachable_step self 1000 deployed (StakeTokens 500 (days 30))
           (at_time admin 1000) staked deployed_reachable).
  - reflexivity.
  - unfold valid_env; simpl. repeat split; vm_compute; congruence.
  - exact staked_step.
Qed.

Lemma staked_paused_step :
  step Pause (at_time admin 2000) staked = Ok staked_paused.
Proof. vm_compute. reflexivity. Qed.

Lemma staked_paused_reachable : reachable self 2000 staked_paused.
Proof.
  apply (reachable_step self 1000 staked Pause (at_time admin 2000)
           staked_paused staked_reachable).
  - reflexivity.
  - unfold valid_env; simpl. repeat split; vm_compute; congruence.
  - exact staked_paused_step.
Qed.

(** *** C6 *)

(** C6. In every reachable state [totalStaked] equals the sum of
    [stake.amount] over all accounts, every successful call (stake and
    unstake among them) leads to a state where the equality holds again,
    and [totalStaked], the staked amounts and the reward balances are
    never negative. *)
Theorem totalStaked_is_sum_of_stakes self t s :
  reachable self t s ->
  totalStaked s = sumStaked (stakes s) /\
  0 <= totalStaked s /\
  (forall a, 0 <= amount (stakeOf s a)) /\
  (forall a, 0 <= rewardOf s a) /\
  (forall c e s', well_typed c = true -> step c e s = Ok s' ->
     totalStaked s' = sumStaked (stakes s') /\ 0 <= totalStaked s' /\
     forall a, 0 <= rewardOf s' a).
Proof.
  intros Hreach. pose proof (reachable_invariant _ _ _ Hreach) as Hinv.
  repeat split; try apply Hinv.
  - apply (step_invariant c e s s' H Hinv H0).
  - apply (step_invariant c e s s' H Hinv H0).
  - apply (step_invariant c e s s' H Hinv H0).
Qed.

Lemma totalStaked_is_sum_of_stakes_witness :
  totalStaked staked = 500 /\
  totalStaked staked = sumStaked (stakes staked) /\
  0 <= totalStaked staked.
Proof.
  split; [vm_compute; reflexivity|].
  pose proof (totalStaked_is_sum_of_stakes self 1000 staked staked_reachable)
    as (Hsum & Hpos & _).
  split; assumption.
Defined.

(** *** C4 *)

Lemma _updateRewards_pool user e s s' :
  _updateRewards user e s = Ok s' -> rewardPool s' = rewardPool s.
Proof.
  intros H. apply _updateRewards_inv in H as [[_ ->]|(_ & r & _ & _ & ->)];
    reflexivity.
Qed.

Lemma _claimRewards_insufficient e s :
  0 <= rewardPool s ->
  rewardPool s < rewardOf s (msg_sender e) ->
  _claimRewards e s = Err (Revert "Insufficient reward pool").
Proof.
  intros Hpool Hlt. unfold _claimRewards.
  destruct (Z.ltb_spec 0 (rewardOf s (msg_sender e))); [|lia].
  simpl. rewrite require_false; [reflexivity|]. apply Z.leb_gt. exact Hlt.
Qed.

Lemma valid_env_unlock self t e s :
  valid_env self t e ->
  unlockTime s (msg_sender e) <= block_timestamp e ->
  add (timestamp (stakeOf s (msg_sender e))) (lockPeriod (stakeOf s (msg_sender e)))
  = Ok (unlockTime s (msg_sender e)).
Proof.
  intros (_ & _ & _ & Hmax) Hunlock. apply add_Ok.
  unfold unlockTime in Hunlock. lia.
Qed.

(** C4. The reward pool is never negative in a reachable state. When the
    payout step is reached, by [claimRewards] or inside [unstake], with a
    pool smaller than the caller's reward balance, the call reverts with
    "Insufficient reward pool" and the transaction leaves the whole storage
    (balances, stakes, rewards, pool) as it was: nothing is paid. *)
Theorem payout_fails_atomically self t s e :
  reachable self t s ->
  valid_env self t e ->
  0 <= rewardPool s /\
  (forall s1,
     _updateRewards (msg_sender e) e s = Ok s1 ->
     rewardPool s1 < rewardOf s1 (msg_sender e) ->
     _claimRewards e s1 = Err (Revert "Insufficient reward pool") /\
     claimRewards e s = Err (Revert "Insufficient reward pool") /\
     transact ClaimRewards e s = s) /\
  (forall amt s1,
     amt <= amount (stakeOf s (msg_sender e)) ->
     unlockTime s (msg_sender e) <= block_timestamp e ->
     _updateRewards (msg_sender e) e s = Ok s1 ->
     rewardPool s1 < rewardOf s1 (msg_sender e) ->
     unstake amt e s = Err (Revert "Insufficient reward pool") /\
     transact (Unstake amt) e s = s).
Proof.
  intros Hreach Henv.
  pose proof (inv_pool s (reachable_invariant _ _ _ Hreach)) as Hpool.
  split; [exact Hpool|]. split.
  - intros s1 Hsettle Hlt.
    assert (Hpay : _claimRewards e s1 = Err (Revert "Insufficient reward pool")).
    { apply _claimRewards_insufficient; [|exact Hlt].
      rewrite (_updateRewards_pool _ _ _ _ Hsettle). exact Hpool. }
    assert (Hclaim : claimRewards e s = Err (Revert "Insufficient reward pool")).
    { unfold claimRewards. rewrite (bind_Ok _ _ _ Hsettle). exact Hpay. }
    repeat split; [exact Hpay | exact Hclaim |].
    unfold transact; simpl. rewrite Hclaim. reflexivity.
  - intros amt s1 Hamt Hunlock Hsettle Hlt.
    assert (Hun : unstake amt e s = Err (Revert "Insufficient reward pool")).
    { unfold unstake.
      rewrite require_true by (apply Z.leb_le; exact Hamt). simpl.
      rewrite (valid_env_unlock self t e s Henv Hunlock). simpl.
      rewrite require_true by (apply Z.leb_le; exact Hunlock). simpl.
      rewrite (bind_Ok _ _ _ Hsettle).
      rewrite _claimRewards_insufficient; [reflexivity | | exact Hlt].
      rewrite (_updateRewards_pool _ _ _ _ Hsettle). exact Hpool. }
    split; [exact Hun|]. unfold transact; simpl. rewrite Hun. reflexivity.
Qed.

(** After a year the stake of 500 has earned 5, the pool is empty. *)
Lemma payout_fails_atomically_witness :
  pendingRewards admin a_year_later staked = Ok 5 /\
  rewardPool staked = 0 /\
  claimRewards a_year_later staked = Err (Revert "Insufficient reward pool") /\
  transact ClaimRewards a_year_later staked = staked /\
  unstake 500 a_year_later staked = Err (Revert "Insufficient reward pool") /\
  transact (Unstake 500) a_year_later staked = staked.
Proof.
  split; [vm_compute; reflexivity|]. split; [vm_compute; reflexivity|].
  assert (Henv : valid_env self 1000 a_year_later).
  { unfold valid_env; simpl. repeat split; vm_compute; congruence. }
  destruct (payout_fails_atomically self 1000 staked a_year_later
              staked_reachable Henv) as (_ & Hclaim & Hunstake).
  edestruct Hclaim as (_ & Hrevert & Hsame).
  - vm_compute. reflexivity.
  - vm_compute. reflexivity.
  - split; [exact Hrevert|]. split; [exact Hsame|].
    eapply (Hunstake 500).
    + vm_compute. congruence.
    + vm_compute. congruence.
    + vm_compute. reflexivity.
    + vm_compute. reflexivity.
Defined.

(** *** C7 *)

Lemma accrual_zero s user now :
  amount (stakeOf s user) = 0 -> accrual s user now = 0.
Proof. unfold accrual. intros ->. reflexivity. Qed.

Lemma rewardOf_settled user st v s :
  rewardOf (set_stake user st (set_reward user v s)) user = v.
Proof. unfold rewardOf; simpl. by rewrite lookup_insert_eq. Qed.

Lemma stakeOf_settled user st v s :
  stakeOf (set_stake user st (set_reward user v s)) user = st.
Proof. unfold stakeOf; simpl. by rewrite lookup_insert_eq. Qed.

Lemma pendingRewards_inv user e s v :
  pendingRewards user e s = Ok v ->
  v = rewardOf s user + accrual s user (block_timestamp e).
Proof.
  unfold pendingRewards. intros H.
  destruct (Z.eqb_spec (amount (stakeOf s user)) 0) as [Hz|Hnz].
  - injection H as <-. rewrite accrual_zero by exact Hz. lia.
  - unbind H as r Hr. apply accrued_inv in Hr as [-> _]. arith_inv.
    reflexivity.
Qed.

(** The funded run keeps the staking invariant. *)
Lemma funded_staked_invariant : invariant TokenFundedRun.funded_staked.
Proof.
  apply (step_invariant (StakeTokens 500 (days 30)) (at_time admin 1000)
           TokenFundedRun.funded); [reflexivity | | vm_compute; reflexivity].
  apply (step_invariant (DistributeRewards 100) (at_time manager 1000)
           TokenFundedRun.handed); [reflexivity | | vm_compute; reflexivity].
  apply (step_invariant (Transfer manager 1000) (at_time admin 1000) deployed);
    [reflexivity | | vm_compute; reflexivity].
  exact (reachable_invariant _ _ _ deployed_reachable).
Qed.

(** What the payout leaves behind for a caller whose reward balance is not
    negative: the balance is paid out of the pool and reads zero. *)
Lemma _claimRewards_paid e s s' :
  0 <= rewardOf s (msg_sender e) ->
  _claimRewards e s = Ok s' ->
  rewardOf s' (msg_sender e) = 0 /\
  rewardPool s' = rewardPool s - rewardOf s (msg_sender e) /\
  stakes s' = stakes s.
Proof.
  intros Hpos H. apply _claimRewards_inv in H as [[Hz ->]|(_ & H)].
  - repeat split; lia.
  - apply _transfer_frame in H as (Hst & Hrw & _ & _ & Hpool). simpl in *.
    unfold rewardOf at 1. rewrite Hrw, lookup_insert_eq. auto.
Qed.

(** C7, as the code has it. Settlement of a positive stake adds exactly
    [amount * rewardRate * (now - checkpoint) / (SECONDS_PER_YEAR * 10000)]
    to the reward balance and sets the checkpoint to the block time;
    settlement of an empty stake changes nothing, the checkpoint included.
    It returns whenever the arithmetic stays within [uint256].
    [pendingRewards] is a function of the storage that returns no storage;
    its value is the reward balance plus the same accrual, which is the
    reward balance a settlement at that time would leave.
    Every mutating staking operation settles the caller first: a
    successful [stake], [unstake] or [claimRewards] has run this
    settlement on the storage it found; [stake] then leaves the settled
    reward balance in place and stamps the stake with the block time,
    [unstake] and [claimRewards] pay the settled balance out of the pool
    and leave the checkpoint where the settlement put it. *)
Theorem settlement_adds_accrual user e s :
  0 <= amount (stakeOf s user) ->
  (forall s', _updateRewards user e s = Ok s' ->
     rewardOf s' user = rewardOf s user + accrual s user (block_timestamp e) /\
     (0 < amount (stakeOf s user) ->
        timestamp (stakeOf s' user) = block_timestamp e) /\
     (amount (stakeOf s user) = 0 -> s' = s) /\
     amount (stakeOf s' user) = amount (stakeOf s user) /\
     lockPeriod (stakeOf s' user) = lockPeriod (stakeOf s user) /\
     pendingRewards user e s = Ok (rewardOf s' user)) /\
  (timestamp (stakeOf s user) <= block_timestamp e ->
   amount (stakeOf s user) * rewardRate s <= MAX_UINT256 ->
   amount (stakeOf s user) * rewardRate s
     * (block_timestamp e - timestamp (stakeOf s user)) <= MAX_UINT256 ->
   rewardOf s user + accrual s user (block_timestamp e) <= MAX_UINT256 ->
   (exists s', _updateRewards user e s = Ok s') /\
   pendingRewards user e s
   = Ok (rewardOf s user + accrual s user (block_timestamp e))) /\
  (forall v, pendingRewards user e s = Ok v ->
     v = rewardOf s user + accrual s user (block_timestamp e)) /\
  (user = msg_sender e -> invariant s ->
   forall c s', settles c = true -> step c e s = Ok s' ->
     exists s1,
       _updateRewards user e s = Ok s1 /\
       rewardOf s1 user = rewardOf s user + accrual s user (block_timestamp e) /\
       (0 < amount (stakeOf s user) ->
          timestamp (stakeOf s1 user) = block_timestamp e) /\
       (amount (stakeOf s user) = 0 -> s1 = s) /\
       match c with
       | StakeTokens _ _ =>
           rewardOf s' user = rewardOf s1 user /\
           rewardPool s' = rewardPool s /\
           timestamp (stakeOf s' user) = block_timestamp e
       | _ =>
           rewardOf s' user = 0 /\
           rewardPool s' = rewardPool s - rewardOf s1 user /\
           timestamp (stakeOf s' user) = timestamp (stakeOf s1 user)
       end).
Proof.
  intros Hamt.
  assert (Heffect : forall s', _updateRewards user e s = Ok s' ->
     rewardOf s' user = rewardOf s user + accrual s user (block_timestamp e) /\
     (0 < amount (stakeOf s user) ->
        timestamp (stakeOf s' user) = block_timestamp e) /\
     (amount (stakeOf s user) = 0 -> s' = s) /\
     amount (stakeOf s' user) = amount (stakeOf s user) /\
     lockPeriod (stakeOf s' user) = lockPeriod (stakeOf s user) /\
     pendingRewards user e s = Ok (rewardOf s' user)).
  { intros s' H. unfold pendingRewards.
    apply _updateRewards_inv in H as [[Hz ->]|(Hpos & r & Hr & Hmax & ->)].
    + assert (Hzero : amount (stakeOf s user) = 0) by lia.
      rewrite accrual_zero by exact Hzero. rewrite Hzero. simpl.
      repeat split; try reflexivity; lia.
    + destruct (Z.eqb_spec (amount (stakeOf s user)) 0) as [Hz|_]; [lia|].
      rewrite Hr. simpl. rewrite add_Ok by exact Hmax.
      apply accrued_inv in Hr as [-> _].
      rewrite rewardOf_settled, stakeOf_settled. simpl. unfold accrual.
      repeat split; try reflexivity; lia. }
  split; [exact Heffect|]. split; [|split; [apply pendingRewards_inv|]].
  - intros Hts H1 H2 H3. unfold _updateRewards, pendingRewards.
    destruct (Z.ltb_spec 0 (amount (stakeOf s user))) as [Hpos|Hz].
    + destruct (Z.eqb_spec (amount (stakeOf s user)) 0) as [Hz|_]; [lia|].
      rewrite accrued_Ok by assumption. simpl.
      fold (accrual s user (block_timestamp e)).
      rewrite add_Ok by exact H3. simpl. eauto.
    + assert (Hzero : amount (stakeOf s user) = 0) by lia.
      rewrite accrual_zero by exact Hzero. rewrite Hzero. simpl.
      split; [eauto|]. do 2 f_equal. lia.
  - intros -> Hinv c s' Hc Hstep.
    destruct c; try discriminate Hc; simpl in Hstep.
    + unfold stake in Hstep. do 4 unbind Hstep. unbind Hstep as s1 Hs1.
      unbind Hstep as s2 Hs2. do 2 unbind Hstep. injection Hstep as <-.
      destruct (Heffect s1 Hs1) as (Hreward & Hstamp & Hsame & _).
      apply _transfer_frame in Hs2 as (_ & Hrw & _ & _ & Hpool).
      exists s1. repeat split; try assumption.
      * unfold rewardOf; simpl. by rewrite Hrw.
      * simpl. rewrite Hpool. exact (_updateRewards_pool _ _ _ _ Hs1).
      * unfold stakeOf; simpl. by rewrite lookup_insert_eq.
    + unfold unstake in Hstep. do 3 unbind Hstep. unbind Hstep as s1 Hs1.
      unbind Hstep as s2 Hs2. do 2 unbind Hstep.
      destruct (Heffect s1 Hs1) as (Hreward & Hstamp & Hsame & _).
      pose proof (inv_rewards s1 (_updateRewards_invariant _ _ _ _ Hinv Hs1)
                    (msg_sender e)) as Hpos.
      apply (_claimRewards_paid _ _ _ Hpos) in Hs2 as (Hzero & Hpaid & Hst).
      apply _transfer_frame in Hstep as (Hst' & Hrw' & _ & _ & Hpool').
      simpl in *. exists s1. repeat split; try assumption.
      * unfold rewardOf. rewrite Hrw'. exact Hzero.
      * rewrite Hpool', Hpaid, (_updateRewards_pool _ _ _ _ Hs1). reflexivity.
      * unfold stakeOf at 1. rewrite Hst', lookup_insert_eq. simpl.
        unfold stakeOf. by rewrite Hst.
    + unfold claimRewards in Hstep. unbind Hstep as s1 Hs1.
      destruct (Heffect s1 Hs1) as (Hreward & Hstamp & Hsame & _).
      pose proof (inv_rewards s1 (_updateRewards_invariant _ _ _ _ Hinv Hs1)
                    (msg_sender e)) as Hpos.
      apply (_claimRewards_paid _ _ _ Hpos) in Hstep as (Hzero & Hpaid & Hst).
      exists s1. repeat split; try assumption.
      * rewrite Hpaid, (_updateRewards_pool _ _ _ _ Hs1). reflexivity.
      * unfold stakeOf. by rewrite Hst.
Qed.

(** The scenario of the specification: 500 staked at 100 basis points and
    held for 365 days earn 5. With 100 in the pool, a [claimRewards] at
    that time settles the 5 and pays them: the pool holds 95 afterwards. *)
Lemma settlement_adds_accrual_witness :
  amount (stakeOf staked admin) = 500 /\ rewardRate staked = 100 /\
  accrual staked admin (block_timestamp a_year_later) = 5 /\
  pendingRewards admin a_year_later staked = Ok 5 /\
  (exists s', _updateRewards admin a_year_later staked = Ok s' /\
              rewardOf s' admin = 5 /\
              timestamp (stakeOf s' admin) = block_timestamp a_year_later) /\
  (exists s1 s',
     step ClaimRewards a_year_later TokenFundedRun.funded_staked = Ok s' /\
     _updateRewards admin a_year_later TokenFundedRun.funded_staked = Ok s1 /\
     rewardOf s1 admin = 5 /\ rewardOf s' admin = 0 /\ rewardPool s' = 95).
Proof.
  assert (Hamt : 0 <= amount (stakeOf staked admin)) by (vm_compute; congruence).
  destruct (settlement_adds_accrual admin a_year_later staked Hamt)
    as (Heffect & Hreturns & _).
  destruct Hreturns as ((s' & Hs') & Hpending);
    try (vm_compute; congruence).
  destruct (Heffect s' Hs') as (Hreward & Hstamp & _).
  split; [vm_compute; reflexivity|]. split; [vm_compute; reflexivity|].
  split; [vm_compute; reflexivity|]. split; [vm_compute; reflexivity|]. split.
  - exists s'. split; [exact Hs'|]. split.
    + rewrite Hreward. vm_compute. reflexivity.
    + apply Hstamp. vm_compute. reflexivity.
  - assert (Hamt' : 0 <= amount (stakeOf TokenFundedRun.funded_staked admin))
      by (vm_compute; congruence).
    destruct (settlement_adds_accrual admin a_year_later
                TokenFundedRun.funded_staked Hamt') as (_ & _ & _ & Hops).
    destruct (step ClaimRewards a_year_later TokenFundedRun.funded_staked)
      as [s2|err] eqn:Hclaim; [|vm_compute in Hclaim; discriminate].
    destruct (Hops eq_refl funded_staked_invariant ClaimRewards s2 eq_refl Hclaim)
      as (s1 & Hs1 & Hr1 & _ & _ & Hzero & Hpool & _).
    exists s1, s2. split; [reflexivity|]. split; [exact Hs1|].
    assert (H5 : rewardOf s1 admin = 5) by (rewrite Hr1; vm_compute; reflexivity).
    split; [exact H5|]. split; [exact Hzero|].
    rewrite Hpool, H5. vm_compute. reflexivity.
Defined.

(** An account without a stake: settlement at time 2000 leaves its
    checkpoint at 0. *)
Lemma settlement_sets_checkpoint_counterexample :
  amount (stakeOf deployed bob) = 0 /\
  _updateRewards bob (at_time bob 2000) deployed = Ok deployed /\
  claimRewards (at_time bob 2000) deployed = Ok deployed /\
  timestamp (stakeOf deployed bob) <> block_timestamp (at_time bob 2000).
Proof. vm_compute. repeat split; congruence. Qed.

(** *** C3 *)

Lemma step_stakes_frame c e s s' :
  settles c = false -> step c e s = Ok s' -> stakes s' = stakes s.
Proof.
  intros Hc H. destruct c; try discriminate Hc; simpl in H.
  - unfold mint in H. do 3 unbind H. by apply _mint_frame in H as (-> & _).
  - unfold pause in H. do 2 unbind H. by injection H as <-.
  - unfold unpause in H. do 2 unbind H. by injection H as <-.
  - unfold distributeRewards in H. do 2 unbind H. unbind H as s1 Hs1. unbind H.
    injection H as <-. simpl. by apply _transfer_frame in Hs1 as (-> & _).
  - unfold updateRewardRate in H. do 2 unbind H. by injection H as <-.
  - unfold emergencyWithdraw in H. do 2 unbind H.
    destruct (0 <? balanceOf s (this e)).
    + by apply _transfer_frame in H as (-> & _).
    + by injection H as <-.
  - by apply _transfer_frame in H as (-> & _).
  - by apply _burn_frame in H as (-> & _).
Qed.

Lemma _updateRewards_other user e s s' a :
  _updateRewards user e s = Ok s' -> a <> user -> stakeOf s' a = stakeOf s a.
Proof.
  intros H Ha. apply _updateRewards_inv in H as [[_ ->]|(_ & r & _ & _ & ->)];
    [reflexivity|].
  unfold stakeOf; simpl. by rewrite lookup_insert_ne.
Qed.

(** The caller's stake record after a successful settlement. *)
Lemma _updateRewards_unlock user e s s' :
  _updateRewards user e s = Ok s' ->
  unlockTime s' user =
    if 0 <? amount (stakeOf s user)
    then block_timestamp e + lockPeriod (stakeOf s user)
    else unlockTime s user.
Proof.
  intros H. apply _updateRewards_inv in H as [[Hz ->]|(Hpos & r & _ & _ & ->)].
  - destruct (Z.ltb_spec 0 (amount (stakeOf s user))); [lia | reflexivity].
  - destruct (Z.ltb_spec 0 (amount (stakeOf s user))); [|lia].
    unfold unlockTime. rewrite stakeOf_settled. reflexivity.
Qed.

Lemma stakeOf_frame s s' a : stakes s' = stakes s -> stakeOf s' a = stakeOf s a.
Proof. unfold stakeOf. by intros ->. Qed.

Lemma stakeOf_written a st t s :
  stakeOf (set_totalStaked t (set_stake a st s)) a = st.
Proof. unfold stakeOf; simpl. by rewrite lookup_insert_eq. Qed.

Lemma step_settles_other c e s s' a :
  step c e s = Ok s' -> a <> msg_sender e -> stakeOf s' a = stakeOf s a.
Proof.
  intros H Ha. destruct (settles c) eqn:Hc.
  - destruct c; try discriminate Hc; simpl in H.
    + unfold stake in H. do 4 unbind H. unbind H as s1 Hs1. unbind H as s2 Hs2.
      do 2 unbind H. injection H as <-.
      unfold stakeOf at 1; simpl. rewrite lookup_insert_ne by congruence.
      apply _transfer_frame in Hs2 as (-> & _).
      apply (_updateRewards_other _ _ _ _ a Hs1 Ha).
    + unfold unstake in H. do 3 unbind H. unbind H as s1 Hs1. unbind H as s2 Hs2.
      do 2 unbind H. apply _transfer_frame in H as (Hst & _).
      rewrite (stakeOf_frame _ _ a Hst).
      unfold stakeOf at 1; simpl. rewrite lookup_insert_ne by congruence.
      rewrite (_claimRewards_stakes _ _ _ Hs2).
      apply (_updateRewards_other _ _ _ _ a Hs1 Ha).
    + unfold claimRewards in H. unbind H as s1 Hs1.
      rewrite (stakeOf_frame _ _ a (_claimRewards_stakes _ _ _ H)).
      apply (_updateRewards_other _ _ _ _ a Hs1 Ha).
  - apply stakeOf_frame. eapply step_stakes_frame; eassumption.
Qed.

(** C3, on the code. [getStakeInfo] reports, and [unstake] enforces, the
    stored timestamp plus the stored lock period, and a successful [stake]
    sets that unlock time to the block time plus the new lock period, as
    the claim says. But the contract keeps one timestamp for the start of
    the lock and for the reward checkpoint: [_updateRewards], which calls
    the elapsed time [timeStaked], overwrites it with the block time. So a
    successful [claimRewards] or [unstake] of an account with a positive
    stake restarts the lock: the unlock time becomes the block time plus
    the stored lock period. Calls that do not settle, and calls by other
    accounts, leave an account's unlock time as it was. *)
Theorem unlock_time_follows_checkpoint e s :
  (forall user i, getStakeInfo user e s = Ok i ->
     info_unlockTime i = unlockTime s user /\
     info_canUnstake i = (unlockTime s user <=? block_timestamp e)) /\
  (forall amt,
     amt <= amount (stakeOf s (msg_sender e)) ->
     block_timestamp e < unlockTime s (msg_sender e) <= MAX_UINT256 ->
     unstake amt e s = Err (Revert "Lock period not expired")) /\
  (forall amt s', unstake amt e s = Ok s' ->
     unlockTime s (msg_sender e) <= block_timestamp e) /\
  (forall amt lock s', stake amt lock e s = Ok s' ->
     unlockTime s' (msg_sender e) = block_timestamp e + lock) /\
  (forall c s',
     c = ClaimRewards \/ (exists amt, c = Unstake amt) ->
     step c e s = Ok s' ->
     unlockTime s' (msg_sender e) =
       if 0 <? amount (stakeOf s (msg_sender e))
       then block_timestamp e + lockPeriod (stakeOf s (msg_sender e))
       else unlockTime s (msg_sender e)) /\
  (forall c s' a,
     step c e s = Ok s' ->
     settles c = false \/ a <> msg_sender e ->
     unlockTime s' a = unlockTime s a).
Proof.
  repeat apply conj.
  - intros user i H. unfold getStakeInfo in H. unbind H as u Hu.
    injection H as <-. arith_inv. simpl. done.
  - intros amt Hamt [Hlocked Hmax]. unfold unstake.
    rewrite require_true by (apply Z.leb_le; exact Hamt). simpl.
    rewrite add_Ok by exact Hmax. simpl.
    rewrite require_false; [reflexivity|]. apply Z.leb_gt. exact Hlocked.
  - intros amt s' H. unfold unstake in H. do 3 unbind H. arith_inv. exact E1.
  - intros amt lock s' H. unfold stake in H. do 6 unbind H. do 2 unbind H.
    injection H as <-. unfold unlockTime. rewrite stakeOf_written.
    reflexivity.
  - intros c s' [->|[amt ->]] H; simpl in H.
    + unfold claimRewards in H. unbind H as s1 Hs1.
      rewrite <- (_updateRewards_unlock _ _ _ _ Hs1). unfold unlockTime.
      by rewrite (stakeOf_frame _ _ _ (_claimRewards_stakes _ _ _ H)).
    + unfold unstake in H. do 3 unbind H. unbind H as s1 Hs1. unbind H as s2 Hs2.
      do 2 unbind H. apply _transfer_frame in H as (Hst & _).
      rewrite <- (_updateRewards_unlock _ _ _ _ Hs1). unfold unlockTime.
      rewrite (stakeOf_frame _ _ _ Hst), stakeOf_written. simpl.
      by rewrite (stakeOf_frame _ _ _ (_claimRewards_stakes _ _ _ Hs2)).
  - intros c s' a H [Hc|Ha]; unfold unlockTime.
    + by rewrite (stakeOf_frame _ _ a (step_stakes_frame _ _ _ _ Hc H)).
    + by rewrite (step_settles_other _ _ _ _ a H Ha).
Qed.

(** The admin stakes 500 for 30 days at time 1000 and claims a day later:
    the unlock time moves from day 30 to day 31, and an [unstake] on day
    30, when the lock of the stake has run out, is refused. *)
Lemma unlock_time_follows_checkpoint_witness :
  unlockTime staked admin = 1000 + days 30 /\
  unlockTime (transact ClaimRewards a_day_later staked) admin
  = 1000 + days 1 + days 30 /\
  unstake 500 (at_time admin (1000 + days 2)) staked
  = Err (Revert "Lock period not expired") /\
  unstake 500 (at_time admin (1000 + days 30))
          (transact ClaimRewards a_day_later staked)
  = Err (Revert "Lock period not expired").
Proof.
  destruct (unlock_time_follows_checkpoint a_day_later staked)
    as (_ & _ & _ & _ & Hclaim & _).
  destruct (unlock_time_follows_checkpoint (at_time admin (1000 + days 2)) staked)
    as (_ & Hlocked & _).
  destruct (unlock_time_follows_checkpoint (at_time admin (1000 + days 30))
              (transact ClaimRewards a_day_later staked))
    as (_ & Hrestarted & _).
  split; [vm_compute; reflexivity|]. split; [|split].
  - assert (Hstep : step ClaimRewards a_day_later staked
                    = Ok (transact ClaimRewards a_day_later staked))
      by (vm_compute; reflexivity).
    etransitivity;
      [exact (Hclaim ClaimRewards _ (or_introl eq_refl) Hstep)|].
    vm_compute. reflexivity.
  - apply Hlocked.
    + vm_compute. congruence.
    + split; vm_compute; congruence.
  - apply Hrestarted.
    + vm_compute. congruence.
    + split; vm_compute; congruence.
Defined.

(** A stake made at time 1000 for 30 days; one day later the staker claims
    (nothing is due yet): the unlock time moves by a day. *)
Lemma claim_keeps_unlock_time_counterexample :
  exists s' i i',
    claimRewards a_day_later staked = Ok s' /\
    getStakeInfo admin a_day_later staked = Ok i /\
    getStakeInfo admin a_day_later s' = Ok i' /\
    info_unlockTime i = 1000 + days 30 /\
    info_unlockTime i' = 1000 + days 1 + days 30 /\
    info_unlockTime i' <> info_unlockTime i.
Proof.
  eexists _, _, _. split; [vm_compute; reflexivity|].
  split; [vm_compute; reflexivity|]. split; [vm_compute; reflexivity|].
  vm_compute. repeat split; congruence.
Qed.

(** *** C10 *)

(** C10, on the code. [emergencyWithdraw] runs only while the token is
    paused, and while it is paused the pause hook of [_transfer] rejects
    every token movement. So a call that succeeds has found an empty
    contract balance and returns the storage as it was, and a call by the
    admin on a paused token whose contract holds tokens reverts with the
    pause hook's message: the function never moves a token. *)
Theorem emergencyWithdraw_moves_nothing e s :
  (forall s', emergencyWithdraw e s = Ok s' ->
     s' = s /\ balanceOf s (this e) <= 0) /\
  (hasRole s DEFAULT_ADMIN_ROLE (msg_sender e) = true ->
   paused s = true ->
   0 < balanceOf s (this e) ->
   this e <> 0 -> msg_sender e <> 0 ->
   emergencyWithdraw e s
   = Err (Revert "ERC20Pausable: token transfer while paused")).
Proof.
  split.
  - intros s' H. unfold emergencyWithdraw, whenPaused in H. do 2 unbind H.
    arith_inv. destruct (Z.ltb_spec 0 (balanceOf s (this e))) as [Hpos|Hz].
    + apply _transfer_unpaused in H. congruence.
    + injection H as <-. split; [reflexivity | exact Hz].
  - intros Hrole Hpaused Hpos Hthis Hsender.
    unfold emergencyWithdraw, whenPaused, onlyRole.
    rewrite Hrole, Hpaused. simpl.
    destruct (Z.ltb_spec 0 (balanceOf s (this e))); [|lia].
    apply _transfer_paused; assumption.
Qed.

(** The contract holds the 500 staked units, the token is paused, the
    admin calls: the call reverts and the units stay where they are. *)
Lemma emergencyWithdraw_moves_nothing_witness :
  balanceOf staked_paused self = 500 /\
  emergencyWithdraw (at_time admin 3000) staked_paused
  = Err (Revert "ERC20Pausable: token transfer while paused") /\
  balanceOf (transact EmergencyWithdraw (at_time admin 3000) staked_paused) self
  = 500.
Proof.
  split; [vm_compute; reflexivity|]. split.
  - apply (emergencyWithdraw_moves_nothing (at_time admin 3000) staked_paused);
      vm_compute; congruence.
  - vm_compute. reflexivity.
Defined.

End TokenClaims.

(** ** ValueNFT: valuation and marketplace *)

Module NFTFacts.
Import NFT.

(** *** Inherited internals *)

Lemma _exists_spec s tokenId : _exists s tokenId = true <-> _ownerOf s tokenId <> 0.
Proof. unfold _exists. rewrite negb_true_iff, Z.eqb_neq. tauto. Qed.

Lemma ownerOf_inv s tokenId owner :
  ownerOf s tokenId = Ok owner -> owner = _ownerOf s tokenId /\ owner <> 0.
Proof.
  unfold ownerOf. intros H. unbind H. injection H as <-. arith_inv. auto.
Qed.

Lemma ownerOf_Ok s tokenId :
  _ownerOf s tokenId <> 0 -> ownerOf s tokenId = Ok (_ownerOf s tokenId).
Proof.
  intros H. unfold ownerOf. rewrite require_true; [reflexivity|].
  apply negb_true_iff, Z.eqb_neq, H.
Qed.

Lemma _mint_inv to tokenId s s' :
  _mint to tokenId s = Ok s' ->
  to <> 0 /\ _ownerOf s tokenId = 0 /\ s' = with_owners <[tokenId := to]> s.
Proof.
  unfold _mint, _exists. intros H. do 2 unbind H. injection H as <-.
  arith_inv. rewrite negb_false_iff in E0. arith_inv. auto.
Qed.

Lemma _checkOnERC721Received_inv to e u :
  _checkOnERC721Received to e = Ok u -> on_receive e to = Accepts.
Proof.
  unfold _checkOnERC721Received. destruct (on_receive e to); [reflexivity|..];
    discriminate.
Qed.

Lemma _safeMint_inv to tokenId e s s' :
  _safeMint to tokenId e s = Ok s' ->
  to <> 0 /\ _ownerOf s tokenId = 0 /\ on_receive e to = Accepts /\
  s' = with_owners <[tokenId := to]> s.
Proof.
  unfold _safeMint. intros H. unbind H as s1 Hs1. unbind H as u Hu.
  injection H as <-. apply _mint_inv in Hs1 as (Hto & Hfree & ->).
  apply _checkOnERC721Received_inv in Hu. auto.
Qed.

Lemma _setTokenURI_inv tokenId uri s s' :
  _setTokenURI tokenId uri s = Ok s' -> s' = with_tokenURIs <[tokenId := uri]> s.
Proof. unfold _setTokenURI. intros H. unbind H. by injection H as <-. Qed.

Lemma _transfer_inv from to tokenId s s' :
  _transfer from to tokenId s = Ok s' ->
  _ownerOf s tokenId = from /\ from <> 0 /\ to <> 0 /\
  s' = with_owners <[tokenId := to]> s.
Proof.
  unfold _transfer. intros H. unbind H as owner Ho. do 2 unbind H.
  injection H as <-. apply ownerOf_inv in Ho as [-> Hne]. arith_inv.
  rewrite <- E. auto.
Qed.

Lemma receive_value_inv e s s' :
  receive_value e s = Ok s' ->
  msg_value e <= fundsOf s (msg_sender e) /\
  s' = with_funds
         <[this e := fundsOf (with_funds
                       <[msg_sender e := fundsOf s (msg_sender e) - msg_value e]> s)
                       (this e) + msg_value e]>
         (with_funds <[msg_sender e := fundsOf s (msg_sender e) - msg_value e]> s).
Proof.
  unfold receive_value. intros H. unbind H. injection H as <-. arith_inv. auto.
Qed.

Lemma send_inv to amt e s s' :
  send to amt e s = Ok s' ->
  amt <= fundsOf s (this e) /\ to <> this e /\ accepts_ether e to = true /\
  s' = with_funds
         <[to := fundsOf (with_funds <[this e := fundsOf s (this e) - amt]> s) to
                 + amt]>
         (with_funds <[this e := fundsOf s (this e) - amt]> s).
Proof.
  unfold send. intros H. do 2 unbind H. injection H as <-. arith_inv. auto.
Qed.

(** *** mintValueNFT *)

Lemma mintValueNFT_inv to cid uri initial e s s' tokenId :
  mintValueNFT to cid uri initial e s = Ok (s', tokenId) ->
  hasRole s MINTER_ROLE (msg_sender e) = true /\
  tokenOfContent s cid = 0 /\
  BASE_VALUE / 10 <= initial /\
  to <> 0 /\
  tokenId = _tokenIdCounter s /\
  _ownerOf s tokenId = 0 /\
  s' = with_creatorTokens
         <[to := tokensOfCreator s to ++ [tokenId]]>
         (with_contentToToken <[cid := tokenId]>
            (set_valueData tokenId
               (mkValueData cid to initial initial 5000 5000 7500 0 0
                  (block_timestamp e) (block_timestamp e) false 0)
               (with_tokenURIs <[tokenId := uri]>
                  (with_owners <[tokenId := to]>
                     (set_tokenIdCounter ((tokenId + 1) mod 2 ^ 256) s))))).
Proof.
  unfold mintValueNFT, onlyRole. intros H. do 3 unbind H.
  unbind H as s2 Hs2. unbind H as s3 Hs3. injection H as <- <-.
  apply _safeMint_inv in Hs2 as (Hto & Hfree & _ & ->).
  apply _setTokenURI_inv in Hs3 as ->. arith_inv. auto 10.
Qed.

(** *** The value computation *)

Lemma floor_applied newValue initial :
  initial / 10 <= (if newValue <? initial / 10 then initial / 10 else newValue).
Proof. destruct (Z.ltb_spec newValue (initial / 10)); lia. Qed.

Lemma _calculateValue_floor tokenId e s v :
  _calculateValue tokenId e s = Ok v ->
  initialValue (valueDataOf s tokenId) / 10 <= v.
Proof.
  unfold _calculateValue. intros H. do 7 unbind H. injection H as <-.
  apply floor_applied.
Qed.

Lemma compositeScoreOf_error d err : compositeScoreOf d = Err err -> err = Panic.
Proof.
  unfold compositeScoreOf, mul, add, div. simpl.
  repeat (case_match; simpl; try congruence).
Qed.

Lemma actionMultiplierOf_error d err : actionMultiplierOf d = Err err -> err = Panic.
Proof.
  unfold actionMultiplierOf. destruct (0 <? actionCount d); [|discriminate].
  unfold mul. destruct (actionCount d * 100 <=? MAX_UINT256); run;
    [|congruence].
  unfold add. destruct (10000 + actionCount d * 100 <=? MAX_UINT256); run;
    [discriminate | congruence].
Qed.

Lemma decay_zero p :
  1 <= p -> VALUE_DECAY_RATE ^ p / 10000 ^ p = 0.
Proof.
  intros Hp. apply Z.div_small. split.
  - apply Z.pow_nonneg. unfold VALUE_DECAY_RATE. lia.
  - apply Z.pow_lt_mono_l; unfold VALUE_DECAY_RATE; lia.
Qed.

Lemma pow_fits_19 b p : 0 <= b <= 10000 -> 0 <= p <= 19 -> b ^ p <= MAX_UINT256.
Proof.
  intros Hb Hp.
  transitivity (10000 ^ p); [apply Z.pow_le_mono_l; lia|].
  transitivity (10000 ^ 19); [apply Z.pow_le_mono_r; lia|].
  vm_compute. congruence.
Qed.

Lemma decay_overflows p : 20 <= p -> MAX_UINT256 < VALUE_DECAY_RATE ^ p.
Proof.
  intros Hp. apply Z.lt_le_trans with (VALUE_DECAY_RATE ^ 20).
  - vm_compute. reflexivity.
  - apply Z.pow_le_mono_r; unfold VALUE_DECAY_RATE; lia.
Qed.

Lemma days_div x : div x (days 1) = Ok (x / days 1).
Proof. reflexivity. Qed.

Lemma decayMultiplierOf_recent d now :
  lastValueUpdate d <= now ->
  1 <= decayPeriodsOf d now <= 19 ->
  decayMultiplierOf d now = Ok 0.
Proof.
  intros Hnow Hp. unfold decayMultiplierOf.
  rewrite sub_Ok by exact Hnow. run. rewrite days_div. run.
  fold (decayPeriodsOf d now).
  rewrite (pow_Ok VALUE_DECAY_RATE)
    by (apply pow_fits_19; [unfold VALUE_DECAY_RATE|]; lia).
  run.
  rewrite pow_Ok by (apply pow_fits_19; lia). run.
  unfold div. destruct (Z.eqb_spec (10000 ^ decayPeriodsOf d now) 0) as [Hz|_].
  - pose proof (Z.pow_pos_nonneg 10000 (decayPeriodsOf d now)). lia.
  - rewrite decay_zero by lia. reflexivity.
Qed.

Lemma decayMultiplierOf_stale d now :
  20 <= decayPeriodsOf d now -> decayMultiplierOf d now = Err Panic.
Proof.
  intros Hp. unfold decayMultiplierOf, sub.
  destruct (Z.leb_spec (lastValueUpdate d) now); [|reflexivity]. run.
  rewrite days_div. run. fold (decayPeriodsOf d now).
  rewrite (pow_Panic VALUE_DECAY_RATE) by (apply decay_overflows; exact Hp).
  reflexivity.
Qed.

Lemma decayMultiplierOf_now d :
  decayMultiplierOf d (lastValueUpdate d) = Ok 1.
Proof.
  unfold decayMultiplierOf. rewrite sub_Ok by lia. run.
  rewrite Z.sub_diag. reflexivity.
Qed.
(** The value computed for a record that still has its minting defaults,
    at the time of its last update. *)
Lemma _calculateValue_defaults tokenId (e : env) s :
  let d := valueDataOf s tokenId in
  impactScore d = 5000 -> engagementScore d = 5000 -> qualityScore d = 7500 ->
  actionCount d = 0 -> lastValueUpdate d = block_timestamp e ->
  0 <= initialValue d ->
  initialValue d * 5625 * 10000 <= MAX_UINT256 ->
  _calculateValue tokenId e s
  = Ok (if initialValue d * 5625 * 10000 * 1 / (10000 * 10000 * 10000)
           <? initialValue d / 10
        then initialValue d / 10
        else initialValue d * 5625 * 10000 * 1 / (10000 * 10000 * 10000)).
Proof.
  intros d Hi He Hq Ha Hl Hpos Hmax. unfold _calculateValue. fold d.
  assert (Hcs : compositeScoreOf d = Ok 5625).
  { unfold compositeScoreOf. rewrite Hi, He, Hq. reflexivity. }
  assert (Ham : actionMultiplierOf d = Ok 10000).
  { unfold actionMultiplierOf. rewrite Ha. reflexivity. }
  rewrite Hcs. run. rewrite <- Hl, decayMultiplierOf_now. run.
  rewrite Ham. run.
  rewrite mul_Ok by lia. run. rewrite mul_Ok by lia. run.
  rewrite mul_Ok by lia. run. reflexivity.
Qed.

End NFTFacts.

(** ** ValueNFT: the claims *)

Module NFTClaims.
Import NFT NFTFacts NFTRun.

(** *** The concrete run is a run of the contract *)

Lemma nft_deployed_reachable : reachable self 1000 deployed.
Proof. apply reachable_deploy. vm_compute. split; congruence. Qed.

Lemma minted_mint :
  mintValueNFT creator "video-1" "ipfs://1" ether (at_time minter 1000) deployed
  = Ok (minted, 0).
Proof. vm_compute. reflexivity. Qed.

Lemma minted_reachable : reachable self 1000 minted.
Proof.
  apply (reachable_step self 1000 deployed
           (MintValueNFT creator "video-1" "ipfs://1" ether)
           (at_time minter 1000) minted nft_deployed_reachable).
  - reflexivity.
  - unfold valid_env; simpl. repeat split; vm_compute; congruence.
  - vm_compute. reflexivity.
Qed.

Lemma listed_reachable : reachable self 2000 listed.
Proof.
  apply (reachable_step self 1000 minted (ListNFT 0 (2 * ether))
           (at_time creator 2000) listed minted_reachable).
  - reflexivity.
  - unfold valid_env; simpl. repeat split; vm_compute; congruence.
  - vm_compute. reflexivity.
Qed.

(** *** C1 *)

(** C1, as the code has it. Right after [mintValueNFT] the stored
    [currentValue] equals [initialValue] and the record holds the default
    scores. [getCurrentValue] in the same block does not return
    [initialValue]: with the default scores the composite score is 5625 of
    10000, and the query returns a value that is at least
    [initialValue / 10] and strictly below [initialValue]. *)
Theorem fresh_value_below_initial to cid uri initial e s s' tokenId :
  mintValueNFT to cid uri initial e s = Ok (s', tokenId) ->
  initial * 5625 * 10000 <= MAX_UINT256 ->
  let d := valueDataOf s' tokenId in
  currentValue d = initial /\ initialValue d = initial /\
  impactScore d = 5000 /\ engagementScore d = 5000 /\ qualityScore d = 7500 /\
  actionCount d = 0 /\ lastValueUpdate d = block_timestamp e /\
  compositeScoreOf d = Ok 5625 /\
  exists v, getCurrentValue tokenId e s' = Ok v /\ initial / 10 <= v < initial.
Proof.
  intros Hmint Hmax d.
  apply mintValueNFT_inv in Hmint as (_ & _ & Hlow & Hto & _ & _ & Hs').
  assert (Hd : d = mkValueData cid to initial initial 5000 5000 7500 0 0
                     (block_timestamp e) (block_timestamp e) false 0).
  { unfold d, valueDataOf. rewrite Hs'. simpl. by rewrite lookup_insert_eq. }
  assert (Hbase : 1 <= initial).
  { assert (1 <= BASE_VALUE / 10) by (vm_compute; congruence). lia. }
  rewrite Hd. simpl. repeat split; try reflexivity.
  unfold getCurrentValue.
  assert (Hex : _exists s' tokenId = true).
  { apply _exists_spec. unfold _ownerOf. rewrite Hs'. simpl.
    by rewrite lookup_insert_eq. }
  rewrite Hex. run.
  rewrite _calculateValue_defaults; fold d; rewrite ?Hd; simpl;
    try reflexivity; try lia.
  eexists. split; [reflexivity|].
  assert (Hq : initial * 5625 * 10000 * 1 / (10000 * 10000 * 10000) < initial).
  { apply Z.div_lt_upper_bound; lia. }
  assert (Hf : initial / 10 < initial).
  { apply Z.div_lt_upper_bound; lia. }
  destruct (Z.ltb_spec (initial * 5625 * 10000 * 1 / (10000 * 10000 * 10000))
              (initial / 10)); lia.
Qed.

Lemma fresh_value_below_initial_witness :
  currentValue (valueDataOf minted 0) = ether /\
  exists v, getCurrentValue 0 (at_time minter 1000) minted = Ok v /\
            ether / 10 <= v < ether.
Proof.
  assert (Hmax : ether * 5625 * 10000 <= MAX_UINT256) by (vm_compute; congruence).
  destruct (fresh_value_below_initial creator "video-1" "ipfs://1" ether
              (at_time minter 1000) deployed minted 0 minted_mint Hmax)
    as (Hcur & _ & _ & _ & _ & _ & _ & _ & Hquery).
  split; assumption.
Defined.

(** One ether is minted; the query in the same block returns a tenth. *)
Lemma fresh_value_equals_initial_counterexample :
  mintValueNFT creator "video-1" "ipfs://1" ether (at_time minter 1000) deployed
  = Ok (minted, 0) /\
  initialValue (valueDataOf minted 0) = ether /\
  lastValueUpdate (valueDataOf minted 0) = block_timestamp (at_time minter 1000) /\
  getCurrentValue 0 (at_time minter 1000) minted = Ok (ether / 10) /\
  ether / 10 <> initialValue (valueDataOf minted 0).
Proof. vm_compute. repeat split; congruence. Qed.

(** *** C2 *)

(** A content identifier mapped to a token other than token 0 is
    rejected. *)
Lemma mintValueNFT_rejects_mapped to cid uri initial (e : env) s :
  hasRole s MINTER_ROLE (msg_sender e) = true ->
  tokenOfContent s cid <> 0 ->
  mintValueNFT to cid uri initial e s = Err (Revert "Content already tokenized").
Proof.
  intros Hrole Hmapped. unfold mintValueNFT, onlyRole. rewrite Hrole.
  rewrite (require_false (tokenOfContent s cid =? 0));
    [reflexivity | apply Z.eqb_neq; exact Hmapped].
Qed.

(** C2, on the code. Token ids start at 0 and 0 is also what the
    content-to-token mapping reads for an unmapped identifier. The content
    of token 0 therefore still reads as unmapped after its mint, and
    minting it again succeeds: tokens 0 and 1 both exist and both carry the
    content identifier "video-1". *)
Theorem first_content_tokenized_twice :
  mintValueNFT creator "video-1" "ipfs://1" ether (at_time minter 1000) deployed
  = Ok (minted, 0) /\
  tokenOfContent minted "video-1" = 0 /\
  mintValueNFT creator "video-1" "ipfs://2" ether (at_time minter 1000) minted
  = Ok (minted_again, 1) /\
  _exists minted_again 0 = true /\ _exists minted_again 1 = true /\
  contentId (valueDataOf minted_again 0) = "video-1"%string /\
  contentId (valueDataOf minted_again 1) = "video-1"%string.
Proof. vm_compute. repeat split; reflexivity. Qed.

(** *** C9 *)

(** The value computed when the decay multiplier is 0: the floor, unless
    the score arithmetic or one of the products leaves [uint256]. *)
Lemma _calculateValue_decayed tokenId (e : env) s :
  let d := valueDataOf s tokenId in
  0 <= initialValue d ->
  decayMultiplierOf d (block_timestamp e) = Ok 0 ->
  _calculateValue tokenId e s
  = match compositeScoreOf d, actionMultiplierOf d with
    | Ok cs, Ok am =>
        if (initialValue d * cs <=? MAX_UINT256)
           && (initialValue d * cs * am <=? MAX_UINT256)
        then Ok (initialValue d / 10)
        else Err Panic
    | _, _ => Err Panic
    end.
Proof.
  intros d Hpos Hdecay. unfold _calculateValue. fold d.
  destruct (compositeScoreOf d) as [cs|err] eqn:Hcs;
    [|apply compositeScoreOf_error in Hcs as ->; reflexivity].
  run. rewrite Hdecay. run.
  destruct (actionMultiplierOf d) as [am|err] eqn:Ham;
    [|apply actionMultiplierOf_error in Ham as ->; reflexivity].
  run. unfold mul.
  destruct (Z.leb_spec (initialValue d * cs) MAX_UINT256) as [H1|H1];
    [|reflexivity].
  run.
  destruct (Z.leb_spec (initialValue d * cs * am) MAX_UINT256) as [H2|H2];
    [|reflexivity].
  run. rewrite Z.mul_0_r. simpl.
  assert (0 <= initialValue d / 10) by (apply Z.div_pos; [exact Hpos | lia]).
  change (0 / (10000 * 10000 * 10000)) with 0.
  destruct (Z.ltb_spec 0 (initialValue d / 10));
    [reflexivity | unfold mret, result_ret; f_equal; lia].
Qed.

(** C9, on the code. For a minted asset whose last value update is between
    1 and 19 whole days old, the decay multiplier [9950^p / 10000^p] is 0
    and [getCurrentValue] returns exactly [initialValue / 10], as the claim
    says, when the score arithmetic and the products of the initial value,
    the composite score and the action multiplier fit in [uint256];
    otherwise it fails with an arithmetic panic. From 20 whole days on
    [9950^p] itself no longer fits in [uint256]: the query fails with an
    arithmetic panic for every asset, whatever its scores, and never
    returns the floor again. *)
Theorem stale_value_floor_or_panic tokenId (e : env) s :
  _exists s tokenId = true ->
  0 <= initialValue (valueDataOf s tokenId) ->
  lastValueUpdate (valueDataOf s tokenId) <= block_timestamp e ->
  let d := valueDataOf s tokenId in
  let p := decayPeriodsOf d (block_timestamp e) in
  (1 <= p <= 19 ->
   decayMultiplierOf d (block_timestamp e) = Ok 0 /\
   (forall cs am,
      compositeScoreOf d = Ok cs -> actionMultiplierOf d = Ok am ->
      initialValue d * cs <= MAX_UINT256 ->
      initialValue d * cs * am <= MAX_UINT256 ->
      getCurrentValue tokenId e s = Ok (initialValue d / 10)) /\
   getCurrentValue tokenId e s
   = match compositeScoreOf d, actionMultiplierOf d with
     | Ok cs, Ok am =>
         if (initialValue d * cs <=? MAX_UINT256)
            && (initialValue d * cs * am <=? MAX_UINT256)
         then Ok (initialValue d / 10)
         else Err Panic
     | _, _ => Err Panic
     end) /\
  (20 <= p -> getCurrentValue tokenId e s = Err Panic).
Proof.
  intros Hex Hpos Hnow d p. split.
  - intros Hp.
    pose proof (decayMultiplierOf_recent d (block_timestamp e) Hnow Hp) as Hdecay.
    assert (Hvalue : getCurrentValue tokenId e s
                     = match compositeScoreOf d, actionMultiplierOf d with
                       | Ok cs, Ok am =>
                           if (initialValue d * cs <=? MAX_UINT256)
                              && (initialValue d * cs * am <=? MAX_UINT256)
                           then Ok (initialValue d / 10)
                           else Err Panic
                       | _, _ => Err Panic
                       end).
    { unfold getCurrentValue. rewrite Hex. run.
      exact (_calculateValue_decayed tokenId e s Hpos Hdecay). }
    split; [exact Hdecay|]. split; [|exact Hvalue].
    intros cs am Hcs Ham H1 H2. rewrite Hvalue, Hcs, Ham.
    apply Z.leb_le in H1, H2. rewrite H1, H2. reflexivity.
  - intros Hp. unfold getCurrentValue. rewrite Hex. run.
    unfold _calculateValue. fold d.
    destruct (compositeScoreOf d) as [cs|err] eqn:Hcs.
    + run. rewrite (decayMultiplierOf_stale d _ Hp). reflexivity.
    + apply compositeScoreOf_error in Hcs as ->. reflexivity.
Qed.

(** Token 0 of the concrete run, minted at time 1000 for 1 ether: a day
    later the query returns the floor, 20 days later it panics. *)
Lemma stale_value_floor_or_panic_witness :
  getCurrentValue 0 (days_later 1) minted
  = Ok (initialValue (valueDataOf minted 0) / 10) /\
  getCurrentValue 0 (days_later 20) minted = Err Panic.
Proof.
  assert (Hex : _exists minted 0 = true) by (vm_compute; reflexivity).
  assert (Hpos : 0 <= initialValue (valueDataOf minted 0))
    by (vm_compute; congruence).
  split.
  - assert (Hnow : lastValueUpdate (valueDataOf minted 0)
                   <= block_timestamp (days_later 1)) by (vm_compute; congruence).
    destruct (stale_value_floor_or_panic 0 (days_later 1) minted Hex Hpos Hnow)
      as (Hfloor & _).
    destruct Hfloor as (_ & Hfloor & _); [vm_compute; split; congruence|].
    apply (Hfloor 5625 10000); vm_compute; congruence.
  - assert (Hnow : lastValueUpdate (valueDataOf minted 0)
                   <= block_timestamp (days_later 20)) by (vm_compute; congruence).
    destruct (stale_value_floor_or_panic 0 (days_later 20) minted Hex Hpos Hnow)
      as (_ & Hpanic).
    apply Hpanic. vm_compute. congruence.
Defined.

(** Twenty days after the mint the query does not return the floor. *)
Lemma stale_value_always_floor_counterexample :
  _exists minted 0 = true /\
  decayPeriodsOf (valueDataOf minted 0) (block_timestamp (days_later 20)) = 20 /\
  getCurrentValue 0 (days_later 20) minted = Err Panic /\
  getCurrentValue 0 (days_later 20) minted
  <> Ok (initialValue (valueDataOf minted 0) / 10).
Proof. vm_compute. repeat split; congruence. Qed.

(** *** C8 *)

(** The six balance updates of a purchase, on the map of balances: the
    contract's own balance ends where it started. *)
Lemma sale_funds (m : gmap address Z) (buyer this seller recipient : address)
  (price fee : Z) (a : address) :
  let m1 := <[buyer := default 0 (m !! buyer) - price]> m in
  let m2 := <[this := default 0 (m1 !! this) + price]> m1 in
  let m3 := <[this := default 0 (m2 !! this) - (price - fee)]> m2 in
  let m4 := <[seller := default 0 (m3 !! seller) + (price - fee)]> m3 in
  let m5 := <[this := default 0 (m4 !! this) - fee]> m4 in
  let m6 := <[recipient := default 0 (m5 !! recipient) + fee]> m5 in
  default 0 (m6 !! a)
  = default 0 (m !! a)
    + ((if decide (a = seller) then price - fee else 0)
       + (if decide (a = recipient) then fee else 0)
       - (if decide (a = buyer) then price else 0)).
Proof.
  intros m1 m2 m3 m4 m5 m6. subst m1 m2 m3 m4 m5 m6.
  rewrite !lookup_insert.
  repeat case_decide; subst; simpl; try congruence; lia.
Qed.

(** What a successful purchase does to storage and to native balances. *)
Lemma buyNFT_inv tokenId e s s' :
  buyNFT tokenId e s = Ok s' ->
  msg_value e <= fundsOf s (msg_sender e) /\
  isListed (valueDataOf s tokenId) = true /\
  msg_value e = listPrice (valueDataOf s tokenId) /\
  _ownerOf s tokenId <> 0 /\
  fee_of (msg_value e) (marketplaceFee s) <= msg_value e /\
  valueData s' = <[tokenId := set_listing false 0 (valueDataOf s tokenId)]> (valueData s) /\
  tokenListings s' = delete tokenId (tokenListings s) /\
  owners s' = <[tokenId := msg_sender e]> (owners s) /\
  (forall a, fundsOf s' a
             = fundsOf s a
               + sale_delta (msg_sender e) (_ownerOf s tokenId) (feeRecipient s)
                   (msg_value e) (marketplaceFee s) a).
Proof.
  unfold buyNFT. intros H. unbind H as s0 Hs0. do 2 unbind H.
  unbind H as seller Hseller. unbind H as x Hx. unbind H as fee Hfee.
  unbind H as sellerAmount Hamount. unbind H as s3 Hs3. unbind H as s4 Hs4.
  apply receive_value_inv in Hs0 as (Hfunds & ->).
  apply ownerOf_inv in Hseller as (-> & Hexists).
  apply _transfer_inv in Hs3 as (_ & _ & _ & ->).
  apply send_inv in Hs4 as (_ & _ & _ & ->).
  apply send_inv in H as (_ & _ & _ & ->).
  arith_inv. simpl in *. unfold fee_of.
  repeat split; try assumption; try reflexivity.
  intros a. unfold sale_delta, fee_of, fundsOf. simpl.
  apply (sale_funds (funds s) (msg_sender e) (this e)).
Qed.

(** Both payments of a successful purchase were taken: neither the seller
    nor the fee recipient is the contract itself or an account that
    refuses ether. *)
Lemma buyNFT_paid tokenId e s s' :
  buyNFT tokenId e s = Ok s' ->
  _ownerOf s tokenId <> this e /\ accepts_ether e (_ownerOf s tokenId) = true /\
  feeRecipient s <> this e /\ accepts_ether e (feeRecipient s) = true.
Proof.
  unfold buyNFT. intros H. unbind H as s0 Hs0. do 2 unbind H.
  unbind H as seller Hseller. unbind H as x Hx. unbind H as fee Hfee.
  unbind H as sellerAmount Hamount. unbind H as s3 Hs3. unbind H as s4 Hs4.
  apply receive_value_inv in Hs0 as (_ & ->).
  apply ownerOf_inv in Hseller as (-> & _).
  apply _transfer_inv in Hs3 as (_ & _ & _ & ->).
  apply send_inv in Hs4 as (_ & Hs1 & Hs2 & ->).
  apply send_inv in H as (_ & Hr1 & Hr2 & _).
  simpl in *. auto.
Qed.

(** The contract can make both payments out of what the buyer sent. *)
Lemma sale_contract_funds (m : gmap address Z) (buyer this seller : address)
  (price fee : Z) :
  price <= default 0 (m !! buyer) ->
  0 <= default 0 (m !! this) ->
  0 <= fee <= price ->
  let m1 := <[buyer := default 0 (m !! buyer) - price]> m in
  let m2 := <[this := default 0 (m1 !! this) + price]> m1 in
  let m3 := <[this := default 0 (m2 !! this) - (price - fee)]> m2 in
  let m4 := <[seller := default 0 (m3 !! seller) + (price - fee)]> m3 in
  price - fee <= default 0 (m2 !! this) /\ fee <= default 0 (m4 !! this).
Proof.
  intros Hbuyer Hthis Hfee m1 m2 m3 m4. subst m1 m2 m3 m4.
  rewrite !lookup_insert.
  split; repeat case_decide; subst; simpl; try congruence; lia.
Qed.

Lemma send_Ok to amt (e : env) s :
  amt <= fundsOf s (this e) -> to <> this e -> accepts_ether e to = true ->
  send to amt e s
  = Ok (with_funds
          <[to := fundsOf (with_funds <[this e := fundsOf s (this e) - amt]> s) to
                  + amt]>
          (with_funds <[this e := fundsOf s (this e) - amt]> s)).
Proof.
  intros H Hto Hacc. unfold send.
  rewrite (require_true (amt <=? fundsOf s (this e))) by (apply Z.leb_le; exact H).
  run. rewrite Hacc.
  rewrite (require_true (negb (to =? this e) && true));
    [reflexivity | rewrite andb_true_r; apply negb_true_iff, Z.eqb_neq, Hto].
Qed.

Lemma send_refused to amt (e : env) s :
  to = this e \/ accepts_ether e to = false ->
  exists err, send to amt e s = Err err.
Proof.
  intros Hbad. unfold send.
  destruct (require (amt <=? fundsOf s (this e)) "transfer failed"); [|simpl; eauto].
  run. rewrite (require_false (negb (to =? this e) && accepts_ether e to));
    [simpl; eauto|].
  destruct Hbad as [-> | ->]; [by rewrite Z.eqb_refl | apply andb_false_r].
Qed.

(** A purchase goes through when the buyer can pay the list price of a
    listed, existing asset, the fee arithmetic stays in range, and the
    seller and the fee recipient take their payments. *)
Lemma buyNFT_succeeds tokenId (e : env) s :
  msg_value e <= fundsOf s (msg_sender e) ->
  isListed (valueDataOf s tokenId) = true ->
  msg_value e = listPrice (valueDataOf s tokenId) ->
  _ownerOf s tokenId <> 0 -> msg_sender e <> 0 ->
  0 <= msg_value e -> 0 <= marketplaceFee s <= 10000 ->
  msg_value e * marketplaceFee s <= MAX_UINT256 ->
  0 <= fundsOf s (this e) ->
  _ownerOf s tokenId <> this e -> accepts_ether e (_ownerOf s tokenId) = true ->
  feeRecipient s <> this e -> accepts_ether e (feeRecipient s) = true ->
  exists s', buyNFT tokenId e s = Ok s'.
Proof.
  intros Hfunds Hlisted Hprice Howner Hbuyer Hpos Hfee Hmax Hself
    Hseller Hsacc Hrecipient Hracc.
  assert (Hf0 : 0 <= fee_of (msg_value e) (marketplaceFee s)).
  { unfold fee_of. apply Z.div_pos; [|lia]. apply Z.mul_nonneg_nonneg; lia. }
  assert (Hf1 : fee_of (msg_value e) (marketplaceFee s) <= msg_value e).
  { unfold fee_of. apply Z.div_le_upper_bound; [lia|]. nia. }
  unfold buyNFT, receive_value.
  rewrite require_true by (apply Z.leb_le; exact Hfunds). run.
  change (valueDataOf (with_funds _ (with_funds _ s)) tokenId)
    with (valueDataOf s tokenId).
  rewrite Hlisted, <- Hprice, Z.eqb_refl. simpl require. run.
  rewrite ownerOf_Ok by exact Howner. run.
  change (_ownerOf (with_funds _ (with_funds _ s)) tokenId)
    with (_ownerOf s tokenId).
  change (marketplaceFee (with_funds _ (with_funds _ s))) with (marketplaceFee s).
  rewrite mul_Ok by exact Hmax. run.
  change (div (msg_value e * marketplaceFee s) 10000)
    with (Ok (fee_of (msg_value e) (marketplaceFee s)) : result Z).
  run. rewrite sub_Ok by exact Hf1. run.
  unfold _transfer. rewrite ownerOf_Ok by exact Howner. run.
  rewrite Z.eqb_refl. simpl require. run.
  rewrite (require_true (negb (msg_sender e =? 0)))
    by (apply negb_true_iff, Z.eqb_neq; exact Hbuyer).
  run.
  destruct (sale_contract_funds (funds s) (msg_sender e) (this e)
              (_ownerOf s tokenId) (msg_value e)
              (fee_of (msg_value e) (marketplaceFee s)))
    as [Hpay Hcut]; try assumption; [lia|].
  rewrite send_Ok by assumption. run.
  rewrite send_Ok by assumption. eauto.
Qed.

(** A purchase whose seller or fee recipient does not take the payment
    fails. *)
Lemma buyNFT_refused tokenId (e : env) s :
  _ownerOf s tokenId = this e \/ accepts_ether e (_ownerOf s tokenId) = false \/
  feeRecipient s = this e \/ accepts_ether e (feeRecipient s) = false ->
  exists err, buyNFT tokenId e s = Err err.
Proof.
  intros Hbad. destruct (buyNFT tokenId e s) as [s'|err] eqn:Hbuy; [|eauto].
  apply buyNFT_paid in Hbuy as (H1 & H2 & H3 & H4).
  destruct Hbad as [?|[?|[?|?]]]; congruence.
Qed.

(** C8. A successful [buyNFT] was paid exactly the list price [P] of a
    listed asset. It pays the seller (the owner at the time of the call)
    [P - P * feeBps / 10000] and the fee recipient [P * feeBps / 10000]:
    the two add up to [P], which is what the buyer paid. The same step
    clears the listing and makes the buyer the owner. A buy of an unlisted
    asset, or with a payment other than the list price, fails and the
    transaction leaves storage and balances as they were. A buy does succeed
    when the buyer can pay the list price of a listed, existing asset, the
    fee arithmetic stays in range, and the seller and the fee recipient
    take their payments; when one of them is the contract itself or an
    account that refuses ether, the buy fails and nothing changes. *)
Theorem buyNFT_splits_price_exactly tokenId (e : env) s :
  (forall s', buyNFT tokenId e s = Ok s' ->
     let price := listPrice (valueDataOf s tokenId) in
     let fee := fee_of price (marketplaceFee s) in
     let seller := _ownerOf s tokenId in
     isListed (valueDataOf s tokenId) = true /\
     msg_value e = price /\
     (price - fee) + fee = price /\
     (forall a, fundsOf s' a
                = fundsOf s a
                  + sale_delta (msg_sender e) seller (feeRecipient s) price
                      (marketplaceFee s) a) /\
     isListed (valueDataOf s' tokenId) = false /\
     listPrice (valueDataOf s' tokenId) = 0 /\
     listerOf s' tokenId = 0 /\
     _ownerOf s' tokenId = msg_sender e) /\
  (isListed (valueDataOf s tokenId) = false \/
   msg_value e <> listPrice (valueDataOf s tokenId) ->
   (exists err, buyNFT tokenId e s = Err err) /\
   transact (BuyNFT tokenId) e s = s) /\
  (msg_value e <= fundsOf s (msg_sender e) ->
   (isListed (valueDataOf s tokenId) = false ->
    buyNFT tokenId e s = Err (Revert "NFT not listed")) /\
   (isListed (valueDataOf s tokenId) = true ->
    msg_value e <> listPrice (valueDataOf s tokenId) ->
    buyNFT tokenId e s = Err (Revert "Incorrect payment amount"))) /\
  (msg_value e <= fundsOf s (msg_sender e) ->
   isListed (valueDataOf s tokenId) = true ->
   msg_value e = listPrice (valueDataOf s tokenId) ->
   _ownerOf s tokenId <> 0 -> msg_sender e <> 0 ->
   0 <= msg_value e -> 0 <= marketplaceFee s <= 10000 ->
   msg_value e * marketplaceFee s <= MAX_UINT256 ->
   0 <= fundsOf s (this e) ->
   _ownerOf s tokenId <> this e -> accepts_ether e (_ownerOf s tokenId) = true ->
   feeRecipient s <> this e -> accepts_ether e (feeRecipient s) = true ->
   exists s', buyNFT tokenId e s = Ok s') /\
  (_ownerOf s tokenId = this e \/ accepts_ether e (_ownerOf s tokenId) = false \/
   feeRecipient s = this e \/ accepts_ether e (feeRecipient s) = false ->
   (exists err, buyNFT tokenId e s = Err err) /\
   transact (BuyNFT tokenId) e s = s).
Proof.
  split; [|split; [|split; [|split]]]; [| | |apply buyNFT_succeeds|].
  - intros s' H.
    apply buyNFT_inv in H
      as (_ & Hlisted & Hprice & _ & _ & Hdata & Hlistings & Howners & Hfunds).
    rewrite <- Hprice. simpl. repeat split; try assumption; try lia.
    + unfold valueDataOf. rewrite Hdata, lookup_insert_eq. reflexivity.
    + unfold valueDataOf. rewrite Hdata, lookup_insert_eq. reflexivity.
    + unfold listerOf. rewrite Hlistings, lookup_delete_eq. reflexivity.
    + unfold _ownerOf. rewrite Howners, lookup_insert_eq. reflexivity.
  - intros Hbad.
    assert (Hfail : exists err, buyNFT tokenId e s = Err err).
    { destruct (buyNFT tokenId e s) as [s'|err] eqn:Hbuy; [|eauto].
      apply buyNFT_inv in Hbuy as (_ & Hlisted & Hprice & _).
      destruct Hbad; congruence. }
    split; [exact Hfail|]. destruct Hfail as [err Herr].
    unfold transact; simpl. rewrite Herr. reflexivity.
  - intros Hfunds. unfold buyNFT, receive_value.
    rewrite require_true by (apply Z.leb_le; exact Hfunds). run.
    change (valueDataOf (with_funds _ (with_funds _ s)) tokenId)
      with (valueDataOf s tokenId).
    split.
    + intros ->. reflexivity.
    + intros -> Hne. simpl.
      rewrite (require_false (msg_value e =? listPrice (valueDataOf s tokenId)));
        [reflexivity | apply Z.eqb_neq; exact Hne].
  - intros Hbad. destruct (buyNFT_refused tokenId e s Hbad) as [err Herr].
    split; [eauto|]. unfold transact; simpl. rewrite Herr. reflexivity.
Qed.

(** Token 0 listed at 2 ether with the fee at 250 basis points: the buyer
    pays 2, the creator receives 1.95, the treasury 0.05. A payment of 1
    ether is rejected, and so is the purchase when the treasury takes no
    ether. *)
Lemma buyNFT_splits_price_exactly_witness :
  buyNFT 0 buying listed = Ok sold /\
  fundsOf sold creator = fundsOf listed creator + 1950000000000000000 /\
  fundsOf sold treasury = fundsOf listed treasury + 50000000000000000 /\
  fundsOf sold buyer = fundsOf listed buyer - 2 * ether /\
  _ownerOf sold 0 = buyer /\ isListed (valueDataOf sold 0) = false /\
  buyNFT 0 (paying buyer 3000 ether) listed
  = Err (Revert "Incorrect payment amount") /\
  transact (BuyNFT 0) (paying buyer 3000 ether) listed = listed /\
  (exists s', buyNFT 0 buying listed = Ok s') /\
  (exists err, buyNFT 0 buying_refused listed = Err err) /\
  transact (BuyNFT 0) buying_refused listed = listed.
Proof.
  assert (Hbuy : buyNFT 0 buying listed = Ok sold) by (vm_compute; reflexivity).
  destruct (buyNFT_splits_price_exactly 0 buying listed)
    as (Hok & _ & _ & Hgoes & _).
  destruct (Hok sold Hbuy) as (_ & _ & _ & Hfunds & Hunlisted & _ & _ & Howner).
  destruct (buyNFT_splits_price_exactly 0 (paying buyer 3000 ether) listed)
    as (_ & Hfail & Hreason & _).
  destruct (buyNFT_splits_price_exactly 0 buying_refused listed)
    as (_ & _ & _ & _ & Hrefused).
  split; [exact Hbuy|].
  split; [rewrite Hfunds; vm_compute; reflexivity|].
  split; [rewrite Hfunds; vm_compute; reflexivity|].
  split; [rewrite Hfunds; vm_compute; reflexivity|].
  split; [exact Howner|]. split; [exact Hunlisted|].
  split; [apply Hreason; vm_compute; congruence|].
  split; [apply Hfail; right; vm_compute; congruence|].
  split; [apply Hgoes; vm_compute; try split; congruence|].
  apply Hrefused. right. right. right. vm_compute. reflexivity.
Defined.

(** *** C5 *)

Lemma floor_ok_unset : floor_ok noValueData.
Proof. unfold floor_ok; simpl. reflexivity. Qed.

Lemma floor_ok_written (m : gmap Z ValueData) tokenId d :
  (forall i, floor_ok (default noValueData (m !! i))) ->
  floor_ok d ->
  forall i, floor_ok (default noValueData (<[tokenId := d]> m !! i)).
Proof.
  intros Hm Hd i. rewrite lookup_insert. case_decide; simpl; [exact Hd | apply Hm].
Qed.

Lemma floor_ok_deleted (m : gmap Z ValueData) tokenId :
  (forall i, floor_ok (default noValueData (m !! i))) ->
  forall i, floor_ok (default noValueData (delete tokenId m !! i)).
Proof.
  intros Hm i. rewrite lookup_delete.
  case_decide; simpl; [apply floor_ok_unset | apply Hm].
Qed.

Lemma floor_ok_set_listing listed price d :
  floor_ok d -> floor_ok (set_listing listed price d).
Proof. unfold floor_ok. simpl. trivial. Qed.

Lemma floor_ok_set_metrics i g q v a d :
  floor_ok d -> floor_ok (set_metrics i g q v a d).
Proof. unfold floor_ok. simpl. trivial. Qed.

(** [updateValue] stores the computed value, which is at or above the
    floor of the record it was computed from. *)
Lemma updateValue_floor tokenId i g q v a e s s' :
  (forall id, floor_ok (valueDataOf s id)) ->
  updateValue tokenId i g q v a e s = Ok s' ->
  forall id, floor_ok (valueDataOf s' id).
Proof.
  intros Hinv H. unfold updateValue in H. do 2 unbind H.
  unbind H as newValue Hnew. injection H as <-.
  apply _calculateValue_floor in Hnew.
  unfold valueDataOf, set_valueData in *. simpl in *.
  apply floor_ok_written.
  - apply floor_ok_written; [exact Hinv|].
    apply floor_ok_set_metrics, Hinv.
  - unfold floor_ok. simpl. exact Hnew.
Qed.

Lemma mintValueNFT_floor to cid uri initial e s s' tokenId :
  (forall id, floor_ok (valueDataOf s id)) ->
  mintValueNFT to cid uri initial e s = Ok (s', tokenId) ->
  forall id, floor_ok (valueDataOf s' id).
Proof.
  intros Hinv H. apply mintValueNFT_inv in H as (_ & _ & Hlow & _ & _ & _ & ->).
  unfold valueDataOf, set_valueData in *. simpl.
  apply floor_ok_written; [exact Hinv|]. unfold floor_ok. simpl.
  assert (0 <= BASE_VALUE / 10) by (vm_compute; congruence).
  apply Z.div_le_upper_bound; lia.
Qed.

Lemma _burn_floor tokenId s s' :
  (forall id, floor_ok (valueDataOf s id)) ->
  _burn tokenId s = Ok s' ->
  forall id, floor_ok (valueDataOf s' id).
Proof.
  intros Hinv H. unfold _burn in H. unbind H. injection H as <-.
  unfold valueDataOf in *.
  match goal with |- context [if ?b then _ else _] => destruct b end; simpl;
    apply floor_ok_deleted, Hinv.
Qed.

Lemma step_floor c e s s' :
  (forall id, floor_ok (valueDataOf s id)) ->
  step c e s = Ok s' ->
  forall id, floor_ok (valueDataOf s' id).
Proof.
  intros Hinv H. destruct c; simpl in H; unbind H.
  - unbind H as r Hr. injection H as <-. destruct r as [s1 tokenId].
    eapply mintValueNFT_floor; eassumption.
  - eapply updateValue_floor; eassumption.
  - unfold listNFT in H. do 4 unbind H. injection H as <-.
    unfold valueDataOf, set_valueData in *. simpl.
    apply floor_ok_written; [exact Hinv|]. apply floor_ok_set_listing, Hinv.
  - unfold unlistNFT in H. do 3 unbind H. injection H as <-.
    unfold valueDataOf, set_valueData in *. simpl.
    apply floor_ok_written; [exact Hinv|]. apply floor_ok_set_listing, Hinv.
  - assert (Hbuy : buyNFT tokenId e s = Ok s').
    { unfold buyNFT. rewrite E. exact H. }
    apply buyNFT_inv in Hbuy as (_ & _ & _ & _ & _ & Hdata & _).
    unfold valueDataOf in *. rewrite Hdata.
    apply floor_ok_written; [exact Hinv|]. apply floor_ok_set_listing, Hinv.
  - unfold updateMarketplaceFee in H. do 2 unbind H. injection H as <-. exact Hinv.
  - unfold updateFeeRecipient in H. do 2 unbind H. injection H as <-. exact Hinv.
  - unfold burn in H. do 2 unbind H. eapply _burn_floor; eassumption.
  - unfold transferFrom in H. do 2 unbind H.
    apply _transfer_inv in H as (_ & _ & _ & ->). exact Hinv.
Qed.

Lemma reachable_floor self t s :
  reachable self t s -> forall id, floor_ok (valueDataOf s id).
Proof.
  induction 1 as [admin minter oracle recipient chain_funds t Ht
                 | t s c e s' Hreach IH Hwt Henv Hstep].
  - intros id. unfold valueDataOf; simpl. rewrite lookup_empty.
    apply floor_ok_unset.
  - eapply step_floor; eassumption.
Qed.

(** C5. In every reachable state every value record has
    [currentValue >= initialValue / 10]: the floor holds for the record a
    mint creates, every successful call (a metric update among them) leads
    to a state where it holds again, and whatever [getCurrentValue]
    returns is at least [initialValue / 10]. *)
Theorem value_floor_invariant self t s :
  reachable self t s ->
  (forall tokenId,
     initialValue (valueDataOf s tokenId) / 10 <= currentValue (valueDataOf s tokenId)) /\
  (forall c e s', step c e s = Ok s' ->
     forall tokenId,
       initialValue (valueDataOf s' tokenId) / 10
       <= currentValue (valueDataOf s' tokenId)) /\
  (forall tokenId e v, getCurrentValue tokenId e s = Ok v ->
     initialValue (valueDataOf s tokenId) / 10 <= v).
Proof.
  intros Hreach. pose proof (reachable_floor _ _ _ Hreach) as Hinv.
  split; [exact Hinv|]. split.
  - intros c e s' Hstep. exact (step_floor c e s s' Hinv Hstep).
  - intros tokenId e v H. unfold getCurrentValue in H. unbind H.
    apply _calculateValue_floor in H. exact H.
Qed.

Lemma value_floor_invariant_witness :
  initialValue (valueDataOf listed 0) / 10 <= currentValue (valueDataOf listed 0) /\
  initialValue (valueDataOf listed 0) / 10 <= ether / 10 /\
  getCurrentValue 0 (days_later 3) listed = Ok (ether / 10).
Proof.
  destruct (value_floor_invariant self 2000 listed listed_reachable)
    as (Hstored & _ & Hquery).
  assert (Hq : getCurrentValue 0 (days_later 3) listed = Ok (ether / 10))
    by (vm_compute; reflexivity).
  split; [apply Hstored|]. split; [exact (Hquery 0 _ _ Hq) | exact Hq].
Defined.

End NFTClaims.

(** ** BuildingBrillianceToken: further properties *)

Module TokenExtra.
Import Token TokenSpec TokenFacts TokenRun.

(** *** Balances under the ERC20 internals *)

Lemma _transfer_balance from to amt s s' a :
  _transfer from to amt s = Ok s' ->
  balanceOf s' a = balanceOf s a + moved from to amt a.
Proof.
  unfold _transfer, _beforeTokenTransfer. intros H. do 4 unbind H.
  injection H as <-. unfold moved, balanceOf; simpl. rewrite !lookup_insert.
  repeat case_decide; subst; simpl; try congruence; lia.
Qed.

Lemma _transfer_supply from to amt s s' :
  _transfer from to amt s = Ok s' -> supply s' = supply s /\ paused s' = paused s.
Proof.
  unfold _transfer, _beforeTokenTransfer. intros H. do 4 unbind H.
  injection H as <-. split; reflexivity.
Qed.

Lemma _mint_unpaused account amt s s' : _mint account amt s = Ok s' -> paused s = false.
Proof.
  unfold _mint, _beforeTokenTransfer. intros H. do 2 unbind H. arith_inv.
  assumption.
Qed.

Lemma _burn_unpaused account amt s s' : _burn account amt s = Ok s' -> paused s = false.
Proof.
  unfold _burn, _beforeTokenTransfer. intros H. do 2 unbind H. arith_inv.
  assumption.
Qed.

Lemma _updateRewards_frame user e s s' :
  _updateRewards user e s = Ok s' ->
  balances s' = balances s /\ supply s' = supply s /\ paused s' = paused s /\
  totalStaked s' = totalStaked s /\ rewardPool s' = rewardPool s /\
  rewardRate s' = rewardRate s /\ members s' = members s.
Proof.
  intros H. apply _updateRewards_inv in H as [[_ ->]|(_ & r & _ & _ & ->)];
    repeat split; reflexivity.
Qed.

(** *** The supply cap *)

Lemma step_supply c e s s' :
  well_typed c = true -> step c e s = Ok s' ->
  supply s <= MAX_SUPPLY -> supply s' <= MAX_SUPPLY.
Proof.
  intros Hwt H Hcap. destruct c; simpl in H, Hwt; arith_inv.
  - unfold mint in H. unbind H. unbind H as total Ht. unbind H.
    unfold _mint in H. do 2 unbind H. unbind H as sup Hs. injection H as <-.
    arith_inv. simpl. assumption.
  - unfold pause in H. do 2 unbind H. by injection H as <-.
  - unfold unpause in H. do 2 unbind H. by injection H as <-.
  - unfold stake in H. do 4 unbind H. unbind H as s1 Hs1. unbind H as s2 Hs2.
    do 2 unbind H. injection H as <-. simpl.
    apply _transfer_supply in Hs2 as [-> _].
    apply _updateRewards_frame in Hs1 as (_ & -> & _). assumption.
  - unfold unstake in H. do 3 unbind H. unbind H as s1 Hs1. unbind H as s2 Hs2.
    do 2 unbind H. apply _transfer_supply in H as [-> _]. simpl.
    apply _updateRewards_frame in Hs1 as (_ & Hsup & _).
    apply _claimRewards_inv in Hs2 as [[_ ->]|(_ & Hs2)]; [lia|].
    apply _transfer_supply in Hs2 as [-> _]. simpl. lia.
  - unfold claimRewards in H. unbind H as s1 Hs1.
    apply _updateRewards_frame in Hs1 as (_ & Hsup & _).
    apply _claimRewards_inv in H as [[_ ->]|(_ & H)]; [lia|].
    apply _transfer_supply in H as [-> _]. simpl. lia.
  - unfold distributeRewards in H. do 2 unbind H. unbind H as s1 Hs1. unbind H.
    injection H as <-. simpl. apply _transfer_supply in Hs1 as [-> _]. assumption.
  - unfold updateRewardRate in H. do 2 unbind H. by injection H as <-.
  - unfold emergencyWithdraw, whenPaused in H. do 2 unbind H.
    destruct (0 <? balanceOf s (this e)).
    + apply _transfer_supply in H as [-> _]. assumption.
    + by injection H as <-.
  - apply _transfer_supply in H as [-> _]. assumption.
  - unfold burn, _burn in H. do 3 unbind H. injection H as <-. simpl. lia.
Qed.

(** X1. The total supply never exceeds [MAX_SUPPLY]: it starts at
    [INITIAL_SUPPLY], only [mint] raises it, and a [mint] by the minter that
    would pass the cap reverts with "Exceeds max supply". *)
Theorem supply_never_exceeds_cap self t s :
  reachable self t s ->
  supply s <= MAX_SUPPLY /\
  (forall to amt e,
     hasRole s MINTER_ROLE (msg_sender e) = true ->
     MAX_SUPPLY < supply s + amt <= MAX_UINT256 ->
     mint to amt e s = Err (Revert "Exceeds max supply")).
Proof.
  intros Hreach. split.
  - induction Hreach as [admin minter rewardsManager e s Henv Hc
                        | t s c e s' Hreach IH Hwt Henv Hstep].
    + unfold constructor in Hc. unbind Hc as s1 Hs1. injection Hc as <-.
      unfold _mint in Hs1. do 2 unbind Hs1. unbind Hs1 as sup Hsup.
      injection Hs1 as <-. arith_inv. simpl. vm_compute. congruence.
    + eapply step_supply; eassumption.
  - intros to amt e Hrole [Hover Hfits]. unfold mint, onlyRole.
    rewrite Hrole. simpl require. run. rewrite add_Ok by exact Hfits. run.
    rewrite require_false; [reflexivity | apply Z.leb_gt; exact Hover].
Qed.

Lemma supply_never_exceeds_cap_witness :
  supply staked = INITIAL_SUPPLY /\ supply staked <= MAX_SUPPLY /\
  mint bob (MAX_SUPPLY - INITIAL_SUPPLY + 1) (at_time minter 2000) staked
  = Err (Revert "Exceeds max supply").
Proof.
  destruct (supply_never_exceeds_cap self 1000 staked TokenClaims.staked_reachable)
    as [Hcap Hmint].
  split; [vm_compute; reflexivity|]. split; [exact Hcap|].
  apply Hmint; [vm_compute; reflexivity|]. vm_compute. split; congruence.
Defined.

(** *** What settlement and payout leave behind *)

Lemma _updateRewards_reads user e s s1 :
  0 <= amount (stakeOf s user) ->
  _updateRewards user e s = Ok s1 ->
  rewardOf s1 user = rewardOf s user + accrual s user (block_timestamp e) /\
  pendingRewards user e s = Ok (rewardOf s1 user) /\
  amount (stakeOf s1 user) = amount (stakeOf s user) /\
  lockPeriod (stakeOf s1 user) = lockPeriod (stakeOf s user) /\
  rewardDebt (stakeOf s1 user) = rewardDebt (stakeOf s user) /\
  (forall a, a <> user -> rewardOf s1 a = rewardOf s a /\ stakeOf s1 a = stakeOf s a).
Proof.
  intros Hamt H. unfold pendingRewards.
  apply _updateRewards_inv in H as [[Hz ->]|(Hpos & r & Hr & Hmax & ->)].
  - assert (Hzero : amount (stakeOf s user) = 0) by lia.
    rewrite TokenClaims.accrual_zero by exact Hzero. rewrite Hzero. simpl.
    repeat split; try reflexivity; lia.
  - destruct (Z.eqb_spec (amount (stakeOf s user)) 0) as [Hz|_]; [lia|].
    rewrite Hr. run. rewrite add_Ok by exact Hmax.
    apply accrued_inv in Hr as [-> _].
    rewrite TokenClaims.rewardOf_settled, TokenClaims.stakeOf_settled. simpl.
    unfold accrual. repeat split; try reflexivity.
    + unfold rewardOf; simpl. by rewrite lookup_insert_ne by congruence.
    + unfold stakeOf; simpl. by rewrite lookup_insert_ne by congruence.
Qed.

Lemma _claimRewards_reads e s s' :
  0 <= rewardOf s (msg_sender e) ->
  _claimRewards e s = Ok s' ->
  rewardOf s' (msg_sender e) = 0 /\
  (forall a, a <> msg_sender e -> rewardOf s' a = rewardOf s a) /\
  rewardPool s' = rewardPool s - rewardOf s (msg_sender e) /\
  (forall a, balanceOf s' a
             = balanceOf s a + moved (this e) (msg_sender e) (rewardOf s (msg_sender e)) a) /\
  stakes s' = stakes s /\ totalStaked s' = totalStaked s /\ paused s' = paused s.
Proof.
  intros Hpos H. apply _claimRewards_inv in H as [[Hz ->]|(Hr & H)].
  - assert (Hzero : rewardOf s (msg_sender e) = 0) by lia. rewrite Hzero.
    repeat split; try reflexivity; try lia.
    intros a. unfold moved. repeat case_decide; lia.
  - pose proof (_transfer_frame _ _ _ _ _ H) as (Hst & Hrw & Htot & _ & Hpool).
    pose proof (_transfer_supply _ _ _ _ _ H) as [_ Hpaused].
    simpl in *. unfold rewardOf at 1 2. rewrite Hrw.
    repeat split; try assumption.
    + by rewrite lookup_insert_eq.
    + intros a Ha. rewrite lookup_insert_ne by congruence. reflexivity.
    + intros a. rewrite (_transfer_balance _ _ _ _ _ a H). reflexivity.
Qed.

Lemma _transfer_Ok from to amt s :
  from <> 0 -> to <> 0 -> paused s = false -> amt <= balanceOf s from ->
  _transfer from to amt s
  = Ok (set_balance to
          (balanceOf (set_balance from (balanceOf s from - amt) s) to + amt)
          (set_balance from (balanceOf s from - amt) s)).
Proof.
  intros Hf Ht Hp Hb. unfold _transfer, _beforeTokenTransfer.
  rewrite (require_true (negb (from =? 0))) by (apply negb_true_iff, Z.eqb_neq, Hf).
  run.
  rewrite (require_true (negb (to =? 0))) by (apply negb_true_iff, Z.eqb_neq, Ht).
  run. rewrite Hp. simpl require. run.
  rewrite (require_true (amt <=? balanceOf s from)) by (apply Z.leb_le, Hb).
  reflexivity.
Qed.

(** *** stake *)

(** X2. [stake] checks its arguments in order: a zero amount, a lock period
    under 30 days, a lock period over 365 days and an amount above the
    caller's balance are rejected, each with its own message. With a
    positive amount within the balance, a lock period from 30 to 365 days,
    the token unpaused and the arithmetic in range, the call goes through. *)
Theorem stake_checks_amount_and_lock amt lock e s :
  (amt <= 0 -> stake amt lock e s = Err (Revert "Amount must be greater than 0")) /\
  (0 < amt -> lock < days 30 ->
   stake amt lock e s = Err (Revert "Minimum lock period is 30 days")) /\
  (0 < amt -> days 365 < lock ->
   stake amt lock e s = Err (Revert "Maximum lock period is 365 days")) /\
  (0 < amt -> days 30 <= lock <= days 365 -> balanceOf s (msg_sender e) < amt ->
   stake amt lock e s = Err (Revert "Insufficient balance")) /\
  (0 < amt -> days 30 <= lock <= days 365 -> amt <= balanceOf s (msg_sender e) ->
   paused s = false -> msg_sender e <> 0 -> this e <> 0 ->
   (exists s1, _updateRewards (msg_sender e) e s = Ok s1) ->
   amount (stakeOf s (msg_sender e)) + amt <= MAX_UINT256 ->
   totalStaked s + amt <= MAX_UINT256 ->
   exists s', stake amt lock e s = Ok s').
Proof.
  unfold stake. repeat apply conj.
  - intros H.
    rewrite (require_false (0 <? amt)); [reflexivity | apply Z.ltb_ge; exact H].
  - intros Ha Hl. rewrite (require_true (0 <? amt)) by (apply Z.ltb_lt; exact Ha).
    run. rewrite (require_false (days 30 <=? lock));
      [reflexivity | apply Z.leb_gt; exact Hl].
  - intros Ha Hl. rewrite (require_true (0 <? amt)) by (apply Z.ltb_lt; exact Ha).
    run.
    rewrite (require_true (days 30 <=? lock))
      by (apply Z.leb_le; unfold days in *; lia).
    run. rewrite (require_false (lock <=? days 365));
      [reflexivity | apply Z.leb_gt; exact Hl].
  - intros Ha [Hl1 Hl2] Hb.
    rewrite (require_true (0 <? amt)) by (apply Z.ltb_lt; exact Ha). run.
    rewrite (require_true (days 30 <=? lock)) by (apply Z.leb_le; exact Hl1). run.
    rewrite (require_true (lock <=? days 365)) by (apply Z.leb_le; exact Hl2). run.
    rewrite (require_false (amt <=? balanceOf s (msg_sender e)));
      [reflexivity | apply Z.leb_gt; exact Hb].
  - intros Ha [Hl1 Hl2] Hb Hp Hsender Hthis [s1 Hs1] Hfit Htot.
    rewrite (require_true (0 <? amt)) by (apply Z.ltb_lt; exact Ha). run.
    rewrite (require_true (days 30 <=? lock)) by (apply Z.leb_le; exact Hl1). run.
    rewrite (require_true (lock <=? days 365)) by (apply Z.leb_le; exact Hl2). run.
    rewrite (require_true (amt <=? balanceOf s (msg_sender e)))
      by (apply Z.leb_le; exact Hb).
    run. rewrite Hs1. run.
    pose proof (_updateRewards_frame _ _ _ _ Hs1)
      as (Hbal & _ & Hpaused & Htotal & _).
    assert (Hamount : amount (stakeOf s1 (msg_sender e))
                      = amount (stakeOf s (msg_sender e))).
    { apply _updateRewards_inv in Hs1 as [[_ ->]|(_ & r & _ & _ & ->)];
        [reflexivity|]. by rewrite TokenClaims.stakeOf_settled. }
    assert (Hb1 : amt <= balanceOf s1 (msg_sender e)).
    { unfold balanceOf. rewrite Hbal. exact Hb. }
    rewrite _transfer_Ok; try assumption; [|congruence]. run.
    match goal with
    | |- context [add (amount (stakeOf ?x (msg_sender e))) amt] =>
        change (stakeOf x (msg_sender e)) with (stakeOf s1 (msg_sender e))
    end.
    rewrite Hamount, add_Ok by exact Hfit. run. simpl totalStaked.
    rewrite Htotal, add_Ok by exact Htot. run. eauto.
Qed.

Lemma stake_checks_amount_and_lock_witness :
  stake 500 (days 29) (at_time admin 1000) deployed
  = Err (Revert "Minimum lock period is 30 days") /\
  stake 500 (days 366) (at_time admin 1000) deployed
  = Err (Revert "Maximum lock period is 365 days") /\
  stake 500 (days 30) (at_time bob 1000) deployed
  = Err (Revert "Insufficient balance") /\
  exists s', stake 500 (days 30) (at_time admin 1000) deployed = Ok s'.
Proof.
  split; [|split; [|split]].
  - apply stake_checks_amount_and_lock; vm_compute; congruence.
  - apply stake_checks_amount_and_lock; vm_compute; congruence.
  - apply stake_checks_amount_and_lock; vm_compute; try split; congruence.
  - apply stake_checks_amount_and_lock;
      try (vm_compute; try split; congruence).
    eexists. vm_compute. reflexivity.
Defined.

Import TokenFundedRun.

Lemma funded_staked_reachable : reachable self 1000 funded_staked.
Proof.
  assert (Henv : forall a, a <> 0 -> valid_env self 1000 (at_time a 1000)).
  { intros a Ha. unfold valid_env; simpl. repeat split; vm_compute; congruence. }
  apply (reachable_step self 1000 funded (StakeTokens 500 (days 30))
           (at_time admin 1000) funded_staked);
    [| reflexivity | apply Henv; vm_compute; congruence | vm_compute; reflexivity].
  apply (reachable_step self 1000 handed (DistributeRewards 100)
           (at_time manager 1000) funded);
    [| reflexivity | apply Henv; vm_compute; congruence | vm_compute; reflexivity].
  apply (reachable_step self 1000 deployed (Transfer manager 1000)
           (at_time admin 1000) handed TokenClaims.deployed_reachable);
    [reflexivity | apply Henv; vm_compute; congruence | vm_compute; reflexivity].
Qed.

Lemma moved_add from to x y a :
  moved from to x a + moved from to y a = moved from to (x + y) a.
Proof. unfold moved. repeat case_decide; lia. Qed.

(** X3. A successful [stake] moves exactly [amount] tokens from the caller
    to the contract, adds it to the caller's stake and to [totalStaked],
    stamps the stake with the block time and the new lock period, and
    credits the caller with the reward pending on the old stake. Other
    accounts' stakes and rewards, and the pool, are untouched. *)
Theorem stake_moves_tokens_into_custody amt lock e s s' :
  0 <= amount (stakeOf s (msg_sender e)) ->
  stake amt lock e s = Ok s' ->
  stakeOf s' (msg_sender e)
  = mkStake (amount (stakeOf s (msg_sender e)) + amt) (block_timestamp e)
            (rewardDebt (stakeOf s (msg_sender e))) lock /\
  totalStaked s' = totalStaked s + amt /\
  (forall a, balanceOf s' a
             = balanceOf s a + moved (msg_sender e) (this e) amt a) /\
  rewardPool s' = rewardPool s /\
  pendingRewards (msg_sender e) e s = Ok (rewardOf s' (msg_sender e)) /\
  (forall a, a <> msg_sender e ->
     stakeOf s' a = stakeOf s a /\ rewardOf s' a = rewardOf s a).
Proof.
  intros Hamt H. unfold stake in H. do 4 unbind H.
  unbind H as s1 Hs1. unbind H as s2 Hs2. do 2 unbind H. injection H as <-.
  pose proof (_updateRewards_reads _ _ _ _ Hamt Hs1)
    as (_ & Hpending & Ha & _ & Hdebt & Hother).
  pose proof (_updateRewards_frame _ _ _ _ Hs1) as (Hbal & _ & _ & Htot & Hpool & _).
  pose proof (_transfer_frame _ _ _ _ _ Hs2) as (Hst & Hrw & Htot2 & _ & Hpool2).
  assert (Hstake : forall a, stakeOf s2 a = stakeOf s1 a).
  { intros a. unfold stakeOf. by rewrite Hst. }
  assert (Hreward : forall a, rewardOf s2 a = rewardOf s1 a).
  { intros a. unfold rewardOf. by rewrite Hrw. }
  arith_inv. rewrite TokenClaims.stakeOf_written. simpl.
  rewrite !Hstake, Ha, Hdebt, Htot2, Htot, Hpool2, Hpool.
  repeat split; try reflexivity.
  - intros a.
    change (balanceOf (set_totalStaked _ (set_stake _ _ s2)) a)
      with (balanceOf s2 a).
    rewrite (_transfer_balance _ _ _ _ _ a Hs2).
    unfold balanceOf. by rewrite Hbal.
  - change (rewardOf (set_totalStaked _ (set_stake _ _ s2)) (msg_sender e))
      with (rewardOf s2 (msg_sender e)).
    rewrite Hreward. exact Hpending.
  - unfold stakeOf at 1; simpl. rewrite lookup_insert_ne by congruence.
    fold (stakeOf s2 a). rewrite Hstake. by apply Hother.
  - change (rewardOf s2 a = rewardOf s a). rewrite Hreward. by apply Hother.
Qed.

Lemma stake_moves_tokens_into_custody_witness :
  amount (stakeOf staked admin) = 500 /\ totalStaked staked = 500 /\
  balanceOf staked self = 500 /\
  balanceOf staked admin = INITIAL_SUPPLY - 500.
Proof.
  assert (Hamt : 0 <= amount (stakeOf deployed (msg_sender (at_time admin 1000))))
    by (vm_compute; congruence).
  destruct (stake_moves_tokens_into_custody 500 (days 30) (at_time admin 1000)
              deployed staked Hamt TokenClaims.staked_step)
    as (Hstake & Htotal & Hbal & _).
  cbn [msg_sender this at_time] in Hstake, Hbal.
  split; [rewrite Hstake; reflexivity|]. split; [rewrite Htotal; reflexivity|].
  split; rewrite Hbal; vm_compute; reflexivity.
Defined.

(** X4. A successful [claimRewards] pays the caller exactly what
    [pendingRewards] reported for the same block: that amount leaves the
    pool and the contract's balance, reaches the caller, and the caller's
    reward balance is zero afterwards. Staked amounts and other accounts'
    rewards are untouched. *)
Theorem claimRewards_pays_pending e s s' :
  invariant s ->
  claimRewards e s = Ok s' ->
  exists v,
    pendingRewards (msg_sender e) e s = Ok v /\
    0 <= v <= rewardPool s /\
    rewardOf s' (msg_sender e) = 0 /\
    rewardPool s' = rewardPool s - v /\
    (forall a, balanceOf s' a = balanceOf s a + moved (this e) (msg_sender e) v a) /\
    totalStaked s' = totalStaked s /\
    (forall a, amount (stakeOf s' a) = amount (stakeOf s a)) /\
    (forall a, a <> msg_sender e -> rewardOf s' a = rewardOf s a).
Proof.
  intros Hinv H. unfold claimRewards in H. unbind H as s1 Hs1.
  pose proof (_updateRewards_invariant _ _ _ _ Hinv Hs1) as Hinv1.
  pose proof (_updateRewards_reads _ _ _ _ (inv_amounts s Hinv _) Hs1)
    as (_ & Hpending & Ha & _ & _ & Hother).
  pose proof (_updateRewards_frame _ _ _ _ Hs1) as (Hbal & _ & _ & Htot & Hpool & _).
  pose proof (_claimRewards_reads _ _ _ (inv_rewards s1 Hinv1 _) H)
    as (Hzero & Hrest & Hpaid & Hmoved & Hst & Htot' & _).
  pose proof (inv_pool s' (_claimRewards_invariant _ _ _ Hinv1 H)) as Hpool'.
  exists (rewardOf s1 (msg_sender e)).
  split; [exact Hpending|]. split.
  { split; [apply (inv_rewards s1 Hinv1)|]. lia. }
  split; [exact Hzero|]. split; [lia|]. split.
  { intros a. rewrite Hmoved. unfold balanceOf. by rewrite Hbal. }
  split; [lia|]. split.
  - intros a. unfold stakeOf at 1. rewrite Hst. fold (stakeOf s1 a).
    destruct (decide (a = msg_sender e)) as [->|Hne]; [exact Ha|].
    by destruct (Hother a Hne) as [_ ->].
  - intros a Hne. rewrite (Hrest a Hne). by apply Hother.
Qed.

Lemma claimRewards_pays_pending_witness :
  exists s',
    claimRewards a_year_later funded_staked = Ok s' /\
    rewardPool funded_staked = 100 /\ rewardPool s' = 95 /\
    balanceOf s' admin = balanceOf funded_staked admin + 5 /\
    rewardOf s' admin = 0.
Proof.
  pose proof (reachable_invariant _ _ _ funded_staked_reachable) as Hinv.
  destruct (claimRewards a_year_later funded_staked) as [s'|err] eqn:Hclaim;
    [|vm_compute in Hclaim; discriminate].
  destruct (claimRewards_pays_pending a_year_later funded_staked s' Hinv Hclaim)
    as (v & Hv & _ & Hzero & Hpool & Hbal & _).
  assert (v = 5) as -> by (vm_compute in Hv; congruence).
  exists s'. split; [reflexivity|]. split; [vm_compute; reflexivity|].
  split; [rewrite Hpool; vm_compute; reflexivity|].
  split; [rewrite Hbal; vm_compute; reflexivity | exact Hzero].
Defined.

(** X5. A successful [unstake] was made after the unlock time for an amount
    within the stake; it returns that amount together with the pending
    reward to the caller, out of the contract's balance, takes the amount
    off the stake and off [totalStaked] and the reward off the pool, and
    leaves the caller's reward balance at zero. *)
Theorem unstake_returns_principal_and_reward amt e s s' :
  invariant s ->
  unstake amt e s = Ok s' ->
  exists v,
    pendingRewards (msg_sender e) e s = Ok v /\
    0 <= v <= rewardPool s /\
    amt <= amount (stakeOf s (msg_sender e)) /\
    unlockTime s (msg_sender e) <= block_timestamp e /\
    amount (stakeOf s' (msg_sender e)) = amount (stakeOf s (msg_sender e)) - amt /\
    lockPeriod (stakeOf s' (msg_sender e)) = lockPeriod (stakeOf s (msg_sender e)) /\
    totalStaked s' = totalStaked s - amt /\
    rewardOf s' (msg_sender e) = 0 /\
    rewardPool s' = rewardPool s - v /\
    (forall a, balanceOf s' a
               = balanceOf s a + moved (this e) (msg_sender e) (amt + v) a).
Proof.
  intros Hinv H. unfold unstake in H. do 3 unbind H.
  unbind H as s1 Hs1. unbind H as s2 Hs2. do 2 unbind H.
  pose proof (_updateRewards_invariant _ _ _ _ Hinv Hs1) as Hinv1.
  pose proof (_updateRewards_reads _ _ _ _ (inv_amounts s Hinv _) Hs1)
    as (_ & Hpending & Ha & Hlock & _ & _).
  pose proof (_updateRewards_frame _ _ _ _ Hs1) as (Hbal & _ & _ & Htot & Hpool & _).
  pose proof (_claimRewards_reads _ _ _ (inv_rewards s1 Hinv1 _) Hs2)
    as (Hzero & _ & Hpaid & Hmoved & Hst & Htot' & _).
  pose proof (inv_pool s2 (_claimRewards_invariant _ _ _ Hinv1 Hs2)) as Hpool2.
  pose proof (_transfer_frame _ _ _ _ _ H) as (Hst3 & Hrw3 & Htot3 & _ & Hpool3).
  assert (Hstake2 : stakeOf s2 (msg_sender e) = stakeOf s1 (msg_sender e)).
  { unfold stakeOf. by rewrite Hst. }
  arith_inv. simpl in *.
  exists (rewardOf s1 (msg_sender e)).
  split; [exact Hpending|]. split.
  { split; [apply (inv_rewards s1 Hinv1)|]. lia. }
  split; [assumption|]. split; [assumption|].
  assert (Hfinal : stakeOf s' (msg_sender e)
                   = mkStake (amount (stakeOf s2 (msg_sender e)) - amt)
                       (timestamp (stakeOf s2 (msg_sender e)))
                       (rewardDebt (stakeOf s2 (msg_sender e)))
                       (lockPeriod (stakeOf s2 (msg_sender e)))).
  { unfold stakeOf at 1. rewrite Hst3, lookup_insert_eq. reflexivity. }
  rewrite Hfinal, Hstake2. simpl.
  split; [lia|]. split; [lia|]. split; [lia|]. split.
  { unfold rewardOf. rewrite Hrw3. exact Hzero. }
  split; [lia|].
  intros a. rewrite (_transfer_balance _ _ _ _ _ a H).
  change (balanceOf (set_totalStaked _ (set_stake _ _ s2)) a) with (balanceOf s2 a).
  assert (Hb : balanceOf s1 a = balanceOf s a).
  { unfold balanceOf. by rewrite Hbal. }
  rewrite Hmoved, Hb, <- moved_add. lia.
Qed.

Lemma unstake_returns_principal_and_reward_witness :
  exists s',
    unstake 500 a_year_later funded_staked = Ok s' /\
    balanceOf s' admin = balanceOf funded_staked admin + 505 /\
    balanceOf s' self = 95 /\ totalStaked s' = 0 /\ rewardPool s' = 95.
Proof.
  pose proof (reachable_invariant _ _ _ funded_staked_reachable) as Hinv.
  destruct (unstake 500 a_year_later funded_staked) as [s'|err] eqn:Hun;
    [|vm_compute in Hun; discriminate].
  destruct (unstake_returns_principal_and_reward 500 a_year_later funded_staked
              s' Hinv Hun)
    as (v & Hv & _ & _ & _ & _ & _ & Htot & _ & Hpool & Hbal).
  assert (v = 5) as -> by (vm_compute in Hv; congruence).
  exists s'. split; [reflexivity|].
  split; [rewrite Hbal; vm_compute; reflexivity|].
  split; [rewrite Hbal; vm_compute; reflexivity|].
  split; [rewrite Htot | rewrite Hpool]; vm_compute; reflexivity.
Defined.

(** *** Custody *)

Lemma _mint_balance account amt s s' a :
  _mint account amt s = Ok s' ->
  balanceOf s' a = balanceOf s a + (if decide (a = account) then amt else 0).
Proof.
  unfold _mint. intros H. do 3 unbind H. injection H as <-.
  unfold balanceOf; simpl. rewrite lookup_insert.
  repeat case_decide; subst; simpl; try congruence; lia.
Qed.

Lemma _burn_balance account amt s s' a :
  _burn account amt s = Ok s' ->
  balanceOf s' a = balanceOf s a - (if decide (a = account) then amt else 0).
Proof.
  unfold _burn. intros H. do 3 unbind H. injection H as <-.
  unfold balanceOf; simpl. rewrite lookup_insert.
  repeat case_decide; subst; simpl; try congruence; lia.
Qed.

Lemma emergencyWithdraw_inv e s s' : emergencyWithdraw e s = Ok s' -> s' = s.
Proof.
  unfold emergencyWithdraw, whenPaused. intros H. do 2 unbind H. arith_inv.
  destruct (0 <? balanceOf s (this e)).
  - apply _transfer_unpaused in H. congruence.
  - by injection H as <-.
Qed.

Lemma moved_out_of_custody from to amt a : a <> from -> 0 <= amt -> 0 <= moved from to amt a.
Proof. intros Hne Hamt. unfold moved. repeat case_decide; try congruence; lia. Qed.

Lemma step_backed c e s s' :
  invariant s -> well_typed c = true -> msg_sender e <> this e ->
  backed (this e) s -> step c e s = Ok s' -> backed (this e) s'.
Proof.
  unfold backed. intros Hinv Hwt Hext Hb H.
  destruct c; simpl in H, Hwt; arith_inv.
  - unfold mint in H. do 3 unbind H.
    pose proof (_mint_frame _ _ _ _ H) as (_ & _ & -> & _ & ->).
    rewrite (_mint_balance _ _ _ _ (this e) H). case_decide; lia.
  - unfold pause in H. do 2 unbind H. by injection H as <-.
  - unfold unpause in H. do 2 unbind H. by injection H as <-.
  - unfold stake in H. do 4 unbind H. unbind H as s1 Hs1. unbind H as s2 Hs2.
    do 2 unbind H. injection H as <-. arith_inv. simpl.
    change (balanceOf (set_totalStaked _ (set_stake _ _ s2)) (this e))
      with (balanceOf s2 (this e)).
    pose proof (_updateRewards_frame _ _ _ _ Hs1) as (Hbal & _ & _ & Htot & Hpool & _).
    pose proof (_transfer_frame _ _ _ _ _ Hs2) as (_ & _ & -> & _ & ->).
    rewrite (_transfer_balance _ _ _ _ _ (this e) Hs2).
    unfold balanceOf at 1. rewrite Hbal. fold (balanceOf s (this e)).
    unfold moved. repeat case_decide; try congruence; lia.
  - unfold unstake in H. do 3 unbind H. unbind H as s1 Hs1. unbind H as s2 Hs2.
    do 2 unbind H. arith_inv.
    pose proof (_updateRewards_invariant _ _ _ _ Hinv Hs1) as Hinv1.
    pose proof (_updateRewards_frame _ _ _ _ Hs1) as (Hbal & _ & _ & Htot & Hpool & _).
    pose proof (_claimRewards_reads _ _ _ (inv_rewards s1 Hinv1 _) Hs2)
      as (_ & _ & Hpaid & Hmoved & _ & Htot' & _).
    pose proof (_transfer_frame _ _ _ _ _ H) as (_ & _ & Htot3 & _ & Hpool3).
    simpl in Htot3, Hpool3. rewrite Htot3, Hpool3.
    rewrite (_transfer_balance _ _ _ _ _ (this e) H).
    change (balanceOf (set_totalStaked _ (set_stake _ _ s2)) (this e))
      with (balanceOf s2 (this e)).
    rewrite Hmoved. unfold balanceOf at 1. rewrite Hbal. fold (balanceOf s (this e)).
    unfold moved. repeat case_decide; try congruence; lia.
  - unfold claimRewards in H. unbind H as s1 Hs1.
    pose proof (_updateRewards_invariant _ _ _ _ Hinv Hs1) as Hinv1.
    pose proof (_updateRewards_frame _ _ _ _ Hs1) as (Hbal & _ & _ & Htot & Hpool & _).
    pose proof (_claimRewards_reads _ _ _ (inv_rewards s1 Hinv1 _) H)
      as (_ & _ & -> & Hmoved & _ & -> & _).
    rewrite Hmoved. unfold balanceOf at 1. rewrite Hbal. fold (balanceOf s (this e)).
    unfold moved. repeat case_decide; try congruence; lia.
  - unfold distributeRewards in H. do 2 unbind H. unbind H as s1 Hs1. unbind H.
    injection H as <-. arith_inv. simpl.
    change (balanceOf (set_lastRewardDistribution _ (set_rewardPool _ s1)) (this e))
      with (balanceOf s1 (this e)).
    pose proof (_transfer_frame _ _ _ _ _ Hs1) as (_ & _ & -> & _ & ->).
    rewrite (_transfer_balance _ _ _ _ _ (this e) Hs1).
    unfold moved. repeat case_decide; try congruence; lia.
  - unfold updateRewardRate in H. do 2 unbind H. by injection H as <-.
  - by apply emergencyWithdraw_inv in H as ->.
  - unfold transfer in H.
    pose proof (_transfer_frame _ _ _ _ _ H) as (_ & _ & -> & _ & ->).
    rewrite (_transfer_balance _ _ _ _ _ (this e) H).
    pose proof (moved_out_of_custody (msg_sender e) to amt (this e)). lia.
  - unfold burn in H.
    pose proof (_burn_frame _ _ _ _ H) as (_ & _ & -> & _ & ->).
    rewrite (_burn_balance _ _ _ _ (this e) H).
    rewrite decide_False by congruence. lia.
Qed.

(** X6. The tokens held by the contract always cover the staked principal
    plus the reward pool: this holds after deployment and is kept by every
    successful call made by an account other than the contract itself. *)
Theorem custody_covers_stakes_and_pool :
  (forall admin minter rewardsManager e s,
     constructor admin minter rewardsManager e = Ok s -> backed (this e) s) /\
  (forall c e s s',
     invariant s -> well_typed c = true -> msg_sender e <> this e ->
     backed (this e) s -> step c e s = Ok s' -> backed (this e) s').
Proof.
  split; [|exact step_backed].
  intros admin minter rewardsManager e s H. unfold constructor in H.
  unbind H as s1 Hs1. injection H as <-. unfold backed.
  change (balanceOf (set_lastRewardDistribution _ s1) (this e))
    with (balanceOf s1 (this e)).
  pose proof (_mint_frame _ _ _ _ Hs1) as (_ & _ & Htot & _ & Hpool).
  simpl in *. rewrite Htot, Hpool, (_mint_balance _ _ _ _ (this e) Hs1).
  unfold balanceOf; simpl. rewrite lookup_empty. simpl.
  case_decide; vm_compute; congruence.
Qed.

Lemma custody_covers_stakes_and_pool_witness :
  totalStaked funded_staked + rewardPool funded_staked = 600 /\
  backed self funded_staked.
Proof.
  split; [vm_compute; reflexivity|].
  destruct custody_covers_stakes_and_pool as [Hdeploy Hstep].
  assert (H0 : backed self deployed)
    by exact (Hdeploy _ _ _ _ _ TokenClaims.deployed_constructed).
  assert (H1 : backed self handed).
  { apply (Hstep (Transfer manager 1000) (at_time admin 1000) deployed handed);
      try assumption; try (vm_compute; congruence).
    exact (reachable_invariant _ _ _ TokenClaims.deployed_reachable). }
  assert (H2 : backed self funded).
  { apply (Hstep (DistributeRewards 100) (at_time manager 1000) handed funded);
      try assumption; try (vm_compute; congruence).
    apply (step_invariant (Transfer manager 1000) (at_time admin 1000) deployed);
      [reflexivity | | vm_compute; reflexivity].
    exact (reachable_invariant _ _ _ TokenClaims.deployed_reachable). }
  apply (Hstep (StakeTokens 500 (days 30)) (at_time admin 1000) funded funded_staked);
    try assumption; try (vm_compute; congruence).
  apply (step_invariant (DistributeRewards 100) (at_time manager 1000) handed);
    [reflexivity | | vm_compute; reflexivity].
  apply (step_invariant (Transfer manager 1000) (at_time admin 1000) deployed);
    [reflexivity | | vm_compute; reflexivity].
  exact (reachable_invariant _ _ _ TokenClaims.deployed_reachable).
Defined.

(** *** Pause *)

(** X7. While the token is paused no token moves and no amount of the
    staking ledger changes: [mint], [pause], [stake], [unstake],
    [distributeRewards], [transfer] and [burn] fail, and a call that does
    succeed (an [unpause], an [updateRewardRate], an [emergencyWithdraw]
    that finds nothing to move, a [claimRewards] with nothing to pay)
    leaves every balance, the supply, [totalStaked], the pool, every staked
    amount and every reward balance as they were. *)
Theorem paused_token_freezes_amounts c e s s' :
  invariant s -> paused s = true -> step c e s = Ok s' ->
  needs_unpaused c = false /\
  balances s' = balances s /\ supply s' = supply s /\
  totalStaked s' = totalStaked s /\ rewardPool s' = rewardPool s /\
  (forall a, amount (stakeOf s' a) = amount (stakeOf s a) /\
             lockPeriod (stakeOf s' a) = lockPeriod (stakeOf s a) /\
             rewardOf s' a = rewardOf s a).
Proof.
  intros Hinv Hp H. destruct c; simpl in H.
  - unfold mint in H. do 3 unbind H. apply _mint_unpaused in H. congruence.
  - unfold pause in H. do 2 unbind H. arith_inv. congruence.
  - unfold unpause in H. do 2 unbind H. injection H as <-. simpl. auto 10.
  - unfold stake in H. do 4 unbind H. unbind H as s1 Hs1. unbind H as s2 Hs2.
    apply _transfer_unpaused in Hs2.
    apply _updateRewards_frame in Hs1 as (_ & _ & Hp1 & _). congruence.
  - unfold unstake in H. do 3 unbind H. unbind H as s1 Hs1. unbind H as s2 Hs2.
    do 2 unbind H. apply _transfer_unpaused in H. simpl in H.
    pose proof (_updateRewards_invariant _ _ _ _ Hinv Hs1) as Hinv1.
    apply _updateRewards_frame in Hs1 as (_ & _ & Hp1 & _).
    apply (_claimRewards_reads _ _ _ (inv_rewards s1 Hinv1 _)) in Hs2
      as (_ & _ & _ & _ & _ & _ & Hp2).
    congruence.
  - unfold claimRewards in H. unbind H as s1 Hs1.
    pose proof (_updateRewards_frame _ _ _ _ Hs1)
      as (Hbal & Hsup & Hp1 & Htot & Hpool & _).
    apply _claimRewards_inv in H as [[Hz ->]|(_ & H)].
    + split; [auto|]. repeat split; try assumption.
      * destruct (decide (a = msg_sender e)) as [->|Hne].
        -- by apply (_updateRewards_reads _ _ _ _ (inv_amounts s Hinv _) Hs1).
        -- by destruct (proj2 (proj2 (proj2 (proj2 (proj2
                (_updateRewards_reads _ _ _ _ (inv_amounts s Hinv _) Hs1))))) a Hne)
             as [_ ->].
      * destruct (decide (a = msg_sender e)) as [->|Hne].
        -- by apply (_updateRewards_reads _ _ _ _ (inv_amounts s Hinv _) Hs1).
        -- by destruct (proj2 (proj2 (proj2 (proj2 (proj2
                (_updateRewards_reads _ _ _ _ (inv_amounts s Hinv _) Hs1))))) a Hne)
             as [_ ->].
      * destruct (decide (a = msg_sender e)) as [->|Hne].
        -- pose proof (inv_rewards s Hinv (msg_sender e)) as Hr.
           pose proof (inv_amounts s Hinv (msg_sender e)) as Ha.
           apply _updateRewards_inv in Hs1 as [[_ ->]|(_ & r & Hacc & _ & ->)];
             [reflexivity|].
           pose proof (accrued_nonneg _ _ _ _ Ha (inv_rate s Hinv) Hacc).
           rewrite TokenClaims.rewardOf_settled in *. lia.
        -- by apply (_updateRewards_reads _ _ _ _ (inv_amounts s Hinv _) Hs1).
    + apply _transfer_unpaused in H. simpl in H. congruence.
  - unfold distributeRewards in H. do 2 unbind H. unbind H as s1 Hs1.
    apply _transfer_unpaused in Hs1. congruence.
  - unfold updateRewardRate in H. do 2 unbind H. injection H as <-. simpl.
    split; [eauto 10|]. auto 10.
  - apply emergencyWithdraw_inv in H as ->. auto 10.
  - apply _transfer_unpaused in H. congruence.
  - apply _burn_unpaused in H. congruence.
Qed.

Lemma paused_token_freezes_amounts_witness :
  paused staked_paused = true /\
  (exists s', step ClaimRewards (at_time admin 2000) staked_paused = Ok s' /\
              balances s' = balances staked_paused /\
              rewardOf s' admin = rewardOf staked_paused admin) /\
  step (StakeTokens 500 (days 30)) (at_time admin 2000) staked_paused
  = Err (Revert "ERC20Pausable: token transfer while paused").
Proof.
  split; [reflexivity|]. split; [|vm_compute; reflexivity].
  pose proof (reachable_invariant _ _ _ TokenClaims.staked_paused_reachable) as Hinv.
  destruct (step ClaimRewards (at_time admin 2000) staked_paused) as [s'|err] eqn:Hc;
    [|vm_compute in Hc; discriminate].
  destruct (paused_token_freezes_amounts ClaimRewards (at_time admin 2000)
              staked_paused s' Hinv eq_refl Hc)
    as (_ & Hbal & _ & _ & _ & Hrest).
  exists s'. split; [reflexivity|]. split; [exact Hbal | apply Hrest].
Defined.

(** *** The reward rate and the pool *)

Lemma _claimRewards_rate e s s' :
  _claimRewards e s = Ok s' -> rewardRate s' = rewardRate s.
Proof.
  intros H. apply _claimRewards_inv in H as [[_ ->]|(_ & H)]; [reflexivity|].
  by apply _transfer_frame in H as (_ & _ & _ & -> & _).
Qed.

Lemma step_rate c e s s' :
  step c e s = Ok s' ->
  rewardRate s' = rewardRate s \/
  (exists newRate, c = UpdateRewardRate newRate /\ rewardRate s' = newRate /\
                   newRate <= 2000).
Proof.
  intros H. destruct c; simpl in H.
  - left. unfold mint in H. do 3 unbind H.
    by apply _mint_frame in H as (_ & _ & _ & -> & _).
  - left. unfold pause in H. do 2 unbind H. by injection H as <-.
  - left. unfold unpause in H. do 2 unbind H. by injection H as <-.
  - left. unfold stake in H. do 4 unbind H. unbind H as s1 Hs1. unbind H as s2 Hs2.
    do 2 unbind H. injection H as <-. simpl.
    apply _transfer_frame in Hs2 as (_ & _ & _ & -> & _).
    by apply _updateRewards_frame in Hs1 as (_ & _ & _ & _ & _ & -> & _).
  - left. unfold unstake in H. do 3 unbind H. unbind H as s1 Hs1.
    unbind H as s2 Hs2. do 2 unbind H.
    apply _transfer_frame in H as (_ & _ & _ & -> & _). simpl.
    rewrite (_claimRewards_rate _ _ _ Hs2).
    by apply _updateRewards_frame in Hs1 as (_ & _ & _ & _ & _ & -> & _).
  - left. unfold claimRewards in H. unbind H as s1 Hs1.
    rewrite (_claimRewards_rate _ _ _ H).
    by apply _updateRewards_frame in Hs1 as (_ & _ & _ & _ & _ & -> & _).
  - left. unfold distributeRewards in H. do 2 unbind H. unbind H as s1 Hs1.
    unbind H. injection H as <-. simpl.
    by apply _transfer_frame in Hs1 as (_ & _ & _ & -> & _).
  - right. unfold updateRewardRate in H. do 2 unbind H. injection H as <-.
    arith_inv. eauto.
  - left. by apply emergencyWithdraw_inv in H as ->.
  - left. by apply _transfer_frame in H as (_ & _ & _ & -> & _).
  - left. by apply _burn_frame in H as (_ & _ & _ & -> & _).
Qed.

Lemma reachable_rate self t s : reachable self t s -> rewardRate s <= 2000.
Proof.
  induction 1 as [admin minter rewardsManager e s Henv Hc
                 | t s c e s' Hreach IH Hwt Henv Hstep].
  - unfold constructor in Hc. unbind Hc as s1 Hs1. injection Hc as <-. simpl.
    apply _mint_frame in Hs1 as (_ & _ & _ & -> & _). simpl. lia.
  - apply step_rate in Hstep as [->|(r & _ & -> & Hr)]; assumption.
Qed.

(** X8. The reward rate starts at 100 basis points and never leaves
    [0, 2000]: the admin's [updateRewardRate] rejects anything above 2000.
    So over at most one year since the last checkpoint a stake accrues at
    most 20% of its amount. *)
Theorem reward_rate_capped self t s :
  reachable self t s ->
  0 <= rewardRate s <= 2000 /\
  (forall user now,
     0 <= now - timestamp (stakeOf s user) <= SECONDS_PER_YEAR ->
     0 <= accrual s user now <= amount (stakeOf s user) * 2000 / 10000) /\
  (forall newRate e,
     hasRole s DEFAULT_ADMIN_ROLE (msg_sender e) = true -> 2000 < newRate ->
     updateRewardRate newRate e s = Err (Revert "Reward rate cannot exceed 20%")).
Proof.
  intros Hreach.
  pose proof (reachable_invariant _ _ _ Hreach) as Hinv.
  pose proof (reachable_rate _ _ _ Hreach) as Hcap.
  pose proof (inv_rate s Hinv) as Hrate.
  split; [lia|]. split.
  - intros user now Hel. pose proof (inv_amounts s Hinv user) as Ha.
    unfold accrual. set (a := amount (stakeOf s user)) in *.
    set (el := now - timestamp (stakeOf s user)) in *.
    assert (HY : 0 < SECONDS_PER_YEAR) by (vm_compute; reflexivity).
    split.
    + apply Z.div_pos; [|lia]. apply Z.mul_nonneg_nonneg; [|lia].
      apply Z.mul_nonneg_nonneg; lia.
    + rewrite <- (Z.div_mul_cancel_r (a * 2000) 10000 SECONDS_PER_YEAR) by lia.
      rewrite (Z.mul_comm 10000 SECONDS_PER_YEAR).
      apply Z.div_le_mono; [lia|].
      apply Z.mul_le_mono_nonneg;
        [apply Z.mul_nonneg_nonneg; lia | apply Z.mul_le_mono_nonneg_l; lia
        | lia | lia].
  - intros newRate e Hrole Hbig. unfold updateRewardRate, onlyRole.
    rewrite Hrole. simpl require. run.
    rewrite (require_false (newRate <=? 2000));
      [reflexivity | apply Z.leb_gt; exact Hbig].
Qed.

Lemma reward_rate_capped_witness :
  rewardRate staked = 100 /\
  accrual staked admin (1000 + SECONDS_PER_YEAR) <= 100 /\
  updateRewardRate 2001 (at_time admin 2000) staked
  = Err (Revert "Reward rate cannot exceed 20%").
Proof.
  destruct (reward_rate_capped self 1000 staked TokenClaims.staked_reachable)
    as (_ & Hacc & Hrej).
  split; [reflexivity|]. split.
  - apply (Hacc admin (1000 + SECONDS_PER_YEAR)). vm_compute. split; congruence.
  - apply Hrej; vm_compute; reflexivity.
Defined.

Lemma _claimRewards_pool e s s' :
  0 <= rewardOf s (msg_sender e) -> _claimRewards e s = Ok s' ->
  rewardPool s' <= rewardPool s.
Proof.
  intros Hr H. apply (_claimRewards_reads _ _ _ Hr) in H as (_ & _ & -> & _). lia.
Qed.

(** X9. The pool grows only through [distributeRewards], by exactly the
    amount deposited, and shrinks only through the payout inside
    [claimRewards] and [unstake]; every other successful call leaves it as
    it was. *)
Theorem pool_changes_only_by_funding_and_payout c e s s' :
  invariant s -> step c e s = Ok s' ->
  match c with
  | DistributeRewards amt =>
      rewardPool s' = rewardPool s + amt /\
      lastRewardDistribution s' = block_timestamp e
  | ClaimRewards | Unstake _ => rewardPool s' <= rewardPool s
  | _ => rewardPool s' = rewardPool s
  end.
Proof.
  intros Hinv H. destruct c; simpl in H.
  - unfold mint in H. do 3 unbind H.
    by apply _mint_frame in H as (_ & _ & _ & _ & ->).
  - unfold pause in H. do 2 unbind H. by injection H as <-.
  - unfold unpause in H. do 2 unbind H. by injection H as <-.
  - unfold stake in H. do 4 unbind H. unbind H as s1 Hs1. unbind H as s2 Hs2.
    do 2 unbind H. injection H as <-. simpl.
    apply _transfer_frame in Hs2 as (_ & _ & _ & _ & ->).
    by apply _updateRewards_frame in Hs1 as (_ & _ & _ & _ & -> & _).
  - unfold unstake in H. do 3 unbind H. unbind H as s1 Hs1.
    unbind H as s2 Hs2. do 2 unbind H.
    apply _transfer_frame in H as (_ & _ & _ & _ & ->). simpl.
    pose proof (_updateRewards_invariant _ _ _ _ Hinv Hs1) as Hinv1.
    pose proof (_claimRewards_pool _ _ _ (inv_rewards s1 Hinv1 _) Hs2).
    apply _updateRewards_frame in Hs1 as (_ & _ & _ & _ & Hpool & _). lia.
  - unfold claimRewards in H. unbind H as s1 Hs1.
    pose proof (_updateRewards_invariant _ _ _ _ Hinv Hs1) as Hinv1.
    pose proof (_claimRewards_pool _ _ _ (inv_rewards s1 Hinv1 _) H).
    apply _updateRewards_frame in Hs1 as (_ & _ & _ & _ & Hpool & _). lia.
  - unfold distributeRewards in H. do 2 unbind H. unbind H as s1 Hs1.
    unbind H. injection H as <-. arith_inv. simpl.
    by apply _transfer_frame in Hs1 as (_ & _ & _ & _ & ->).
  - unfold updateRewardRate in H. do 2 unbind H. by injection H as <-.
  - by apply emergencyWithdraw_inv in H as ->.
  - by apply _transfer_frame in H as (_ & _ & _ & _ & ->).
  - by apply _burn_frame in H as (_ & _ & _ & _ & ->).
Qed.

Lemma pool_changes_only_by_funding_and_payout_witness :
  rewardPool handed = 0 /\ rewardPool funded = 100 /\
  rewardPool funded_staked = rewardPool funded.
Proof.
  pose proof (reachable_invariant _ _ _ TokenClaims.deployed_reachable) as H0.
  assert (H1 : invariant handed).
  { apply (step_invariant (Transfer manager 1000) (at_time admin 1000) deployed);
      [reflexivity | exact H0 | vm_compute; reflexivity]. }
  assert (H2 : invariant funded).
  { apply (step_invariant (DistributeRewards 100) (at_time manager 1000) handed);
      [reflexivity | exact H1 | vm_compute; reflexivity]. }
  assert (Hfund : step (DistributeRewards 100) (at_time manager 1000) handed
                  = Ok funded) by (vm_compute; reflexivity).
  assert (Hstake : step (StakeTokens 500 (days 30)) (at_time admin 1000) funded
                   = Ok funded_staked) by (vm_compute; reflexivity).
  split; [vm_compute; reflexivity|]. split.
  - destruct (pool_changes_only_by_funding_and_payout _ _ _ _ H1 Hfund) as [-> _].
    vm_compute. reflexivity.
  - exact (pool_changes_only_by_funding_and_payout _ _ _ _ H2 Hstake).
Defined.

(** *** The quoted APR and access control *)

Lemma getStakingAPR_inv lock s apr :
  getStakingAPR lock s = Ok apr ->
  apr = rewardRate s
        + (if days 365 <=? lock then 500
           else if days 180 <=? lock then 300
           else if days 90 <=? lock then 100 else 0).
Proof.
  unfold getStakingAPR. intros H.
  destruct (days 365 <=? lock); [arith_inv; reflexivity|].
  destruct (days 180 <=? lock); [arith_inv; reflexivity|].
  destruct (days 90 <=? lock); arith_inv; subst; lia.
Qed.

(** X10. [getStakingAPR] quotes the base rate plus a bonus fixed by the
    lock period: nothing under 90 days, 100 basis points from 90 days, 300
    from 180 days and 500 from 365 days. The quote never decreases when the
    lock period grows; among the lock periods [stake] accepts only 365 days
    earns the 500. The bonus is a quote only: the reward a stake accrues
    does not depend on its lock period. *)
Theorem staking_apr_grows_with_lock s :
  rewardRate s + 500 <= MAX_UINT256 ->
  (forall lock,
     (lock < days 90 -> getStakingAPR lock s = Ok (rewardRate s)) /\
     (days 90 <= lock < days 180 ->
      getStakingAPR lock s = Ok (rewardRate s + 100)) /\
     (days 180 <= lock < days 365 ->
      getStakingAPR lock s = Ok (rewardRate s + 300)) /\
     (days 365 <= lock -> getStakingAPR lock s = Ok (rewardRate s + 500))) /\
  (forall lock, exists apr,
     getStakingAPR lock s = Ok apr /\ rewardRate s <= apr <= rewardRate s + 500) /\
  (forall l1 l2 a1 a2,
     l1 <= l2 -> getStakingAPR l1 s = Ok a1 -> getStakingAPR l2 s = Ok a2 ->
     a1 <= a2) /\
  (forall lock apr,
     days 30 <= lock <= days 365 -> getStakingAPR lock s = Ok apr ->
     (apr = rewardRate s + 500 <-> lock = days 365)) /\
  (forall st st' now,
     amount st = amount st' -> timestamp st = timestamp st' ->
     accrued st (rewardRate s) now = accrued st' (rewardRate s) now).
Proof.
  intros Hfit. split; [|repeat apply conj].
  - intros lock. unfold getStakingAPR, days.
    destruct (Z.leb_spec (365 * 86400) lock), (Z.leb_spec (180 * 86400) lock),
      (Z.leb_spec (90 * 86400) lock);
      repeat split; intros; try lia; try reflexivity; apply add_Ok; lia.
  - intros lock. unfold getStakingAPR.
    destruct (days 365 <=? lock); [rewrite add_Ok by lia; eexists; split; [reflexivity|lia]|].
    destruct (days 180 <=? lock); [rewrite add_Ok by lia; eexists; split; [reflexivity|lia]|].
    destruct (days 90 <=? lock); [rewrite add_Ok by lia; eexists; split; [reflexivity|lia]|].
    eexists; split; [reflexivity|lia].
  - intros l1 l2 a1 a2 Hle H1 H2.
    apply getStakingAPR_inv in H1 as ->. apply getStakingAPR_inv in H2 as ->.
    unfold days.
    destruct (Z.leb_spec (365 * 86400) l1), (Z.leb_spec (365 * 86400) l2),
      (Z.leb_spec (180 * 86400) l1), (Z.leb_spec (180 * 86400) l2),
      (Z.leb_spec (90 * 86400) l1), (Z.leb_spec (90 * 86400) l2); lia.
  - intros lock apr Hlock H. apply getStakingAPR_inv in H as ->.
    unfold days in *.
    destruct (Z.leb_spec (365 * 86400) lock), (Z.leb_spec (180 * 86400) lock),
      (Z.leb_spec (90 * 86400) lock); lia.
  - intros st st' now Ha Ht. unfold accrued. by rewrite Ha, Ht.
Qed.

Lemma staking_apr_grows_with_lock_witness :
  getStakingAPR (days 30) staked = Ok (rewardRate staked) /\
  getStakingAPR (days 100) staked = Ok (rewardRate staked + 100) /\
  getStakingAPR (days 200) staked = Ok (rewardRate staked + 300) /\
  getStakingAPR (days 365) staked = Ok (rewardRate staked + 500) /\
  rewardRate staked = 100 /\
  forall a1 a2, getStakingAPR (days 90) staked = Ok a1 ->
                getStakingAPR (days 200) staked = Ok a2 -> a1 <= a2.
Proof.
  assert (Hfit : rewardRate staked + 500 <= MAX_UINT256) by (vm_compute; congruence).
  destruct (staking_apr_grows_with_lock staked Hfit) as (Htiers & _ & Hmono & _).
  split; [apply (Htiers (days 30)); vm_compute; reflexivity|].
  split; [apply (Htiers (days 100)); vm_compute; split; congruence|].
  split; [apply (Htiers (days 200)); vm_compute; split; congruence|].
  split; [apply (Htiers (days 365)); vm_compute; congruence|].
  split; [vm_compute; reflexivity|].
  intros a1 a2. apply Hmono. vm_compute. congruence.
Defined.

(** X11. An entry point that demands a role fails for a caller who does not
    hold it, and the transaction leaves the storage as it was: [mint] needs
    the minter, [pause] and [unpause] the pauser, [distributeRewards] the
    rewards manager, [updateRewardRate] and [emergencyWithdraw] the
    admin. *)
Theorem role_gated_call_needs_role c r e s :
  role_of c = Some r -> hasRole s r (msg_sender e) = false ->
  (exists err, step c e s = Err err) /\ transact c e s = s.
Proof.
  intros Hrole Hno.
  assert (Hfail : exists err, step c e s = Err err).
  { destruct c; simpl in Hrole; try discriminate; injection Hrole as <-; simpl;
      [unfold mint | unfold pause | unfold unpause | unfold distributeRewards
      | unfold updateRewardRate | unfold emergencyWithdraw];
      unfold onlyRole; rewrite Hno; simpl; eauto. }
  split; [exact Hfail|]. destruct Hfail as [err Herr].
  unfold transact. rewrite Herr. reflexivity.
Qed.

Lemma role_gated_call_needs_role_witness :
  (exists err, step (Mint bob 1000) (at_time bob 2000) staked = Err err) /\
  transact (Mint bob 1000) (at_time bob 2000) staked = staked /\
  (exists err, step Pause (at_time minter 2000) staked = Err err).
Proof.
  destruct (role_gated_call_needs_role (Mint bob 1000) MINTER_ROLE
              (at_time bob 2000) staked eq_refl) as [Hfail Hsame];
    [vm_compute; reflexivity|].
  destruct (role_gated_call_needs_role Pause PAUSER_ROLE
              (at_time minter 2000) staked eq_refl) as [Hfail2 _];
    [vm_compute; reflexivity|].
  split; [exact Hfail|]. split; [exact Hsame | exact Hfail2].
Defined.

End TokenExtra.

(** ** ValueNFT: further properties *)

Module NFTExtra.
Import NFT NFTViews NFTFacts NFTRun NFTMoreRun.

(** *** The value computation *)

(** X12. The action multiplier is 10000 whatever the action count: the
    bonus of 100 per action is added to the base of 10000 and the sum is
    then capped at [MAX_MULTIPLIER], which is 10000 as well. Recorded
    actions never raise the computed value; an action count so large that
    the bonus leaves [uint256] makes the computation fail. *)
Theorem action_multiplier_is_constant d :
  0 <= actionCount d ->
  (actionCount d * 100 + 10000 <= MAX_UINT256 -> actionMultiplierOf d = Ok 10000) /\
  (MAX_UINT256 < actionCount d * 100 + 10000 -> actionMultiplierOf d = Err Panic) /\
  (forall m, actionMultiplierOf d = Ok m -> m = MAX_MULTIPLIER).
Proof.
  intros Hpos. unfold actionMultiplierOf, MAX_MULTIPLIER. repeat apply conj.
  - intros Hfit. destruct (Z.ltb_spec 0 (actionCount d)); [|reflexivity].
    rewrite mul_Ok by lia. run. rewrite add_Ok by lia. run.
    destruct (Z.ltb_spec 10000 (10000 + actionCount d * 100)); [reflexivity|].
    unfold mret, result_ret. f_equal. lia.
  - intros Hbig. destruct (Z.ltb_spec 0 (actionCount d)).
    + unfold mul. destruct (Z.leb_spec (actionCount d * 100) MAX_UINT256);
        [|reflexivity].
      run. unfold add.
      destruct (Z.leb_spec (10000 + actionCount d * 100) MAX_UINT256);
        [lia | reflexivity].
    + assert (10000 <= MAX_UINT256) by (vm_compute; congruence). lia.
  - intros m H. destruct (Z.ltb_spec 0 (actionCount d)).
    + unbind H as bonus Hb. unbind H as sum Hs. injection H as <-. arith_inv.
      destruct (Z.ltb_spec 10000 (10000 + actionCount d * 100)); lia.
    + by injection H as <-.
Qed.

Lemma action_multiplier_is_constant_witness :
  actionCount (valueDataOf updated 0) = 40 /\
  actionMultiplierOf (valueDataOf updated 0) = Ok 10000.
Proof.
  split; [vm_compute; reflexivity|].
  apply (action_multiplier_is_constant (valueDataOf updated 0));
    vm_compute; congruence.
Defined.

Lemma decayMultiplierOf_same_day d now :
  lastValueUpdate d <= now -> decayPeriodsOf d now = 0 ->
  decayMultiplierOf d now = Ok 1.
Proof.
  intros Hnow Hp. unfold decayMultiplierOf.
  rewrite sub_Ok by exact Hnow. run. rewrite days_div. run.
  fold (decayPeriodsOf d now). rewrite Hp. reflexivity.
Qed.

Lemma decayPeriodsOf_nonneg d now : lastValueUpdate d <= now -> 0 <= decayPeriodsOf d now.
Proof.
  intros H. unfold decayPeriodsOf. apply Z.div_pos; [lia | vm_compute; reflexivity].
Qed.

Lemma compositeScoreOf_in_range d :
  0 <= impactScore d <= 10000 -> 0 <= engagementScore d <= 10000 ->
  0 <= qualityScore d <= 10000 ->
  exists cs, compositeScoreOf d = Ok cs /\ 0 <= cs <= 10000.
Proof.
  intros Hi He Hq. unfold compositeScoreOf.
  assert (Hbig : 1000000 <= MAX_UINT256) by (vm_compute; congruence).
  rewrite (mul_Ok (impactScore d)), (mul_Ok (engagementScore d)),
    (mul_Ok (qualityScore d)) by lia.
  run. rewrite add_Ok by lia. run. rewrite add_Ok by lia. run.
  eexists. split; [reflexivity|]. split.
  - apply Z.div_pos; lia.
  - apply Z.div_le_upper_bound; lia.
Qed.

(** X13. With the three scores in [0, 10000], as the record's comments
    prescribe, the computed value is the floor [initialValue / 10], on the
    day of the last update and up to 19 days after it, whatever the scores
    and the action count are: the product is divided by 10000 three times
    although the decay multiplier is 0 or 1, so it never climbs above the
    floor. *)
Theorem value_is_floor_for_scores_in_range tokenId (e : env) s :
  _exists s tokenId = true ->
  0 <= initialValue (valueDataOf s tokenId) ->
  initialValue (valueDataOf s tokenId) * 10000 * 10000 <= MAX_UINT256 ->
  0 <= impactScore (valueDataOf s tokenId) <= 10000 ->
  0 <= engagementScore (valueDataOf s tokenId) <= 10000 ->
  0 <= qualityScore (valueDataOf s tokenId) <= 10000 ->
  0 <= actionCount (valueDataOf s tokenId) ->
  actionCount (valueDataOf s tokenId) * 100 + 10000 <= MAX_UINT256 ->
  lastValueUpdate (valueDataOf s tokenId) <= block_timestamp e ->
  decayPeriodsOf (valueDataOf s tokenId) (block_timestamp e) <= 19 ->
  getCurrentValue tokenId e s = Ok (initialValue (valueDataOf s tokenId) / 10).
Proof.
  intros Hex Hiv Hfit Hi Hg Hq Ha Hafit Hnow Hp.
  set (d := valueDataOf s tokenId) in *.
  destruct (compositeScoreOf_in_range d Hi Hg Hq) as (cs & Hcs & Hrange).
  assert (Ham : actionMultiplierOf d = Ok 10000).
  { unfold actionMultiplierOf.
    destruct (Z.ltb_spec 0 (actionCount d)); [|reflexivity].
    rewrite mul_Ok by lia. run. rewrite add_Ok by lia. run.
    unfold MAX_MULTIPLIER.
    destruct (Z.ltb_spec 10000 (10000 + actionCount d * 100)); [reflexivity|].
    unfold mret, result_ret. f_equal. lia. }
  assert (Hdm : exists dm, decayMultiplierOf d (block_timestamp e) = Ok dm
                           /\ 0 <= dm <= 1).
  { pose proof (decayPeriodsOf_nonneg d _ Hnow) as Hp0.
    destruct (decide (decayPeriodsOf d (block_timestamp e) = 0)) as [Hz|Hnz].
    - exists 1. split; [by apply decayMultiplierOf_same_day | lia].
    - exists 0. split; [apply decayMultiplierOf_recent; [exact Hnow | lia] | lia]. }
  destruct Hdm as (dm & Hdm & Hdmr).
  assert (H1 : initialValue d * cs <= initialValue d * 10000)
    by (apply Z.mul_le_mono_nonneg_l; lia).
  assert (H2 : initialValue d * cs * 10000 <= initialValue d * 10000 * 10000)
    by (apply Z.mul_le_mono_nonneg_r; lia).
  assert (H0 : 0 <= initialValue d * cs * 10000).
  { apply Z.mul_nonneg_nonneg; [|lia]. apply Z.mul_nonneg_nonneg; lia. }
  assert (H3 : initialValue d * cs * 10000 * dm <= initialValue d * 10000 * 10000).
  { assert (dm = 0 \/ dm = 1) as [->| ->] by lia; lia. }
  unfold getCurrentValue. rewrite Hex. simpl require. run.
  unfold _calculateValue. fold d. rewrite Hcs. run. rewrite Hdm. run.
  rewrite Ham. run.
  rewrite mul_Ok by lia. run. rewrite mul_Ok by lia. run.
  rewrite mul_Ok by lia. run.
  change (div ?x (10000 * 10000 * 10000)) with (Ok (x / 1000000000000) : result Z).
  assert (Hq' : initialValue d * cs * 10000 * dm / 1000000000000 <= initialValue d / 10).
  { transitivity (initialValue d * 10000 * 10000 / 1000000000000).
    - apply Z.div_le_mono; lia.
    - replace (initialValue d * 10000 * 10000) with (initialValue d * 100000000) by lia.
      change 1000000000000 with (10000 * 100000000).
      rewrite Z.div_mul_cancel_r by lia.
      apply Z.div_le_compat_l; lia. }
  run.
  destruct (Z.ltb_spec (initialValue d * cs * 10000 * dm / 1000000000000)
              (initialValue d / 10)); [reflexivity|].
  unfold mret, result_ret. f_equal. lia.
Qed.

Lemma value_is_floor_for_scores_in_range_witness :
  impactScore (valueDataOf updated 0) = 9000 /\
  qualityScore (valueDataOf updated 0) = 10000 /\
  getCurrentValue 0 (at_time creator 2000) updated = Ok (ether / 10) /\
  getCurrentValue 0 (at_time creator (2000 + days 5)) updated = Ok (ether / 10).
Proof.
  split; [vm_compute; reflexivity|]. split; [vm_compute; reflexivity|].
  split.
  - apply (value_is_floor_for_scores_in_range 0 (at_time creator 2000) updated);
      vm_compute; try split; congruence.
  - apply (value_is_floor_for_scores_in_range 0 (at_time creator (2000 + days 5))
             updated);
      vm_compute; try split; congruence.
Defined.

(** *** updateValue *)

(** X14. A successful [updateValue] stores the five metrics as given,
    stamps the record with the block time and stores as [currentValue] the
    value computed from the new metrics and the time since the previous
    update. The content id, creator, initial value, mint time and listing of
    the record, all other records, ownership and balances are untouched. *)
Theorem updateValue_stores_metrics_and_value tokenId i g q v a e s s' :
  updateValue tokenId i g q v a e s = Ok s' ->
  hasRole s ORACLE_ROLE (msg_sender e) = true /\
  _exists s tokenId = true /\
  valueDataOf s' tokenId
  = set_value (currentValue (valueDataOf s' tokenId)) (block_timestamp e)
      (set_metrics i g q v a (valueDataOf s tokenId)) /\
  _calculateValue tokenId e
    (set_valueData tokenId (set_metrics i g q v a (valueDataOf s tokenId)) s)
  = Ok (currentValue (valueDataOf s' tokenId)) /\
  (forall id, id <> tokenId -> valueDataOf s' id = valueDataOf s id) /\
  owners s' = owners s /\ funds s' = funds s /\
  contentToToken s' = contentToToken s /\ tokenListings s' = tokenListings s.
Proof.
  unfold updateValue, onlyRole. intros H. do 2 unbind H.
  unbind H as newValue Hnew. injection H as <-. arith_inv.
  assert (Hread : valueDataOf
                    (set_valueData tokenId
                       (set_metrics i g q v a (valueDataOf s tokenId)) s) tokenId
                  = set_metrics i g q v a (valueDataOf s tokenId)).
  { unfold valueDataOf, set_valueData; simpl. by rewrite lookup_insert_eq. }
  rewrite Hread.
  assert (Hfinal : forall d1 d2 id,
            valueDataOf (set_valueData tokenId d1 (set_valueData tokenId d2 s)) id
            = if decide (tokenId = id) then d1 else valueDataOf s id).
  { intros d1 d2 id. unfold valueDataOf, set_valueData; simpl.
    rewrite !lookup_insert. by case_decide. }
  rewrite Hfinal, decide_True by reflexivity. simpl.
  repeat split; try assumption; try reflexivity.
  intros id Hne. rewrite Hfinal, decide_False by congruence. reflexivity.
Qed.

Lemma updateValue_stores_metrics_and_value_witness :
  impactScore (valueDataOf updated 0) = 9000 /\
  lastValueUpdate (valueDataOf updated 0) = 2000 /\
  initialValue (valueDataOf updated 0) = ether /\
  currentValue (valueDataOf updated 0) = ether / 10.
Proof.
  assert (Hup : updateValue 0 9000 8000 10000 1200 40 (at_time oracle 2000) minted
                = Ok updated) by (vm_compute; reflexivity).
  destruct (updateValue_stores_metrics_and_value _ _ _ _ _ _ _ _ _ Hup)
    as (_ & _ & Hrec & _).
  rewrite Hrec.
  split; [reflexivity|]. split; [reflexivity|]. split; vm_compute; reflexivity.
Defined.

(** X15. Once 20 whole days have passed since the last value update of an
    asset, [updateValue] on it fails with an arithmetic panic for every
    choice of metrics, at that time and at any later time: the decay term
    [9950 ** decayPeriods] overflows before the new timestamp is written, so
    the asset's metrics, value and timestamp can never be updated again. *)
Theorem stale_asset_cannot_be_updated tokenId now s :
  _exists s tokenId = true ->
  20 <= decayPeriodsOf (valueDataOf s tokenId) now ->
  forall i g q v a (e : env),
    hasRole s ORACLE_ROLE (msg_sender e) = true ->
    now <= block_timestamp e ->
    updateValue tokenId i g q v a e s = Err Panic /\
    transact (UpdateValue tokenId i g q v a) e s = s.
Proof.
  intros Hex Hstale i g q v a e Hrole Hlater.
  assert (Hstale' : 20 <= decayPeriodsOf (valueDataOf s tokenId) (block_timestamp e)).
  { etransitivity; [exact Hstale|]. unfold decayPeriodsOf.
    apply Z.div_le_mono; [vm_compute; reflexivity | lia]. }
  assert (Hfail : updateValue tokenId i g q v a e s = Err Panic).
  { unfold updateValue, onlyRole. rewrite Hrole, Hex. simpl require. run.
    unfold _calculateValue.
    set (d := valueDataOf _ tokenId).
    assert (Hd : decayPeriodsOf d (block_timestamp e)
                 = decayPeriodsOf (valueDataOf s tokenId) (block_timestamp e)).
    { unfold d, valueDataOf, set_valueData; simpl. by rewrite lookup_insert_eq. }
    destruct (compositeScoreOf d) as [cs|err] eqn:Hcs.
    - run. rewrite decayMultiplierOf_stale by (rewrite Hd; exact Hstale').
      reflexivity.
    - apply compositeScoreOf_error in Hcs as ->. reflexivity. }
  split; [exact Hfail|]. unfold transact; simpl.
  destruct (nonPayable e); simpl; [|reflexivity].
  change (match updateValue tokenId i g q v a e s with
          | Ok s' => s' | Err _ => s end = s).
  by rewrite Hfail.
Qed.

Lemma stale_asset_cannot_be_updated_witness :
  updateValue 0 9000 8000 10000 1200 40 (at_time oracle (1000 + days 20)) minted
  = Err Panic /\
  updateValue 0 1 1 1 0 0 (at_time oracle (1000 + days 400)) minted = Err Panic.
Proof.
  assert (Hex : _exists minted 0 = true) by (vm_compute; reflexivity).
  assert (Hstale : 20 <= decayPeriodsOf (valueDataOf minted 0) (1000 + days 20))
    by (vm_compute; congruence).
  pose proof (stale_asset_cannot_be_updated 0 _ minted Hex Hstale) as H.
  split.
  - apply (H 9000 8000 10000 1200 40 (at_time oracle (1000 + days 20)));
      [vm_compute; reflexivity | vm_compute; congruence].
  - apply (H 1 1 1 0 0 (at_time oracle (1000 + days 400)));
      [vm_compute; reflexivity | vm_compute; congruence].
Defined.

(** *** What each marketplace entry point leaves behind *)

Lemma listNFT_inv tokenId price e s s' :
  listNFT tokenId price e s = Ok s' ->
  _ownerOf s tokenId = msg_sender e /\ msg_sender e <> 0 /\ 0 < price /\
  isListed (valueDataOf s tokenId) = false /\
  s' = with_tokenListings <[tokenId := msg_sender e]>
         (set_valueData tokenId (set_listing true price (valueDataOf s tokenId)) s).
Proof.
  unfold listNFT. intros H. unbind H as owner Ho. do 3 unbind H.
  injection H as <-. apply ownerOf_inv in Ho as [-> Hne]. arith_inv.
  rewrite <- E. auto.
Qed.

Lemma unlistNFT_inv tokenId e s s' :
  unlistNFT tokenId e s = Ok s' ->
  _ownerOf s tokenId = msg_sender e /\ msg_sender e <> 0 /\
  isListed (valueDataOf s tokenId) = true /\
  s' = with_tokenListings (delete tokenId)
         (set_valueData tokenId (set_listing false 0 (valueDataOf s tokenId)) s).
Proof.
  unfold unlistNFT. intros H. unbind H as owner Ho. do 2 unbind H.
  injection H as <-. apply ownerOf_inv in Ho as [-> Hne]. arith_inv.
  rewrite <- E. auto.
Qed.

Lemma updateValue_inv tokenId i g q v a e s s' :
  updateValue tokenId i g q v a e s = Ok s' ->
  _ownerOf s tokenId <> 0 /\
  exists newValue,
    s' = set_valueData tokenId
           (set_value newValue (block_timestamp e)
              (set_metrics i g q v a (valueDataOf s tokenId)))
           (set_valueData tokenId (set_metrics i g q v a (valueDataOf s tokenId)) s).
Proof.
  unfold updateValue. intros H. do 2 unbind H. unbind H as newValue Hnew.
  injection H as <-. arith_inv. split; [by apply _exists_spec|].
  exists newValue. f_equal. unfold valueDataOf, set_valueData; simpl.
  by rewrite lookup_insert_eq.
Qed.

Lemma _burn_inv tokenId s s' :
  _burn tokenId s = Ok s' ->
  _ownerOf s tokenId <> 0 /\
  owners s' = delete tokenId (owners s) /\
  valueData s' = delete tokenId (valueData s) /\
  contentToToken s' = delete (contentId (valueDataOf s tokenId)) (contentToToken s) /\
  listerOf s' tokenId = 0 /\
  (forall id, id <> tokenId -> listerOf s' id = listerOf s id) /\
  creatorTokens s' = creatorTokens s /\ marketplaceFee s' = marketplaceFee s /\
  feeRecipient s' = feeRecipient s /\ funds s' = funds s /\
  _tokenIdCounter s' = _tokenIdCounter s.
Proof.
  unfold _burn. intros H. unbind H as owner Ho. injection H as <-.
  apply ownerOf_inv in Ho as [-> Hne].
  match goal with |- context [if ?b then _ else _] => destruct b eqn:Hb end;
    simpl; (split; [exact Hne|]); repeat split; try reflexivity.
  - unfold listerOf; simpl. by rewrite lookup_delete_eq.
  - intros id Hid. unfold listerOf; simpl. by rewrite lookup_delete_ne.
  - rewrite negb_false_iff in Hb. by apply Z.eqb_eq in Hb.
Qed.

Lemma buyNFT_frame tokenId e s s' :
  buyNFT tokenId e s = Ok s' ->
  marketplaceFee s' = marketplaceFee s /\ feeRecipient s' = feeRecipient s /\
  creatorTokens s' = creatorTokens s /\ contentToToken s' = contentToToken s /\
  _tokenIdCounter s' = _tokenIdCounter s /\ msg_sender e <> 0.
Proof.
  unfold buyNFT. intros H. unbind H as s0 Hs0. do 2 unbind H.
  unbind H as seller Hseller. unbind H as x Hx. unbind H as fee Hfee.
  unbind H as sellerAmount Hamount. unbind H as s3 Hs3. unbind H as s4 Hs4.
  apply receive_value_inv in Hs0 as (_ & ->).
  apply _transfer_inv in Hs3 as (_ & _ & Hto & ->).
  apply send_inv in Hs4 as (_ & _ & _ & ->).
  apply send_inv in H as (_ & _ & _ & ->).
  simpl. auto 10.
Qed.

(** *** The marketplace fee *)

Lemma step_fee c e s s' :
  well_typed c = true -> step c e s = Ok s' ->
  0 <= marketplaceFee s <= 1000 -> 0 <= marketplaceFee s' <= 1000.
Proof.
  intros Hwt H Hfee. destruct c; simpl in H, Hwt; unbind H.
  - unbind H as r Hr. injection H as <-. destruct r as [s1 id].
    by apply mintValueNFT_inv in Hr as (_ & _ & _ & _ & _ & _ & ->).
  - by apply updateValue_inv in H as (_ & nv & ->).
  - by apply listNFT_inv in H as (_ & _ & _ & _ & ->).
  - by apply unlistNFT_inv in H as (_ & _ & _ & ->).
  - assert (Hbuy : buyNFT tokenId e s = Ok s') by (unfold buyNFT; rewrite E; exact H).
    by apply buyNFT_frame in Hbuy as (-> & _).
  - unfold updateMarketplaceFee in H. do 2 unbind H. injection H as <-.
    arith_inv. simpl. lia.
  - unfold updateFeeRecipient in H. do 2 unbind H. by injection H as <-.
  - unfold burn in H. do 2 unbind H.
    by apply _burn_inv in H as (_ & _ & _ & _ & _ & _ & _ & -> & _).
  - unfold transferFrom in H. do 2 unbind H.
    by apply _transfer_inv in H as (_ & _ & _ & ->).
Qed.

(** X16. The marketplace fee starts at 250 basis points and never leaves
    [0, 1000]: the admin's [updateMarketplaceFee] rejects anything above
    1000. So the fee taken from a sale is at most a tenth of the price and
    the seller receives at least nine tenths. *)
Theorem marketplace_fee_capped self t s :
  reachable self t s ->
  0 <= marketplaceFee s <= 1000 /\
  (forall price, 0 <= price ->
     0 <= fee_of price (marketplaceFee s) <= price / 10 /\
     price - price / 10 <= price - fee_of price (marketplaceFee s)) /\
  (forall newFee (e : env),
     hasRole s DEFAULT_ADMIN_ROLE (msg_sender e) = true -> 1000 < newFee ->
     updateMarketplaceFee newFee e s = Err (Revert "Fee cannot exceed 10%")).
Proof.
  intros Hreach.
  assert (Hfee : 0 <= marketplaceFee s <= 1000).
  { induction Hreach as [admin minter oracle recipient chain_funds t Ht
                        | t s c e s' Hreach IH Hwt Henv Hstep].
    - simpl. lia.
    - eapply step_fee; eassumption. }
  split; [exact Hfee|]. split.
  - intros price Hprice. unfold fee_of.
    assert (Hle : price * marketplaceFee s / 10000 <= price / 10).
    { transitivity (price * 1000 / 10000).
      - apply Z.div_le_mono; [lia|]. apply Z.mul_le_mono_nonneg_l; lia.
      - replace (price * 1000) with (price * 1000) by reflexivity.
        change 10000 with (10 * 1000). rewrite Z.div_mul_cancel_r by lia. lia. }
    split; [split; [|exact Hle]|lia].
    apply Z.div_pos; [|lia]. apply Z.mul_nonneg_nonneg; lia.
  - intros newFee e Hrole Hbig. unfold updateMarketplaceFee, onlyRole.
    rewrite Hrole. simpl require. run.
    rewrite (require_false (newFee <=? 1000));
      [reflexivity | apply Z.leb_gt; exact Hbig].
Qed.

Lemma marketplace_fee_capped_witness :
  marketplaceFee listed = 250 /\
  fee_of (2 * ether) (marketplaceFee listed) <= 2 * ether / 10 /\
  updateMarketplaceFee 1001 (at_time admin 2500) listed
  = Err (Revert "Fee cannot exceed 10%").
Proof.
  destruct (marketplace_fee_capped self 2000 listed NFTClaims.listed_reachable)
    as (_ & Hcut & Hrej).
  split; [reflexivity|]. split.
  - apply (Hcut (2 * ether)). vm_compute. congruence.
  - apply Hrej; vm_compute; reflexivity.
Defined.

(** *** What the listing flag stands for *)

Ltac registry_reads :=
  unfold valueDataOf, listerOf, _ownerOf, set_valueData; simpl;
  rewrite ?lookup_insert, ?lookup_delete;
  repeat case_decide; subst; simpl; try congruence.

Lemma step_listing c e s s' :
  listing_sound s -> step c e s = Ok s' -> listing_sound s'.
Proof.
  intros Hl H. destruct c; simpl in H; unbind H.
  - unbind H as r Hr. injection H as <-. destruct r as [s1 tid].
    apply mintValueNFT_inv in Hr as (_ & _ & _ & Hto & _ & Hfree & ->).
    intros id. pose proof (Hl id) as Hid. revert Hid. registry_reads; try tauto.
  - apply updateValue_inv in H as (Hex & nv & ->).
    intros id. pose proof (Hl id) as Hid. revert Hid. registry_reads; try tauto.
  - apply listNFT_inv in H as (Howner & Hsender & Hprice & _ & ->).
    intros id. pose proof (Hl id) as Hid. revert Hid. registry_reads; try tauto.
    intros _. unfold _ownerOf in Howner. repeat split; congruence.
  - apply unlistNFT_inv in H as (Howner & Hsender & _ & ->).
    intros id. pose proof (Hl id) as Hid. revert Hid. registry_reads; try tauto.
  - assert (Hbuy : buyNFT tokenId e s = Ok s') by (unfold buyNFT; rewrite E; exact H).
    pose proof (buyNFT_frame _ _ _ _ Hbuy) as (_ & _ & _ & _ & _ & Hsender).
    apply NFTClaims.buyNFT_inv in Hbuy
      as (_ & _ & _ & _ & _ & Hdata & Hlist & Hown & _).
    intros id. pose proof (Hl id) as Hid. revert Hid.
    unfold valueDataOf, listerOf, _ownerOf.
    rewrite ?Hdata, ?Hlist, ?Hown, ?lookup_insert, ?lookup_delete.
    repeat case_decide; subst; simpl; try congruence; tauto.
  - unfold updateMarketplaceFee in H. do 2 unbind H. injection H as <-. auto.
  - unfold updateFeeRecipient in H. do 2 unbind H. injection H as <-. auto.
  - unfold burn in H. do 2 unbind H.
    apply _burn_inv in H as (_ & Hown & Hdata & _ & Hl0 & Hlrest & _).
    intros id. pose proof (Hl id) as Hid. revert Hid.
    destruct (decide (id = tokenId)) as [->|Hne].
    + unfold valueDataOf. rewrite Hdata, lookup_delete_eq. simpl. auto.
    + rewrite (Hlrest id Hne). unfold valueDataOf, _ownerOf.
      rewrite Hdata, Hown, !lookup_delete_ne by congruence. trivial.
  - unfold transferFrom in H. do 2 unbind H.
    apply _transfer_inv in H as (_ & _ & Hto & ->).
    intros id. pose proof (Hl id) as Hid. revert Hid. registry_reads; try tauto.
    destruct (isListed _); tauto.
Qed.

(** X17. In every reachable state the listing flag of a record can be
    relied on: a record flagged as listed has a positive price, a lister in
    the index and a token that exists, and a record not flagged has price
    0. Every successful call keeps it so. *)
Theorem listings_and_records_consistent self t s :
  reachable self t s ->
  listing_sound s /\
  (forall c e s', step c e s = Ok s' -> listing_sound s').
Proof.
  intros Hreach.
  assert (Hl : listing_sound s).
  { induction Hreach as [admin minter oracle recipient chain_funds t Ht
                        | t s c e s' Hreach IH Hwt Henv Hstep].
    - intros id. unfold valueDataOf; simpl. rewrite lookup_empty. reflexivity.
    - eapply step_listing; eassumption. }
  split; [exact Hl|]. intros c e s' Hstep. exact (step_listing c e s s' Hl Hstep).
Qed.

Lemma listings_and_records_consistent_witness :
  isListed (valueDataOf listed 0) = true /\
  0 < listPrice (valueDataOf listed 0) /\ listerOf listed 0 <> 0 /\
  _ownerOf listed 0 <> 0 /\
  listPrice (valueDataOf listed 7) = 0.
Proof.
  destruct (listings_and_records_consistent self 2000 listed
              NFTClaims.listed_reachable) as [Hl _].
  pose proof (Hl 0) as H0. pose proof (Hl 7) as H7.
  assert (Hflag : isListed (valueDataOf listed 0) = true) by (vm_compute; reflexivity).
  assert (Hflag7 : isListed (valueDataOf listed 7) = false)
    by (vm_compute; reflexivity).
  rewrite Hflag in H0. rewrite Hflag7 in H7. destruct H0 as (Hprice & Hlister & Hown).
  split; [exact Hflag|]. split; [exact Hprice|]. split; [exact Hlister|].
  split; [exact Hown | exact H7].
Defined.

(** *** Listing, unlisting, burning *)

Lemma Ok_inj {A} (a b : A) : Ok a = Ok b -> a = b.
Proof. intros H. injection H as H. exact H. Qed.

(** Token 0 of the concrete run is not listed after its mint, and no other
    record exists. *)
Lemma minted_consistent : listing_consistent minted.
Proof.
  pose proof NFTClaims.minted_mint as H.
  apply mintValueNFT_inv in H as (_ & _ & _ & _ & _ & _ & ->).
  intros id. unfold valueDataOf, listerOf, set_valueData, deployed, constructor.
  simpl. rewrite lookup_insert, !lookup_empty.
  case_decide; simpl; auto.
Qed.

Lemma set_listing_id d :
  isListed d = false -> listPrice d = 0 -> set_listing false 0 d = d.
Proof. destruct d; simpl. intros -> ->. reflexivity. Qed.



(** X19. A burn removes the token for good. [_burn], the contract's
    override that every burn of a token ends in, whoever was admitted to
    make it, takes a token that exists and leaves none: it no longer
    exists, its value record is empty, its listing is gone, the content id
    it carried reads as unmapped, and [getValueData] and [getCurrentValue]
    reject it with "Token does not exist". Other tokens, the creator's
    token list and all balances are untouched. *)
Theorem burn_clears_token tokenId s s' :
  _burn tokenId s = Ok s' ->
  _exists s tokenId = true /\
  _exists s' tokenId = false /\
  valueDataOf s' tokenId = noValueData /\
  listerOf s' tokenId = 0 /\
  tokenOfContent s' (contentId (valueDataOf s tokenId)) = 0 /\
  getValueData tokenId s' = Err (Revert "Token does not exist") /\
  (forall e' : env,
     getCurrentValue tokenId e' s' = Err (Revert "Token does not exist")) /\
  (forall id, id <> tokenId ->
     valueDataOf s' id = valueDataOf s id /\ _ownerOf s' id = _ownerOf s id /\
     listerOf s' id = listerOf s id) /\
  creatorTokens s' = creatorTokens s /\ funds s' = funds s.
Proof.
  intros H.
  apply _burn_inv in H
    as (Hex & Hown & Hdata & Hcontent & Hl0 & Hlrest & Hct & _ & _ & Hfunds & _).
  assert (Hgone : _exists s' tokenId = false).
  { unfold _exists, _ownerOf. by rewrite Hown, lookup_delete_eq. }
  repeat split; try assumption.
  - by apply _exists_spec.
  - unfold valueDataOf. by rewrite Hdata, lookup_delete_eq.
  - unfold tokenOfContent. by rewrite Hcontent, lookup_delete_eq.
  - unfold getValueData. by rewrite Hgone.
  - intros e'. unfold getCurrentValue. by rewrite Hgone.
  - unfold valueDataOf. by rewrite Hdata, lookup_delete_ne.
  - unfold _ownerOf. by rewrite Hown, lookup_delete_ne.
  - by apply Hlrest.
Qed.

(** The creator burns the listed token 0. *)
Lemma burn_clears_token_witness :
  burn 0 (at_time creator 2500) listed = Ok burned /\
  _burn 0 listed = Ok burned /\
  _exists listed 0 = true /\ _exists burned 0 = false /\
  tokenOfContent burned "video-1" = 0 /\
  getCreatorTokens creator burned = [0] /\
  getValueData 0 burned = Err (Revert "Token does not exist").
Proof.
  assert (Hb : _burn 0 listed = Ok burned) by (vm_compute; reflexivity).
  destruct (burn_clears_token 0 listed burned Hb)
    as (Hwas & Hgone & _ & _ & _ & Hview & _).
  split; [vm_compute; reflexivity|]. split; [exact Hb|]. split; [exact Hwas|].
  split; [exact Hgone|]. split; [vm_compute; reflexivity|].
  split; [vm_compute; reflexivity | exact Hview].
Defined.

(** *** The creator's token list *)

(** X20. The per-creator token list only grows: a successful
    [mintValueNFT] appends the new token id to the list of the account it
    mints to, and no call ever removes an id, so [getCreatorTokens] keeps
    listing tokens that were sold, transferred or burned. *)
Theorem creator_tokens_only_grow c e s s' :
  step c e s = Ok s' ->
  forall a,
    getCreatorTokens a s' = getCreatorTokens a s \/
    (exists cid uri initial,
       c = MintValueNFT a cid uri initial /\
       getCreatorTokens a s' = getCreatorTokens a s ++ [_tokenIdCounter s]).
Proof.
  unfold getCreatorTokens, tokensOfCreator.
  intros H a. destruct c; simpl in H; unbind H.
  - unbind H as r Hr. injection H as <-. destruct r as [s1 tid].
    apply mintValueNFT_inv in Hr as (_ & _ & _ & _ & -> & _ & ->). simpl.
    rewrite lookup_insert. case_decide; simpl; [subst; right; eauto | by left].
  - left. by apply updateValue_inv in H as (_ & nv & ->).
  - left. by apply listNFT_inv in H as (_ & _ & _ & _ & ->).
  - left. by apply unlistNFT_inv in H as (_ & _ & _ & ->).
  - left.
    assert (Hbuy : buyNFT tokenId e s = Ok s') by (unfold buyNFT; rewrite E; exact H).
    by apply buyNFT_frame in Hbuy as (_ & _ & -> & _).
  - left. unfold updateMarketplaceFee in H. do 2 unbind H. by injection H as <-.
  - left. unfold updateFeeRecipient in H. do 2 unbind H. by injection H as <-.
  - left. unfold burn in H. do 2 unbind H.
    by apply _burn_inv in H as (_ & _ & _ & _ & _ & _ & -> & _).
  - left. unfold transferFrom in H. do 2 unbind H.
    by apply _transfer_inv in H as (_ & _ & _ & ->).
Qed.

Lemma creator_tokens_only_grow_witness :
  getCreatorTokens creator listed = [0] /\
  getCreatorTokens creator two_minted = [0; 1] /\
  getCreatorTokens creator sold = [0] /\ _ownerOf sold 0 = buyer.
Proof.
  assert (Hbuy : step (BuyNFT 0) buying listed = Ok sold) by (vm_compute; reflexivity).
  destruct (creator_tokens_only_grow _ _ _ _ Hbuy creator)
    as [Hsame|(cid & uri & initial & Hc & _)]; [|discriminate].
  split; [vm_compute; reflexivity|]. split; [vm_compute; reflexivity|].
  split; [rewrite Hsame|]; vm_compute; reflexivity.
Defined.

(** *** getListedNFTs *)

Lemma new_array_Ok n (e : env) :
  n <= 2 ^ 64 - 1 -> n <= memory_limit e ->
  new_array n e = Ok (replicate (Z.to_nat n) 0).
Proof.
  intros H1 H2. unfold new_array.
  destruct (Z.ltb_spec (2 ^ 64 - 1) n); [lia|].
  destruct (Z.ltb_spec (memory_limit e) n); [lia | reflexivity].
Qed.

Lemma take_written (l : list Z) (c : nat) (x : Z) :
  (c < length l)%nat -> take (S c) (<[c := x]> l) = take c l ++ [x].
Proof.
  intros Hc. rewrite (take_S_r _ c x) by (by apply list_lookup_insert_eq).
  by rewrite take_insert_ge by lia.
Qed.

(** The copy loop over the indices [k .. k + m - 1] of a destination of
    length [k + m] that already agrees with the source below [k]. *)
Lemma copy_spec (src : list Z) (m : nat) :
  forall (k : nat) (dst : list Z),
    length dst = (k + m)%nat -> (k + m <= length src)%nat ->
    take k dst = take k src ->
    copy (seq k m) src dst = take (k + m) src.
Proof.
  induction m as [|m IH]; intros k dst Hlen Hsrc Hpre.
  - simpl. rewrite Nat.add_0_r in *.
    rewrite <- Hpre. symmetry. apply take_ge. lia.
  - simpl. destruct (lookup_lt_is_Some_2 src k) as [x Hx]; [lia|].
    rewrite Hx. simpl.
    replace (k + S m)%nat with (S k + m)%nat by lia.
    apply IH; [rewrite length_insert; lia | lia |].
    rewrite take_written by lia. rewrite Hpre.
    symmetry. by apply take_S_r.
Qed.

Section Scan.

Variable s : state.
Variables offset limit : Z.

Let listedP (i : Z) : Prop := _exists s i && isListed (valueDataOf s i) = true.
Let price (i : Z) : Z := listPrice (valueDataOf s i).

(** The scan keeps [count] within [limit] and the scratch arrays at their
    length, and the first [count] entries of the arrays are the next
    listed tokens and their prices. *)
Lemma scanListed_spec (rest : list Z) :
  forall (st : scan) (pre : list Z),
    0 <= count st <= limit ->
    0 <= skipped st <= offset ->
    (skipped st < offset -> count st = 0) ->
    length (tempTokenIds st) = Z.to_nat limit ->
    length (tempPrices st) = Z.to_nat limit ->
    take (Z.to_nat (count st)) (tempTokenIds st) = pre ->
    take (Z.to_nat (count st)) (tempPrices st) = price <$> pre ->
    let st' := scanListed s offset limit rest st in
    let more := take (Z.to_nat (limit - count st))
                     (drop (Z.to_nat (offset - skipped st)) (filter listedP rest)) in
    0 <= count st' <= limit /\
    length (tempTokenIds st') = Z.to_nat limit /\
    length (tempPrices st') = Z.to_nat limit /\
    take (Z.to_nat (count st')) (tempTokenIds st') = pre ++ more /\
    take (Z.to_nat (count st')) (tempPrices st') = price <$> (pre ++ more).
Proof.
  induction rest as [|i rest IH]; intros st pre Hc Hk Hfirst Hlen Hlenp Hids Hprices.
  - simpl. rewrite filter_nil, drop_nil, take_nil, app_nil_r. auto.
  - simpl scanListed. destruct (Z.ltb_spec (count st) limit) as [Hroom|Hfull].
    + destruct (_exists s i && isListed (valueDataOf s i)) eqn:Hlisted.
      * rewrite filter_cons_True by exact Hlisted.
        destruct (Z.leb_spec offset (skipped st)) as [Hpast|Hbefore].
        -- replace (Z.to_nat (offset - skipped st)) with 0%nat by lia.
           replace (Z.to_nat (limit - count st))
             with (S (Z.to_nat (limit - (count st + 1)))) by lia.
           simpl drop. simpl take.
           assert (Hlt : (Z.to_nat (count st) < Z.to_nat limit)%nat) by lia.
           specialize (IH (mkScan (count st + 1) (skipped st)
                             (<[Z.to_nat (count st) := i]> (tempTokenIds st))
                             (<[Z.to_nat (count st) := price i]> (tempPrices st)))
                          (pre ++ [i])).
           simpl in IH.
           replace (Z.to_nat (offset - skipped st)) with 0%nat in IH by lia.
           simpl drop in IH. rewrite <- !app_assoc in IH. simpl in IH.
           apply IH; try lia.
           ++ by rewrite length_insert.
           ++ by rewrite length_insert.
           ++ replace (Z.to_nat (count st + 1)) with (S (Z.to_nat (count st))) by lia.
              rewrite take_written by lia. by rewrite Hids.
           ++ replace (Z.to_nat (count st + 1)) with (S (Z.to_nat (count st))) by lia.
              rewrite take_written by lia. rewrite Hprices, fmap_app. reflexivity.
        -- replace (Z.to_nat (offset - skipped st))
             with (S (Z.to_nat (offset - (skipped st + 1)))) by lia.
           simpl drop.
           specialize (IH (mkScan (count st) (skipped st + 1)
                             (tempTokenIds st) (tempPrices st)) pre).
           simpl in IH. apply IH; try assumption; lia.
      * rewrite filter_cons_False by (unfold listedP; congruence).
        by apply IH.
    + replace (Z.to_nat (limit - count st)) with 0%nat by lia.
      simpl. rewrite app_nil_r. auto.
Qed.

End Scan.



(** *** Minting and access control *)



(** X23. An entry point of ValueNFT that demands a role fails for a caller
    who does not hold it and the transaction leaves the storage as it was:
    [mintValueNFT] needs the minter, [updateValue] the oracle,
    [updateMarketplaceFee] and [updateFeeRecipient] the admin. *)
Theorem nft_role_gated_call_needs_role c r (e : env) s :
  NFTViews.role_of c = Some r -> hasRole s r (msg_sender e) = false ->
  (exists err, step c e s = Err err) /\ transact c e s = s.
Proof.
  intros Hrole Hno.
  assert (Hfail : exists err, step c e s = Err err).
  { destruct c; simpl in Hrole; try discriminate; injection Hrole as <-; simpl;
      (destruct (nonPayable e); [|simpl; eauto]); run;
      [unfold mintValueNFT | unfold updateValue | unfold updateMarketplaceFee
      | unfold updateFeeRecipient];
      unfold onlyRole; rewrite Hno; simpl; eauto. }
  split; [exact Hfail|]. destruct Hfail as [err Herr].
  unfold transact. rewrite Herr. reflexivity.
Qed.

Lemma nft_role_gated_call_needs_role_witness :
  (exists err, step (UpdateValue 0 1 1 1 1 1) (at_time creator 2500) listed = Err err) /\
  transact (UpdateValue 0 1 1 1 1 1) (at_time creator 2500) listed = listed.
Proof.
  apply (nft_role_gated_call_needs_role (UpdateValue 0 1 1 1 1 1) ORACLE_ROLE);
    vm_compute; reflexivity.
Defined.

(** X24. A listing survives a transfer of the token. [_transfer], which
    every transfer of a token ends in, whoever was admitted to make it,
    changes the owner and touches no value record, listing or balance: the
    token stays flagged as listed at the same price and the lister index
    keeps naming the previous owner. From then on the previous owner can
    no longer unlist it, the new owner can. *)
Theorem listing_survives_transfer from to tokenId s s' :
  _transfer from to tokenId s = Ok s' ->
  _ownerOf s tokenId = from /\ _ownerOf s' tokenId = to /\ to <> 0 /\
  (forall id, valueDataOf s' id = valueDataOf s id) /\
  (forall id, listerOf s' id = listerOf s id) /\
  funds s' = funds s /\
  (to <> from -> forall e' : env, msg_sender e' = from ->
     unlistNFT tokenId e' s' = Err (Revert "Not token owner")) /\
  (isListed (valueDataOf s tokenId) = true ->
   forall e' : env, msg_sender e' = to ->
     exists s'', unlistNFT tokenId e' s' = Ok s'').
Proof.
  intros H. apply _transfer_inv in H as (Hfrom & _ & Hto & ->).
  assert (Hnew : _ownerOf (with_owners <[tokenId := to]> s) tokenId = to).
  { unfold _ownerOf; simpl. by rewrite lookup_insert_eq. }
  repeat split; try congruence.
  - intros Hne e' He'. unfold unlistNFT.
    rewrite ownerOf_Ok by congruence. run. rewrite Hnew, He'.
    rewrite (require_false (to =? from)); [reflexivity | by apply Z.eqb_neq].
  - intros Hlisted e' He'. unfold unlistNFT.
    rewrite ownerOf_Ok by congruence. run. rewrite Hnew, He', Z.eqb_refl.
    simpl require. run.
    change (valueDataOf (with_owners _ s) tokenId) with (valueDataOf s tokenId).
    rewrite Hlisted. simpl require. run. eauto.
Qed.

(** The creator hands the listed token 0 to the buyer. *)
Lemma listing_survives_transfer_witness :
  exists s',
    transferFrom creator buyer 0 (at_time creator 2500) listed = Ok s' /\
    _transfer creator buyer 0 listed = Ok s' /\
    _ownerOf s' 0 = buyer /\ isListed (valueDataOf s' 0) = true /\
    listerOf s' 0 = creator /\
    unlistNFT 0 (at_time creator 2600) s' = Err (Revert "Not token owner").
Proof.
  destruct (_transfer creator buyer 0 listed) as [s'|err] eqn:Ht;
    [|vm_compute in Ht; discriminate].
  destruct (listing_survives_transfer _ _ _ _ _ Ht)
    as (_ & Hown & _ & Hdata & Hlister & _ & Hold & _).
  exists s'. split; [rewrite <- Ht; vm_compute; reflexivity|].
  split; [reflexivity|]. split; [exact Hown|].
  split; [rewrite Hdata; vm_compute; reflexivity|].
  split; [rewrite Hlister; vm_compute; reflexivity|].
  apply Hold; [vm_compute; congruence | reflexivity].
Defined.

End NFTExtra.
